(** * Security log analyzer: the parsing and classification engine

    A shallow embedding of [scripts/log_analyzer.py] (class [LogAnalyzer]):
    the five regular expressions, [parse_line], [sanitize_ip] and the reading
    loop, chronological sort and entry section of [analyze].

    Conventions of the model.
    - A character is a code point below 256 ([ascii]); a line is a [string].
      The classes [\s], [\S], [\d] and [.] are the ones Python's [re] uses for
      [str] patterns, cut down to these code points.
    - [re.match] is a backtracking matcher in continuation-passing style with
      Python's priorities: alternatives left to right, repetitions greedy.
      A group's text is the input between the positions where the group is
      entered and left.
    - [datetime.strptime] follows CPython's [_strptime]: the format compiles to
      a pattern, matched with IGNORECASE under the month names of the C
      locale; the whole text has to be consumed; the fields have to make a
      date that exists.
    - An exception is a value: fallible code returns in [result]. The reading
      of the file is a list of lines; paths and console output are left out. *)

From Stdlib Require Import String Ascii List ZArith NArith Lia Bool.
From Stdlib Require Import DecimalString Sorted Permutation.
Import ListNotations.

Open Scope list_scope.
Open Scope string_scope.

(** ** Exceptions *)

Inductive exn : Type :=
| ValueError
| IndexError.

Inductive result (A : Type) : Type :=
| Ok (a : A)
| Raise (e : exn).

Arguments Ok {A} a.
Arguments Raise {A} e.

Definition rbind {A B : Type} (x : result A) (f : A -> result B) : result B :=
  match x with
  | Ok a => f a
  | Raise e => Raise e
  end.

Notation "x <- c1 ;; c2" := (rbind c1 (fun x => c2))
  (at level 61, c1 at next level, right associativity).

(** ** Characters and character classes *)

Definition code (a : ascii) : N := N_of_ascii a.

Definition newline : ascii := "010"%char.

(** [str.isspace] on the code points below 256; [\s] matches exactly these. *)
Definition is_space (a : ascii) : bool :=
  let c := code a in
  ((9 <=? c) && (c <=? 13) || (28 <=? c) && (c <=? 32)
   || (c =? 133) || (c =? 160))%N.

(** [\d]: the decimal digits; below 256 these are [0] to [9]. *)
Definition is_digit (a : ascii) : bool :=
  let c := code a in ((48 <=? c) && (c <=? 57))%N.

(** Lower case of a character, as [re.IGNORECASE] folds the ASCII letters. *)
Definition lower (a : ascii) : ascii :=
  let c := code a in
  if ((65 <=? c) && (c <=? 90))%N then ascii_of_N (c + 32) else a.

Inductive cclass : Type :=
| Chr (a : ascii)           (* a literal character *)
| ChrI (a : ascii)          (* a literal character under IGNORECASE *)
| Digit                     (* \d *)
| Space                     (* \s *)
| NonSpace                  (* \S *)
| Dot                       (* .  : anything but a newline *)
| Range (lo hi : ascii).    (* [lo-hi] *)

Definition in_class (c : cclass) (a : ascii) : bool :=
  match c with
  | Chr b => Ascii.eqb a b
  | ChrI b => Ascii.eqb (lower a) (lower b)
  | Digit => is_digit a
  | Space => is_space a
  | NonSpace => negb (is_space a)
  | Dot => negb (Ascii.eqb a newline)
  | Range lo hi => ((code lo <=? code a) && (code a <=? code hi))%N
  end.

(** ** Regular expressions *)

Inductive regex : Type :=
| Eps
| Cls (c : cclass)                (* one character of a class *)
| Lit (s : string)                (* literal text *)
| LitI (s : string)               (* literal text under IGNORECASE *)
| Seq (r1 r2 : regex)             (* r1 r2 *)
| Alt (r1 r2 : regex)             (* r1|r2 *)
| Star (c : cclass)               (* c*  greedy *)
| Plus (c : cclass)               (* c+  greedy *)
| Rep (n : nat) (c : cclass)      (* c{n} *)
| Group (n : nat) (r : regex)     (* capturing group number n *)
| Eol.                            (* $ without MULTILINE *)

Declare Scope regex_scope.
Delimit Scope regex_scope with re.
Bind Scope regex_scope with regex.
Infix "++" := Seq (right associativity, at level 60) : regex_scope.
Infix "||" := Alt : regex_scope.

(** Captured groups: the most recent binding of a number comes first. *)
Definition caps : Type := list (nat * list ascii).

Definition set_group (n : nat) (v : list ascii) (cs : caps) : caps :=
  (n, v) :: cs.

Fixpoint get_group (n : nat) (cs : caps) : option (list ascii) :=
  match cs with
  | [] => None
  | (k, v) :: cs' => if Nat.eqb k n then Some v else get_group n cs'
  end.

Section Matcher.
Context {R : Type}.

(** Literal text, character by character under the comparison [eqc]. *)
Fixpoint lit_match (eqc : ascii -> ascii -> bool) (p : string)
         (s : list ascii) (k : list ascii -> option R) : option R :=
  match p with
  | EmptyString => k s
  | String c p' =>
      match s with
      | a :: s' => if eqc a c then lit_match eqc p' s' k else None
      | [] => None
      end
  end.

(** Greedy [c*]: take one more character first, give it back on failure. *)
Fixpoint star_match (c : cclass) (s : list ascii)
         (k : list ascii -> option R) : option R :=
  match s with
  | a :: s' =>
      if in_class c a then
        match star_match c s' k with
        | Some r => Some r
        | None => k s
        end
      else k s
  | [] => k s
  end.

Fixpoint rep_match (n : nat) (c : cclass) (s : list ascii)
         (k : list ascii -> option R) : option R :=
  match n with
  | O => k s
  | S n' =>
      match s with
      | a :: s' => if in_class c a then rep_match n' c s' k else None
      | [] => None
      end
  end.

Fixpoint rmatch (r : regex) (s : list ascii) (cs : caps)
         (k : list ascii -> caps -> option R) : option R :=
  match r with
  | Eps => k s cs
  | Cls c =>
      match s with
      | a :: s' => if in_class c a then k s' cs else None
      | [] => None
      end
  | Lit p => lit_match Ascii.eqb p s (fun s' => k s' cs)
  | LitI p =>
      lit_match (fun a c => Ascii.eqb (lower a) (lower c)) p s
                (fun s' => k s' cs)
  | Seq r1 r2 => rmatch r1 s cs (fun s' cs' => rmatch r2 s' cs' k)
  | Alt r1 r2 =>
      match rmatch r1 s cs k with
      | Some x => Some x
      | None => rmatch r2 s cs k
      end
  | Star c => star_match c s (fun s' => k s' cs)
  | Plus c =>
      match s with
      | a :: s' =>
          if in_class c a then star_match c s' (fun s'' => k s'' cs)
          else None
      | [] => None
      end
  | Rep n c => rep_match n c s (fun s' => k s' cs)
  | Group n r =>
      rmatch r s cs
             (fun s' cs' =>
                k s' (set_group n (firstn (length s - length s') s) cs'))
  | Eol =>
      match s with
      | [] => k s cs
      | [a] => if Ascii.eqb a newline then k s cs else None
      | _ => None
      end
  end.
End Matcher.

(** A match object: the captured groups and the text left after the match. *)
Record re_match_obj : Type := MkMatch {
  m_groups : caps;
  m_rest : list ascii
}.

(** [re.match(pattern, line)]: anchored at the start, not at the end. *)
Definition re_match (r : regex) (line : string) : option re_match_obj :=
  rmatch r (list_ascii_of_string line) []
         (fun s cs => Some (MkMatch cs s)).

(** [match.group(n)]. *)
Definition group (m : re_match_obj) (n : nat) : result string :=
  match get_group n (m_groups m) with
  | Some v => Ok (string_of_list_ascii v)
  | None => Raise IndexError
  end.

(** ** The five patterns of log_analyzer.py *)

(** The text every pattern starts with:
    [^(\S+)\s+(\d+)\s+(\d{2}:\d{2}:\d{2})\s+server\s+] *)
Definition ts_prefix : regex :=
  (Group 1 (Plus NonSpace) ++ Plus Space ++
   Group 2 (Plus Digit) ++ Plus Space ++
   Group 3 (Rep 2 Digit ++ Lit ":" ++ Rep 2 Digit ++ Lit ":" ++ Rep 2 Digit) ++
   Plus Space ++ Lit "server" ++ Plus Space)%re.

(** [sudo\[(\d+)\]:\s+(\S+)\s+:\s+TTY=pts/\d+\s+;\s+PWD=\S+\s+;\s+USER=U\s+;\s+COMMAND=(.+)$]
    where [U] is the pattern of the target user. *)
Definition sudo_line (target : regex) : regex :=
  (Lit "sudo[" ++ Group 4 (Plus Digit) ++ Lit "]:" ++ Plus Space ++
   Group 5 (Plus NonSpace) ++ Plus Space ++ Lit ":" ++ Plus Space ++
   Lit "TTY=pts/" ++ Plus Digit ++ Plus Space ++ Lit ";" ++ Plus Space ++
   Lit "PWD=" ++ Plus NonSpace ++ Plus Space ++ Lit ";" ++ Plus Space ++
   Lit "USER=" ++ target ++ Plus Space ++ Lit ";" ++ Plus Space ++
   Lit "COMMAND=" ++ Group 6 (Plus Dot) ++ Eol)%re.

Definition command_tail : regex := sudo_line (Plus NonSpace).

Definition user_tail : regex :=
  (Group 4 (Lit "useradd" || Lit "userdel" || Lit "passwd" || Lit "su"
            || Lit "sudo") ++
   Lit "[" ++ Group 5 (Plus Digit) ++ Lit "]:" ++ Plus Space ++
   Group 6 (Star Dot) ++ Eol)%re.

Definition sudo_command_tail : regex := sudo_line (Lit "root").

Definition sudo_failure_tail : regex :=
  (Lit "sudo[" ++ Group 4 (Plus Digit) ++ Lit "]:" ++ Plus Space ++
   Lit "pam_unix(sudo:auth):" ++ Plus Space ++ Lit "authentication" ++
   Plus Space ++ Lit "failure;" ++ Plus Space ++
   Lit "logname=" ++ Plus NonSpace ++ Plus Space ++
   Lit "uid=" ++ Plus Digit ++ Plus Space ++
   Lit "euid=" ++ Plus Digit ++ Plus Space ++
   Lit "tty=" ++ Plus NonSpace ++ Plus Space ++
   Lit "ruser=" ++ Star NonSpace ++ Plus Space ++
   Lit "rhost=" ++ Plus NonSpace ++ Plus Space ++
   Lit "user=" ++ Group 5 (Plus NonSpace) ++ Eol)%re.

Definition hydra_attack_tail : regex :=
  (Lit "sshd[" ++ Group 4 (Plus Digit) ++ Lit "]:" ++ Plus Space ++
   Group 5 (Lit "Failed" || Lit "Accepted") ++ Plus Space ++
   Lit "password" ++ Plus Space ++ Lit "for" ++ Plus Space ++
   Group 6 (Plus NonSpace) ++ Plus Space ++ Lit "from" ++ Plus Space ++
   Group 7 (Plus NonSpace) ++ Plus Space ++ Lit "port" ++ Plus Space ++
   Group 8 (Plus Digit) ++ Plus Space ++ Lit "ssh2" ++ Eol)%re.

Definition command_regex : regex := (ts_prefix ++ command_tail)%re.
Definition user_regex : regex := (ts_prefix ++ user_tail)%re.
Definition sudo_command_regex : regex := (ts_prefix ++ sudo_command_tail)%re.
Definition sudo_failure_regex : regex := (ts_prefix ++ sudo_failure_tail)%re.
Definition hydra_attack_regex : regex := (ts_prefix ++ hydra_attack_tail)%re.

(** ** datetime *)

(** A naive [datetime]; the microsecond is 0 throughout and is left out. *)
Record datetime : Type := MkDatetime {
  dt_year : Z;
  dt_month : Z;
  dt_day : Z;
  dt_hour : Z;
  dt_minute : Z;
  dt_second : Z
}.

Definition is_leap (year : Z) : bool :=
  ((year mod 4 =? 0) && (negb (year mod 100 =? 0) || (year mod 400 =? 0)))%Z.

Definition days_in_month (year month : Z) : Z :=
  if ((month =? 2) && is_leap year)%Z then 29%Z
  else nth (Z.to_nat month)
           [0; 31; 28; 31; 30; 31; 30; 31; 31; 30; 31; 30; 31]%Z 0%Z.

Definition between (lo x hi : Z) : bool := ((lo <=? x) && (x <=? hi))%Z.

(** The constructor [datetime(year, month, day, hour, minute, second)]. *)
Definition make_datetime (y mo d h mi s : Z) : result datetime :=
  if between 1 y 9999 && between 1 mo 12 && between 1 d (days_in_month y mo)
     && between 0 h 23 && between 0 mi 59 && between 0 s 59
  then Ok (MkDatetime y mo d h mi s)
  else Raise ValueError.

(** Comparison of two datetimes: field by field, most significant first. *)
Fixpoint lex_compare (xs ys : list Z) : comparison :=
  match xs, ys with
  | x :: xs', y :: ys' =>
      match (x ?= y)%Z with
      | Eq => lex_compare xs' ys'
      | c => c
      end
  | [], [] => Eq
  | [], _ :: _ => Lt
  | _ :: _, [] => Gt
  end.

Definition dt_fields (t : datetime) : list Z :=
  [dt_year t; dt_month t; dt_day t; dt_hour t; dt_minute t; dt_second t].

Definition dt_compare (a b : datetime) : comparison :=
  lex_compare (dt_fields a) (dt_fields b).

Definition dt_ltb (a b : datetime) : bool :=
  match dt_compare a b with Lt => true | _ => false end.

Definition dt_eqb (a b : datetime) : bool :=
  match dt_compare a b with Eq => true | _ => false end.

Definition dt_le (a b : datetime) : Prop := dt_ltb b a = false.

(** Decimal text of an integer, as [str(int)] gives it. *)
Definition str_of_Z (z : Z) : string := NilZero.string_of_int (Z.to_int z).

Fixpoint zeros (n : nat) : string :=
  match n with
  | O => ""
  | S n' => String "0" (zeros n')
  end.

(** The conversion [%0wd] of a non-negative integer. *)
Definition pad (w : nat) (z : Z) : string :=
  let s := str_of_Z z in zeros (w - String.length s) ++ s.

(** [str(timestamp)]: [YYYY-MM-DD HH:MM:SS]. *)
Definition dt_str (t : datetime) : string :=
  pad 4 (dt_year t) ++ "-" ++ pad 2 (dt_month t) ++ "-" ++ pad 2 (dt_day t)
  ++ " " ++ pad 2 (dt_hour t) ++ ":" ++ pad 2 (dt_minute t) ++ ":"
  ++ pad 2 (dt_second t).

(** ** datetime.strptime(text, '%Y %b %d %H:%M:%S') *)

Fixpoint drop_while (f : ascii -> bool) (s : list ascii) : list ascii :=
  match s with
  | a :: s' => if f a then drop_while f s' else s
  | [] => []
  end.

Definition strip_chars (s : list ascii) : list ascii :=
  rev (drop_while is_space (rev (drop_while is_space s))).

(** [str.strip()]. *)
Definition strip (s : string) : string :=
  string_of_list_ascii (strip_chars (list_ascii_of_string s)).

Fixpoint digits_value (acc : Z) (s : list ascii) : Z :=
  match s with
  | [] => acc
  | a :: s' => digits_value (acc * 10 + (Z.of_N (code a) - 48))%Z s'
  end.

(** [int(text)] for text made of decimal digits, blanks around them allowed. *)
Definition py_int (s : string) : result Z :=
  let t := strip_chars (list_ascii_of_string s) in
  match t with
  | [] => Raise ValueError
  | _ => if forallb is_digit t then Ok (digits_value 0 t) else Raise ValueError
  end.

Definition a_month : list string :=
  [""; "jan"; "feb"; "mar"; "apr"; "may"; "jun";
   "jul"; "aug"; "sep"; "oct"; "nov"; "dec"].

Fixpoint index_of (x : string) (l : list string) (i : Z) : result Z :=
  match l with
  | [] => Raise ValueError
  | y :: l' => if String.eqb x y then Ok i else index_of x l' (i + 1)%Z
  end.

Definition str_lower (s : string) : string :=
  string_of_list_ascii (map lower (list_ascii_of_string s)).

(** The pattern the format compiles to (with IGNORECASE); the groups
    Y, b, d, H, M, S are numbered 1 to 6:
    [(\d\d\d\d)\s+(jan|...|dec)\s+(3[0-1]|[1-2]\d|0[1-9]|[1-9]| [1-9])\s+]
    [(2[0-3]|[0-1]\d|\d):([0-5]\d|\d):(6[0-1]|[0-5]\d|\d)] *)
Definition strptime_regex : regex :=
  (Group 1 (Cls Digit ++ Cls Digit ++ Cls Digit ++ Cls Digit) ++ Plus Space ++
   Group 2 (LitI "jan" || LitI "feb" || LitI "mar" || LitI "apr" || LitI "may"
            || LitI "jun" || LitI "jul" || LitI "aug" || LitI "sep"
            || LitI "oct" || LitI "nov" || LitI "dec") ++ Plus Space ++
   Group 3 ((Lit "3" ++ Cls (Range "0" "1")) || (Cls (Range "1" "2") ++ Cls Digit)
            || (Lit "0" ++ Cls (Range "1" "9")) || Cls (Range "1" "9")
            || (Lit " " ++ Cls (Range "1" "9"))) ++ Plus Space ++
   Group 4 ((Lit "2" ++ Cls (Range "0" "3")) || (Cls (Range "0" "1") ++ Cls Digit)
            || Cls Digit) ++ Lit ":" ++
   Group 5 ((Cls (Range "0" "5") ++ Cls Digit) || Cls Digit) ++ Lit ":" ++
   Group 6 ((Lit "6" ++ Cls (Range "0" "1")) || (Cls (Range "0" "5") ++ Cls Digit)
            || Cls Digit))%re.

(** Every failure of [strptime] is a [ValueError]: no match of the format,
    unconverted data after the match, or a date that does not exist. *)
Definition strptime (text : string) : result datetime :=
  match re_match strptime_regex text with
  | None => Raise ValueError
  | Some found =>
      match m_rest found with
      | _ :: _ => Raise ValueError
      | [] =>
          Y <- group found 1 ;;
          b <- group found 2 ;;
          d <- group found 3 ;;
          H <- group found 4 ;;
          M <- group found 5 ;;
          S <- group found 6 ;;
          year <- py_int Y ;;
          month <- index_of (str_lower b) a_month 0%Z ;;
          day <- py_int d ;;
          hour <- py_int H ;;
          minute <- py_int M ;;
          second <- py_int S ;;
          make_datetime year month day hour minute second
      end
  end.

(** ** Statistics *)

(** The keys of the [statistics] dict, in the order of its literal. *)
Inductive counter : Type :=
| total_entries
| commands
| user_changes
| sudo_commands
| failed_sudo
| failed_logins
| successful_logins
| potential_attacks.

(** The dict has these eight keys from [__init__] on and none is ever added
    or removed, so it is a record with one field a key. *)
Record stats : Type := MkStats {
  s_total_entries : nat;
  s_commands : nat;
  s_user_changes : nat;
  s_sudo_commands : nat;
  s_failed_sudo : nat;
  s_failed_logins : nat;
  s_successful_logins : nat;
  s_potential_attacks : nat
}.

(** [statistics[key]] *)
Definition stat (st : stats) (key : counter) : nat :=
  match key with
  | total_entries => s_total_entries st
  | commands => s_commands st
  | user_changes => s_user_changes st
  | sudo_commands => s_sudo_commands st
  | failed_sudo => s_failed_sudo st
  | failed_logins => s_failed_logins st
  | successful_logins => s_successful_logins st
  | potential_attacks => s_potential_attacks st
  end.

(** [statistics[key] += 1] *)
Definition incr (key : counter) (st : stats) : stats :=
  let '(MkStats te co uc sc fs fl sl pa) := st in
  match key with
  | total_entries => MkStats (te + 1) co uc sc fs fl sl pa
  | commands => MkStats te (co + 1) uc sc fs fl sl pa
  | user_changes => MkStats te co (uc + 1) sc fs fl sl pa
  | sudo_commands => MkStats te co uc (sc + 1) fs fl sl pa
  | failed_sudo => MkStats te co uc sc (fs + 1) fl sl pa
  | failed_logins => MkStats te co uc sc fs (fl + 1) sl pa
  | successful_logins => MkStats te co uc sc fs fl (sl + 1) pa
  | potential_attacks => MkStats te co uc sc fs fl sl (pa + 1)
  end.

Definition zero_stats : stats := MkStats 0 0 0 0 0 0 0 0.

Definition counter_eqb (a b : counter) : bool :=
  match a, b with
  | total_entries, total_entries | commands, commands
  | user_changes, user_changes | sudo_commands, sudo_commands
  | failed_sudo, failed_sudo | failed_logins, failed_logins
  | successful_logins, successful_logins
  | potential_attacks, potential_attacks => true
  | _, _ => false
  end.

(** ** LogAnalyzer *)

(** An entry of [log_entries]: the tuple [(timestamp, formatted_entry)]. *)
Definition entry : Type := (datetime * string)%type.

Record LogAnalyzer : Type := MkAnalyzer {
  current_year : Z;
  log_entries : list entry;
  statistics : stats
}.

(** [__init__]: [year or datetime.now().year]; no year and year 0 are both
    false and give the current year [now_year]. *)
Definition LogAnalyzer_init (year : option Z) (now_year : Z) : LogAnalyzer :=
  let y := match year with
           | Some y => if (y =? 0)%Z then now_year else y
           | None => now_year
           end in
  MkAnalyzer y [] zero_stats.

Definition bump (key : counter) (self : LogAnalyzer) : LogAnalyzer :=
  MkAnalyzer (current_year self) (log_entries self)
             (incr key (statistics self)).

Definition append_entry (e : entry) (self : LogAnalyzer) : LogAnalyzer :=
  MkAnalyzer (current_year self) (log_entries self ++ [e])%list (statistics self).

Definition nl : string := String newline "".

(** [sanitize_ip]; [str.split('.')] cuts at every dot. *)
Fixpoint split_on (sep : ascii) (s : list ascii) : list (list ascii) :=
  match s with
  | [] => [[]]
  | a :: s' =>
      if Ascii.eqb a sep then [] :: split_on sep s'
      else match split_on sep s' with
           | p :: ps => (a :: p) :: ps
           | [] => [[a]]
           end
  end.

Definition split (sep : ascii) (s : string) : list string :=
  map string_of_list_ascii (split_on sep (list_ascii_of_string s)).

(** [parts[i]] *)
Definition item (parts : list string) (i : nat) : result string :=
  match nth_error parts i with
  | Some p => Ok p
  | None => Raise IndexError
  end.

Definition sanitize_ip (ip : string) : result string :=
  let parts := split "." ip in
  if Nat.eqb (List.length parts) 4 then
    p0 <- item parts 0 ;;
    p1 <- item parts 1 ;;
    Ok (p0 ++ "." ++ p1 ++ ".XXX.XXX")
  else Ok "XXX.XXX.XXX.XXX".

(** ** parse_line *)

(** How a block under [if match:] ends: with a [return], or by running off
    its end into the code below it. *)
Inductive flow : Type :=
| Return (r : option entry) (self : LogAnalyzer)
| Fallthrough (self : LogAnalyzer).

(** [f"{self.current_year} {match.group(1)} {match.group(2)} {match.group(3)}"] *)
Definition timestamp_str (self : LogAnalyzer) (m : re_match_obj)
  : result string :=
  g1 <- group m 1 ;;
  g2 <- group m 2 ;;
  g3 <- group m 3 ;;
  Ok (str_of_Z (current_year self) ++ " " ++ g1 ++ " " ++ g2 ++ " " ++ g3).

(** The opening every block shares:
    [try: timestamp = datetime.strptime(timestamp_str, '%Y %b %d %H:%M:%S')]
    [except ValueError: return None] *)
Definition with_timestamp (self : LogAnalyzer) (m : re_match_obj)
           (body : datetime -> result flow) : result flow :=
  ts <- timestamp_str self m ;;
  match strptime ts with
  | Ok timestamp => body timestamp
  | Raise ValueError => Ok (Return None self)
  | Raise e => Raise e
  end.

(** Lines 67-77: command usage. *)
Definition command_block (self : LogAnalyzer) (m : re_match_obj)
  : result flow :=
  with_timestamp self m (fun timestamp =>
    user <- group m 5 ;;
    command <- group m 6 ;;
    let self := bump commands self in
    Ok (Return (Some (timestamp,
          "Command Log - Timestamp: " ++ dt_str timestamp ++ ", User: " ++ user
          ++ ", Command: " ++ command ++ nl)) self)).

(** Lines 80-99: user authentication changes. No branch of the chain takes
    the event [su]: the block then ends without a [return]. *)
Definition user_block (self : LogAnalyzer) (m : re_match_obj) : result flow :=
  with_timestamp self m (fun timestamp =>
    event <- group m 4 ;;
    details <- group m 6 ;;
    let self := bump user_changes self in
    if String.eqb event "useradd" then
      Ok (Return (Some (timestamp,
            "User Add - Timestamp: " ++ dt_str timestamp
            ++ ", New user added: " ++ details ++ nl)) self)
    else if String.eqb event "userdel" then
      Ok (Return (Some (timestamp,
            "User Delete - Timestamp: " ++ dt_str timestamp
            ++ ", User removed: " ++ details ++ nl)) self)
    else if String.eqb event "passwd" then
      Ok (Return (Some (timestamp,
            "Password Change - Timestamp: " ++ dt_str timestamp
            ++ ", Password changed: " ++ details ++ nl)) self)
    else if String.eqb event "sudo" then
      let self := bump sudo_commands self in
      Ok (Return (Some (timestamp,
            "ALERT!!!! sudo Command - Timestamp: " ++ dt_str timestamp
            ++ ", User used sudo command: " ++ details ++ nl)) self)
    else Ok (Fallthrough self)).

(** Lines 102-112: sudo command usage. *)
Definition sudo_command_block (self : LogAnalyzer) (m : re_match_obj)
  : result flow :=
  with_timestamp self m (fun timestamp =>
    user <- group m 5 ;;
    command <- group m 6 ;;
    let self := bump sudo_commands self in
    Ok (Return (Some (timestamp,
          "sudo Command - Timestamp: " ++ dt_str timestamp ++ ", User: " ++ user
          ++ ", Command: " ++ command ++ nl)) self)).

(** Lines 115-125: failed sudo attempts. *)
Definition sudo_failure_block (self : LogAnalyzer) (m : re_match_obj)
  : result flow :=
  with_timestamp self m (fun timestamp =>
    user <- group m 5 ;;
    let self := bump failed_sudo self in
    let self := bump potential_attacks self in
    Ok (Return (Some (timestamp,
          "ALERT! Failed sudo - Timestamp: " ++ dt_str timestamp ++ ", User: "
          ++ user ++ ", Command: sudo command failed" ++ nl)) self)).

(** Lines 128-146: Hydra attack logs. *)
Definition hydra_block (self : LogAnalyzer) (m : re_match_obj) : result flow :=
  with_timestamp self m (fun timestamp =>
    status <- group m 5 ;;
    target_user <- group m 6 ;;
    ip_address <- group m 7 ;;
    port <- group m 8 ;;
    if String.eqb status "Failed" then
      let self := bump failed_logins self in
      let self := bump potential_attacks self in
      ip <- sanitize_ip ip_address ;;
      Ok (Return (Some (timestamp,
            "Hydra Attack - Failed login attempt - Timestamp: "
            ++ dt_str timestamp ++ ", User: " ++ target_user ++ ", IP: " ++ ip
            ++ ", Port: " ++ port ++ nl)) self)
    else if String.eqb status "Accepted" then
      let self := bump successful_logins self in
      ip <- sanitize_ip ip_address ;;
      Ok (Return (Some (timestamp,
            "Hydra Attack - Successful login - Timestamp: "
            ++ dt_str timestamp ++ ", User: " ++ target_user ++ ", IP: " ++ ip
            ++ ", Port: " ++ port ++ nl)) self)
    else Ok (Fallthrough self)).

Definition outcome : Type := (option entry * LogAnalyzer)%type.

(** [match = re.match(pattern, line)] / [if match: block], and below it the
    code [next], reached when there is no match or the block falls through. *)
Definition try_pattern (pattern : regex)
           (block : LogAnalyzer -> re_match_obj -> result flow)
           (next : LogAnalyzer -> result outcome)
           (line : string) (self : LogAnalyzer) : result outcome :=
  match re_match pattern line with
  | Some m =>
      f <- block self m ;;
      match f with
      | Return r self' => Ok (r, self')
      | Fallthrough self' => next self'
      end
  | None => next self
  end.

(** [parse_line]: the entry returned ([None] for no entry) and the analyzer
    with its statistics updated. *)
Definition parse_line (self : LogAnalyzer) (line : string) : result outcome :=
  try_pattern command_regex command_block
    (try_pattern user_regex user_block
       (try_pattern sudo_command_regex sudo_command_block
          (try_pattern sudo_failure_regex sudo_failure_block
             (try_pattern hydra_attack_regex hydra_block
                (fun self => Ok (None, self))
                line)
             line)
          line)
       line)
    line self.

(** ** analyze *)

(** The body of the reading loop: [entry = self.parse_line(line.strip())],
    and for an entry the append and the count. *)
Definition process_line (self : LogAnalyzer) (line : string)
  : result LogAnalyzer :=
  r <- parse_line self (strip line) ;;
  match fst r with
  | Some e => Ok (bump total_entries (append_entry e (snd r)))
  | None => Ok (snd r)
  end.

Fixpoint read_lines (self : LogAnalyzer) (infile : list string)
  : result LogAnalyzer :=
  match infile with
  | [] => Ok self
  | line :: rest =>
      self' <- process_line self line ;;
      read_lines self' rest
  end.

(** [list.sort(key=lambda x: x[0])] is stable, and a stable sort has one
    result only: the one of insertion from the right, each element placed
    before the first element that is not smaller. *)
Fixpoint insert_entry (e : entry) (l : list entry) : list entry :=
  match l with
  | [] => [e]
  | x :: l' => if dt_ltb (fst x) (fst e) then x :: insert_entry e l' else e :: l
  end.

Definition sort_entries (l : list entry) : list entry :=
  fold_right insert_entry [] l.

(** Lines 218-220: the heading of the entries and one [write] an entry. *)
Definition write_entries (entries : list entry) : string :=
  "=== Parsed Log Entries ===" ++ nl ++ nl ++ String.concat "" (map snd entries).

(** [analyze]: [infile] is the list of lines the file yields, [None] when the
    path does not exist. The result is [None] where the code returns [False],
    and else the analyzer after the sort with the report's body. Banner and
    statistics section of the report are not modelled. *)
Definition analyze (self : LogAnalyzer) (infile : option (list string))
  : option (LogAnalyzer * string) :=
  match infile with
  | None => None
  | Some lines =>
      match read_lines self lines with
      | Raise _ => None
      | Ok self' =>
          let sorted := sort_entries (log_entries self') in
          Some (MkAnalyzer (current_year self') sorted (statistics self'),
                write_entries sorted)
      end
  end.

(** * Definitions used by the statements and proofs *)

Open Scope list_scope.

(** The group numbers that occur in a pattern. *)
Fixpoint groups (r : regex) : list nat :=
  match r with
  | Seq a b | Alt a b => groups a ++ groups b
  | Group n r' => n :: groups r'
  | _ => []
  end.

(** The groups every match of the pattern passes: those outside all
    alternatives. *)
Fixpoint sure_groups (r : regex) : list nat :=
  match r with
  | Seq a b => sure_groups a ++ sure_groups b
  | Group n r' => n :: sure_groups r'
  | _ => []
  end.

(** The continuation that accepts: it hands back the groups and the rest. *)
Definition K0 : list ascii -> caps -> option (caps * list ascii) :=
  fun s cs => Some (cs, s).

(** [bindform r k]: in front of [k], the pattern [r] matches in its first way
    or not at all; going back into [r] after a failure of [k] finds nothing. *)
Definition bindform {R : Type} (r : regex) (k : list ascii -> caps -> option R) : Prop :=
  forall s cs,
    rmatch r s cs k =
    match rmatch r s cs K0 with
    | Some (cs', s') => k s' cs'
    | None => None
    end.

(** The continuation fails on every text that starts in the class [c]. *)
Definition blocks {R : Type} (c : cclass) (k : list ascii -> caps -> option R) : Prop :=
  forall a t cs, in_class c a = true -> k (a :: t) cs = None.

(** The pattern matches no text that starts in the class [c]. *)
Definition rejects (c : cclass) (r : regex) : Prop :=
  forall (R : Type) (k : list ascii -> caps -> option R) a t cs,
    in_class c a = true -> rmatch r (a :: t) cs k = None.

(** No character is in both classes. *)
Definition disjoint (c c' : cclass) : Prop :=
  forall a, in_class c a = true -> in_class c' a = false.

(** The match of the shared prefix: its groups and the text after it. *)
Definition scan_prefix (line : string) : option (caps * list ascii) :=
  rmatch ts_prefix (list_ascii_of_string line) [] K0.

(** The continuation of [re_match]. *)
Definition k_match : list ascii -> caps -> option re_match_obj :=
  fun s cs => Some (MkMatch cs s).

(** The five patterns, in the order [parse_line] tries them, and what each
    puts after the shared prefix. *)
Definition tails : list regex :=
  [command_tail; user_tail; sudo_command_tail; sudo_failure_tail;
   hydra_attack_tail].

Definition patterns : list regex :=
  [command_regex; user_regex; sudo_command_regex; sudo_failure_regex;
   hydra_attack_regex].

(** The names the user pattern accepts for a process: group 4. *)
Definition event_names : regex :=
  (Lit "useradd" || Lit "userdel" || Lit "passwd" || Lit "su" || Lit "sudo")%re.

(** The user pattern from the process id on. *)
Definition user_details : regex :=
  (Group 5 (Plus Digit) ++ Lit "]:" ++ Plus Space ++ Group 6 (Star Dot) ++ Eol)%re.

(** The registry of the specification: the five grammars in their priority
    order, each a pattern with the block that builds its event. *)
Definition registry : list (regex * (LogAnalyzer -> re_match_obj -> result flow)) :=
  [(command_regex, command_block);
   (user_regex, user_block);
   (sudo_command_regex, sudo_command_block);
   (sudo_failure_regex, sudo_failure_block);
   (hydra_attack_regex, hydra_block)].

(** The classifier in the words of the specification (4.2): the line is
    tested against the grammars in the fixed order, the first grammar whose
    pattern matches wins, and no later grammar is tried, whatever the block
    of the winner does. To be compared with [parse_line]. *)
Fixpoint first_match_wins
         (reg : list (regex * (LogAnalyzer -> re_match_obj -> result flow)))
         (self : LogAnalyzer) (line : string) : result outcome :=
  match reg with
  | [] => Ok (None, self)
  | (pattern, block) :: rest =>
      match re_match pattern line with
      | Some m =>
          f <- block self m ;;
          match f with
          | Return r self' => Ok (r, self')
          | Fallthrough self' => Ok (None, self')
          end
      | None => first_match_wins rest self line
      end
  end.

(** [statistics[key] += 1] for each key of a list. *)
Definition bump_all (keys : list counter) (self : LogAnalyzer) : LogAnalyzer :=
  fold_right bump self keys.

(** How a block ends, as a function of the analyzer it starts from. *)
Inductive flow_shape : Type :=
| ShReturn (r : option entry) (keys : list counter)
| ShFall (keys : list counter).

Definition apply_shape (sh : flow_shape) (self : LogAnalyzer) : flow :=
  match sh with
  | ShReturn r keys => Return r (bump_all keys self)
  | ShFall keys => Fallthrough (bump_all keys self)
  end.

(** What a block may do: return [None] and change nothing, return an entry
    after the increments of one of the lists [allowed], or fall through after
    the increments [through]. *)
Definition shape_allowed (allowed : list (list counter))
           (through : option (list counter)) (sh : flow_shape) : Prop :=
  match sh with
  | ShReturn None keys => keys = []
  | ShReturn (Some _) keys => In keys allowed
  | ShFall keys => through = Some keys
  end.

(** The block ends in one of the allowed ways, the same for every analyzer
    of the year [year]. *)
Definition block_does (block : LogAnalyzer -> re_match_obj -> result flow)
           (year : Z) (m : re_match_obj)
           (allowed : list (list counter)) (through : option (list counter))
  : Prop :=
  exists sh, shape_allowed allowed through sh /\
    forall self, current_year self = year ->
                 block self m = Ok (apply_shape sh self).

(** The increments a line with an entry makes: the counters of one list. *)
Definition event_deltas : list (list counter) :=
  [[commands]; [user_changes]; [sudo_commands; user_changes];
   [sudo_commands]; [potential_attacks; failed_sudo];
   [potential_attacks; failed_logins]; [successful_logins]].

(** Entry and increments of one line: with an entry one of [event_deltas],
    without one nothing or [user_changes] alone. *)
Definition outcome_allowed (r : option entry) (keys : list counter) : Prop :=
  match r with
  | Some _ => In keys event_deltas
  | None => keys = [] \/ keys = [user_changes]
  end.

(** The entry [analyze] gets for a line of the file in the year [year]. *)
Definition line_event (year : Z) (line : string) : option entry :=
  match parse_line (MkAnalyzer year [] zero_stats) (strip line) with
  | Ok (r, _) => r
  | Raise _ => None
  end.

(** Whether the line gives an entry. *)
Definition produces_event (year : Z) (line : string) : bool :=
  match line_event year line with
  | Some _ => true
  | None => false
  end.

(** The entries of the lines of a file, in the order of the lines. *)
Fixpoint events_of (year : Z) (lines : list string) : list entry :=
  match lines with
  | [] => []
  | line :: rest =>
      match line_event year line with
      | Some e => e :: events_of year rest
      | None => events_of year rest
      end
  end.

(** The entry is dated [t]. *)
Definition has_timestamp (t : datetime) (e : entry) : bool := dt_eqb (fst e) t.

(** The first entry is not dated after the second. *)
Definition chronological (a b : entry) : Prop := dt_le (fst a) (fst b).

(** The text holds no dot. *)
Definition dot_free (p : string) : Prop :=
  ~ In "."%char (list_ascii_of_string p).

(** [ip] is four parts without a dot, with a dot between them. *)
Definition four_parts (ip p0 p1 p2 p3 : string) : Prop :=
  dot_free p0 /\ dot_free p1 /\ dot_free p2 /\ dot_free p3 /\
  ip = (p0 ++ "." ++ p1 ++ "." ++ p2 ++ "." ++ p3)%string.

(** [sep.join(parts)] *)
Fixpoint join (sep : ascii) (parts : list (list ascii)) : list ascii :=
  match parts with
  | [] => []
  | [p] => p
  | p :: ps => p ++ sep :: join sep ps
  end.

Open Scope string_scope.

(** [sub in s] *)
Definition contains (sub s : string) : bool :=
  match index 0 sub s with
  | Some _ => true
  | None => false
  end.

(** The counters of the categories: all but [total_entries]. *)
Definition categories : list counter :=
  [commands; user_changes; sudo_commands; failed_sudo; failed_logins;
   successful_logins; potential_attacks].

(** The line of Scenario A. *)
Definition scenario_A : string :=
  "Jan 5 10:00:00 server sshd[1234]: Failed password for admin from 203.0.113.50 port 22000 ssh2".

(** Scenario D: a command log and a failed login, both dated Feb 1 00:00:00,
    as the two lines of a file. *)
Definition scenario_D : list string :=
  ["Feb 1 00:00:00 server sudo[100]: alice : TTY=pts/0 ; PWD=/home/alice ; USER=alice ; COMMAND=/bin/ls" ++ nl;
   "Feb 1 00:00:00 server sshd[200]: Failed password for admin from 203.0.113.50 port 22000 ssh2" ++ nl].

(** A line of the failed-sudo shape. *)
Definition failed_sudo_line : string :=
  "Jan 5 10:00:00 server sudo[1234]: pam_unix(sudo:auth): authentication failure; logname=bob uid=1000 euid=0 tty=/dev/pts/0 ruser=bob rhost=localhost user=bob".

(** A sudo command line with [USER=root]. *)
Definition sudo_root_line : string :=
  "Jan 5 10:00:00 server sudo[1234]: alice : TTY=pts/0 ; PWD=/home/alice ; USER=root ; COMMAND=/bin/ls".

(** A [su] line, and the same dated Feb 30. *)
Definition su_line : string :=
  "Jan 5 10:00:00 server su[1234]: Successful su for bob by root".

Definition su_line_bad_date : string :=
  "Feb 30 10:00:00 server su[1234]: Successful su for bob by root".

(** An analyzer before its run. *)
Definition fresh (year : Z) : LogAnalyzer := MkAnalyzer year [] zero_stats.

(** The timestamp [parse_line] computes from a match. *)
Definition match_timestamp (self : LogAnalyzer) (m : re_match_obj)
  : result datetime :=
  ts <- timestamp_str self m ;; strptime ts.

(** C4 as the claim words it, without a condition on the timestamp. *)
Definition su_always_counted : Prop :=
  forall self line m,
    re_match user_regex line = Some m -> group m 4 = Ok "su" ->
    re_match command_regex line = None ->
    exists self',
      parse_line self line = Ok (None, self') /\
      stat (statistics self') user_changes
      = stat (statistics self) user_changes + 1.

(** C3 as the claim words it: two category counters move for one line in
    the sudo case of the user pattern only. *)
Definition two_counters_for_user_sudo_only : Prop :=
  forall self line r self' c1 c2,
    parse_line self line = Ok (r, self') ->
    In c1 categories -> In c2 categories -> c1 <> c2 ->
    stat (statistics self') c1 <> stat (statistics self) c1 ->
    stat (statistics self') c2 <> stat (statistics self) c2 ->
    exists m, re_match user_regex line = Some m /\ group m 4 = Ok "sudo".

Open Scope list_scope.

(** [Matches r w s]: the pattern [r] matches the text [w] when [s] is what
    follows it in the input (only [$] looks at [s]). *)
Inductive Matches : regex -> list ascii -> list ascii -> Prop :=
| M_eps s : Matches Eps [] s
| M_cls c a s : in_class c a = true -> Matches (Cls c) [a] s
| M_lit p s : Matches (Lit p) (list_ascii_of_string p) s
| M_liti p w s :
    Forall2 (fun a c => Ascii.eqb (lower a) (lower c) = true) w
            (list_ascii_of_string p) ->
    Matches (LitI p) w s
| M_seq r1 r2 w1 w2 s :
    Matches r1 w1 (w2 ++ s) -> Matches r2 w2 s -> Matches (Seq r1 r2) (w1 ++ w2) s
| M_alt_l r1 r2 w s : Matches r1 w s -> Matches (Alt r1 r2) w s
| M_alt_r r1 r2 w s : Matches r2 w s -> Matches (Alt r1 r2) w s
| M_star c w s :
    Forall (fun a => in_class c a = true) w -> Matches (Star c) w s
| M_plus c a w s :
    in_class c a = true -> Forall (fun a => in_class c a = true) w ->
    Matches (Plus c) (a :: w) s
| M_rep n c w s :
    length w = n -> Forall (fun a => in_class c a = true) w ->
    Matches (Rep n c) w s
| M_group n r w s : Matches r w s -> Matches (Group n r) w s
| M_eol s : s = [] \/ s = [newline] -> Matches Eol [] s.

(** The failed-sudo pattern from the PAM text on. *)
Definition failure_details : regex :=
  (Lit "pam_unix(sudo:auth):" ++ Plus Space ++ Lit "authentication" ++
   Plus Space ++ Lit "failure;" ++ Plus Space ++
   Lit "logname=" ++ Plus NonSpace ++ Plus Space ++
   Lit "uid=" ++ Plus Digit ++ Plus Space ++
   Lit "euid=" ++ Plus Digit ++ Plus Space ++
   Lit "tty=" ++ Plus NonSpace ++ Plus Space ++
   Lit "ruser=" ++ Star NonSpace ++ Plus Space ++
   Lit "rhost=" ++ Plus NonSpace ++ Plus Space ++
   Lit "user=" ++ Group 5 (Plus NonSpace) ++ Eol)%re.

(** A line as the iteration over the file yields it: text without a newline,
    with or without the newline that ended it. *)
Definition file_line (raw : string) : Prop :=
  exists body,
    ~ In newline (list_ascii_of_string body) /\
    (raw = body \/ raw = (body ++ nl)%string).

(** The counters a line with an entry accounts for, by the first pattern
    that matches it and, for the user and the login pattern, by the event and
    the status it names: two counters for the event [sudo] of the user
    pattern, for a failed sudo and for a failed login, one counter in every
    other case. *)
Definition counted_as (line : string) (keys : list counter) : Prop :=
  match re_match command_regex line with
  | Some _ => keys = [commands]
  | None =>
  match re_match user_regex line with
  | Some m =>
      exists event, group m 4 = Ok event /\
        ((event = "sudo"%string /\ keys = [sudo_commands; user_changes]) \/
         (In event ["useradd"; "userdel"; "passwd"]%string /\
          keys = [user_changes]))
  | None =>
  match re_match sudo_command_regex line with
  | Some _ => keys = [sudo_commands]
  | None =>
  match re_match sudo_failure_regex line with
  | Some _ => keys = [potential_attacks; failed_sudo]
  | None =>
  match re_match hydra_attack_regex line with
  | Some m =>
      exists status, group m 5 = Ok status /\
        ((status = "Failed"%string /\
          keys = [potential_attacks; failed_logins]) \/
         (status = "Accepted"%string /\ keys = [successful_logins]))
  | None => False
  end end end end end.

(** The number, in the order of [parse_line], of the first pattern that
    matches the line. *)
Definition first_pattern (line : string) : option nat :=
  match re_match command_regex line with
  | Some _ => Some 1
  | None =>
  match re_match user_regex line with
  | Some _ => Some 2
  | None =>
  match re_match sudo_command_regex line with
  | Some _ => Some 3
  | None =>
  match re_match sudo_failure_regex line with
  | Some _ => Some 4
  | None =>
  match re_match hydra_attack_regex line with
  | Some _ => Some 5
  | None => None
  end end end end end.

(** The increments the block of pattern [g] makes, with and without an
    entry. *)
Definition keys_for (g : option nat) (r : option entry) (keys : list counter)
  : Prop :=
  match g, r with
  | Some 1, Some _ => keys = [commands]
  | Some 2, Some _ =>
      keys = [user_changes] \/ keys = [sudo_commands; user_changes]
  | Some 2, None => keys = [] \/ keys = [user_changes]
  | Some 3, Some _ => keys = [sudo_commands]
  | Some 4, Some _ => keys = [potential_attacks; failed_sudo]
  | Some 5, Some _ =>
      keys = [potential_attacks; failed_logins] \/ keys = [successful_logins]
  | Some (S (S (S (S (S (S _)))))), _ | Some 0, _ => False
  | _, None => keys = []
  | None, Some _ => False
  end.

(** How often the key [c] occurs in a list of keys. *)
Definition occurrences (c : counter) (keys : list counter) : nat :=
  length (filter (fun k => counter_eqb k c) keys).

(** The analyzer after one turn of the reading loop that found the entry [r]
    and made the increments [keys]. *)
Definition after_line (r : option entry) (keys : list counter)
           (self : LogAnalyzer) : LogAnalyzer :=
  match r with
  | Some e => bump total_entries (append_entry e (bump_all keys self))
  | None => bump_all keys self
  end.

From Stdlib Require DecimalPos.

(** The value of a decimal numeral read from the left, [acc] being the value
    read so far. *)
Fixpoint uint_value (acc : Z) (d : Decimal.uint) : Z :=
  match d with
  | Decimal.Nil => acc
  | Decimal.D0 l => uint_value (acc * 10 + 0) l
  | Decimal.D1 l => uint_value (acc * 10 + 1) l
  | Decimal.D2 l => uint_value (acc * 10 + 2) l
  | Decimal.D3 l => uint_value (acc * 10 + 3) l
  | Decimal.D4 l => uint_value (acc * 10 + 4) l
  | Decimal.D5 l => uint_value (acc * 10 + 5) l
  | Decimal.D6 l => uint_value (acc * 10 + 6) l
  | Decimal.D7 l => uint_value (acc * 10 + 7) l
  | Decimal.D8 l => uint_value (acc * 10 + 8) l
  | Decimal.D9 l => uint_value (acc * 10 + 9) l
  end%Z.

(** The [strptime] pattern after the year. *)
Definition strptime_after_year : regex :=
  (Plus Space ++
   Group 2 (LitI "jan" || LitI "feb" || LitI "mar" || LitI "apr" || LitI "may"
            || LitI "jun" || LitI "jul" || LitI "aug" || LitI "sep"
            || LitI "oct" || LitI "nov" || LitI "dec") ++ Plus Space ++
   Group 3 ((Lit "3" ++ Cls (Range "0" "1")) || (Cls (Range "1" "2") ++ Cls Digit)
            || (Lit "0" ++ Cls (Range "1" "9")) || Cls (Range "1" "9")
            || (Lit " " ++ Cls (Range "1" "9"))) ++ Plus Space ++
   Group 4 ((Lit "2" ++ Cls (Range "0" "3")) || (Cls (Range "0" "1") ++ Cls Digit)
            || Cls Digit) ++ Lit ":" ++
   Group 5 ((Cls (Range "0" "5") ++ Cls Digit) || Cls Digit) ++ Lit ":" ++
   Group 6 ((Lit "6" ++ Cls (Range "0" "1")) || (Cls (Range "0" "5") ++ Cls Digit)
            || Cls Digit))%re.

(** The datetime is one of the calendar. *)
Definition valid_datetime (t : datetime) : Prop :=
  (1 <= dt_year t <= 9999 /\ 1 <= dt_month t <= 12 /\
   1 <= dt_day t <= days_in_month (dt_year t) (dt_month t) /\
   0 <= dt_hour t <= 23 /\ 0 <= dt_minute t <= 59 /\
   0 <= dt_second t <= 59)%Z.

(** The text holds no newline. *)
Definition clean (s : string) : Prop :=
  ~ In newline (list_ascii_of_string s).

(** The text is one line: text without a newline, and a newline to end it. *)
Definition one_line (msg : string) : Prop :=
  exists body, msg = (body ++ nl)%string /\ clean body.

(** The number of newlines of a text. *)
Definition count_newlines (s : string) : nat :=
  length (filter (fun a => Ascii.eqb a newline) (list_ascii_of_string s)).

(** Text made of white space only, as [str.strip] sees it. *)
Definition blank (s : string) : Prop :=
  forallb is_space (list_ascii_of_string s) = true.

(** * Lemmas and theorems *)

Open Scope list_scope.

(** ** The matcher: equal continuations, mapped continuations *)

Lemma lit_match_ext {R} eqc p : forall s (k1 k2 : list ascii -> option R),
  (forall s', k1 s' = k2 s') -> lit_match eqc p s k1 = lit_match eqc p s k2.
Proof.
  induction p as [|c p IH]; intros s k1 k2 H; simpl; auto.
  destruct s as [|a s]; auto. destruct (eqc a c); auto.
Qed.

Lemma star_match_ext {R} c : forall s (k1 k2 : list ascii -> option R),
  (forall s', k1 s' = k2 s') -> star_match c s k1 = star_match c s k2.
Proof.
  induction s as [|a s IH]; intros k1 k2 H; simpl; auto.
  destruct (in_class c a); auto. rewrite (IH k1 k2 H), H. reflexivity.
Qed.

Lemma rep_match_ext {R} c n : forall s (k1 k2 : list ascii -> option R),
  (forall s', k1 s' = k2 s') -> rep_match n c s k1 = rep_match n c s k2.
Proof.
  induction n as [|n IH]; intros s k1 k2 H; simpl; auto.
  destruct s as [|a s]; auto. destruct (in_class c a); auto.
Qed.

Lemma rmatch_ext {R} r : forall s cs (k1 k2 : list ascii -> caps -> option R),
  (forall s' cs', k1 s' cs' = k2 s' cs') -> rmatch r s cs k1 = rmatch r s cs k2.
Proof.
  induction r as [ |c|p|p|r1 IHr1 r2 IHr2|r1 IHr1 r2 IHr2|c|c|n c|n r IHr| ];
    intros l cs k1 k2 H; simpl.
  - apply H.
  - destruct l as [|a l]; auto. destruct (in_class c a); auto.
  - apply lit_match_ext; auto.
  - apply lit_match_ext; auto.
  - apply IHr1. intros. apply IHr2. auto.
  - rewrite (IHr1 l cs k1 k2 H), (IHr2 l cs k1 k2 H). reflexivity.
  - apply star_match_ext; auto.
  - destruct l as [|a l]; auto. destruct (in_class c a); auto.
    apply star_match_ext; auto.
  - apply rep_match_ext; auto.
  - apply IHr. intros. apply H.
  - destruct l as [|a [|b l]]; auto. destruct (Ascii.eqb a newline); auto.
Qed.

Lemma lit_match_map {A B} (f : A -> B) eqc p : forall s (k : list ascii -> option A),
  lit_match eqc p s (fun s' => option_map f (k s')) = option_map f (lit_match eqc p s k).
Proof.
  induction p as [|c p IH]; intros s k; simpl; auto.
  destruct s as [|a s]; auto. destruct (eqc a c); auto.
Qed.

Lemma star_match_map {A B} (f : A -> B) c : forall s (k : list ascii -> option A),
  star_match c s (fun s' => option_map f (k s')) = option_map f (star_match c s k).
Proof.
  induction s as [|a s IH]; intros k; simpl; auto.
  destruct (in_class c a); auto. rewrite IH.
  destruct (star_match c s k); reflexivity.
Qed.

Lemma rep_match_map {A B} (f : A -> B) c n : forall s (k : list ascii -> option A),
  rep_match n c s (fun s' => option_map f (k s')) = option_map f (rep_match n c s k).
Proof.
  induction n as [|n IH]; intros s k; simpl; auto.
  destruct s as [|a s]; auto. destruct (in_class c a); auto.
Qed.

Lemma rmatch_map {A B} (f : A -> B) r : forall s cs (k : list ascii -> caps -> option A),
  rmatch r s cs (fun s' cs' => option_map f (k s' cs')) = option_map f (rmatch r s cs k).
Proof.
  induction r as [ |c|p|p|r1 IHr1 r2 IHr2|r1 IHr1 r2 IHr2|c|c|n c|n r IHr| ];
    intros l cs k; simpl.
  - reflexivity.
  - destruct l as [|a l]; auto. destruct (in_class c a); auto.
  - apply (lit_match_map f).
  - apply (lit_match_map f).
  - rewrite <- IHr1. apply rmatch_ext. intros. apply IHr2.
  - rewrite IHr1, IHr2. destruct (rmatch r1 l cs k); reflexivity.
  - apply (star_match_map f).
  - destruct l as [|a l]; auto. destruct (in_class c a); auto.
    apply (star_match_map f).
  - apply (rep_match_map f).
  - apply (IHr l cs (fun s' cs' => k s' (set_group n (firstn (length l - length s') l) cs'))).
  - destruct l as [|a [|b l]]; auto. destruct (Ascii.eqb a newline); auto.
Qed.

(** ** What a successful match tells *)

Lemma lit_match_inv {R} eqc p : forall s (k : list ascii -> option R) x,
  lit_match eqc p s k = Some x ->
  exists w s', s = w ++ s' /\ k s' = Some x /\
               Forall2 (fun a c => eqc a c = true) w (list_ascii_of_string p).
Proof.
  induction p as [|c p IH]; intros s k x H; simpl in H.
  - exists [], s. split; [reflexivity|]. split; [assumption|constructor].
  - destruct s as [|a s]; [discriminate|].
    destruct (eqc a c) eqn:E; [|discriminate].
    destruct (IH _ _ _ H) as (w & s' & -> & Hk & Hw).
    exists (a :: w), s'. split; [reflexivity|]. split; [assumption|].
    simpl. constructor; assumption.
Qed.

Lemma star_match_inv {R} c : forall s (k : list ascii -> option R) x,
  star_match c s k = Some x ->
  exists w s', s = w ++ s' /\ k s' = Some x /\
               Forall (fun a => in_class c a = true) w.
Proof.
  induction s as [|a s IH]; intros k x H; simpl in H.
  - exists [], []. auto.
  - destruct (in_class c a) eqn:E.
    + destruct (star_match c s k) eqn:E1.
      * injection H as ->. destruct (IH _ _ E1) as (w & s' & -> & Hk & Hw).
        exists (a :: w), s'. repeat split; auto.
      * exists [], (a :: s). auto.
    + exists [], (a :: s). auto.
Qed.

Lemma rep_match_inv {R} c n : forall s (k : list ascii -> option R) x,
  rep_match n c s k = Some x ->
  exists w s', s = w ++ s' /\ k s' = Some x /\
               Forall (fun a => in_class c a = true) w /\ length w = n.
Proof.
  induction n as [|n IH]; intros s k x H; simpl in H.
  - exists [], s. auto.
  - destruct s as [|a s]; [discriminate|].
    destruct (in_class c a) eqn:E; [|discriminate].
    destruct (IH _ _ _ H) as (w & s' & -> & Hk & Hw & Hl).
    exists (a :: w), s'. repeat split; simpl; auto.
Qed.

Lemma get_set_group_other n m v cs :
  n <> m -> get_group m (set_group n v cs) = get_group m cs.
Proof.
  intros H. simpl. destruct (Nat.eqb_spec n m); congruence.
Qed.

Lemma get_set_group_same n v cs : get_group n (set_group n v cs) = Some v.
Proof. simpl. rewrite Nat.eqb_refl. reflexivity. Qed.

Lemma get_set_group_mono n m v cs :
  get_group m cs <> None -> get_group m (set_group n v cs) <> None.
Proof.
  intros H. simpl. destruct (Nat.eqb n m); congruence.
Qed.

(** What a successful match tells: the input splits into the matched text and
    the rest handed to the continuation; groups outside the pattern keep
    their value, groups the pattern always passes are set. *)
Lemma rmatch_inv {R} r : forall s cs (k : list ascii -> caps -> option R) x,
  rmatch r s cs k = Some x ->
  exists w s' cs',
    s = w ++ s' /\ k s' cs' = Some x /\
    (forall n, ~ In n (groups r) -> get_group n cs' = get_group n cs) /\
    (forall n, In n (sure_groups r) -> get_group n cs' <> None) /\
    (forall n, get_group n cs <> None -> get_group n cs' <> None).
Proof.
  induction r as [ |c|p|p|r1 IHr1 r2 IHr2|r1 IHr1 r2 IHr2|c|c|n c|n r IHr| ];
    intros l cs k x H; simpl in H.
  - exists [], l, cs. simpl. repeat split; auto; contradiction.
  - destruct l as [|a l]; [discriminate|].
    destruct (in_class c a); [|discriminate].
    exists [a], l, cs. simpl. repeat split; auto; contradiction.
  - destruct (lit_match_inv _ _ _ _ _ H) as (w & s' & -> & Hk & _).
    exists w, s', cs. simpl. repeat split; auto; contradiction.
  - destruct (lit_match_inv _ _ _ _ _ H) as (w & s' & -> & Hk & _).
    exists w, s', cs. simpl. repeat split; auto; contradiction.
  - destruct (IHr1 _ _ _ _ H) as (w1 & s1 & cs1 & -> & H1 & F1 & S1 & M1).
    destruct (IHr2 _ _ _ _ H1) as (w2 & s2 & cs2 & -> & H2 & F2 & S2 & M2).
    exists (w1 ++ w2), s2, cs2. rewrite app_assoc. simpl.
    repeat split; auto.
    + intros n Hn. rewrite F2, F1; auto; intro; apply Hn; apply in_or_app; auto.
    + intros n Hn. apply in_app_or in Hn. destruct Hn; auto.
  - destruct (rmatch r1 l cs k) eqn:E.
    + injection H as ->.
      destruct (IHr1 _ _ _ _ E) as (w1 & s1 & cs1 & -> & H1 & F1 & S1 & M1).
      exists w1, s1, cs1. simpl. repeat split; auto; try contradiction.
      intros n Hn. apply F1. intro; apply Hn; apply in_or_app; auto.
    + destruct (IHr2 _ _ _ _ H) as (w1 & s1 & cs1 & -> & H1 & F1 & S1 & M1).
      exists w1, s1, cs1. simpl. repeat split; auto; try contradiction.
      intros n Hn. apply F1. intro; apply Hn; apply in_or_app; auto.
  - destruct (star_match_inv _ _ _ _ H) as (w & s' & -> & Hk & _).
    exists w, s', cs. simpl. repeat split; auto; contradiction.
  - destruct l as [|a l]; [discriminate|].
    destruct (in_class c a); [|discriminate].
    destruct (star_match_inv _ _ _ _ H) as (w & s' & -> & Hk & _).
    exists (a :: w), s', cs. simpl. repeat split; auto; contradiction.
  - destruct (rep_match_inv _ _ _ _ _ H) as (w & s' & -> & Hk & _).
    exists w, s', cs. simpl. repeat split; auto; contradiction.
  - destruct (IHr _ _ _ _ H) as (w1 & s1 & cs1 & -> & H1 & F1 & S1 & M1).
    eexists w1, s1, _. split; [reflexivity|]. split; [exact H1|].
    repeat split.
    + intros m Hm. cbn [groups In] in Hm.
      rewrite get_set_group_other by tauto. apply F1; tauto.
    + intros m Hm. cbn [sure_groups In] in Hm. destruct Hm as [->|Hm].
      * rewrite get_set_group_same. discriminate.
      * apply get_set_group_mono; auto.
    + intros m Hm. apply get_set_group_mono; auto.
  - exists [], l, cs. simpl.
    assert (k l cs = Some x).
    { destruct l as [|a [|b l]]; auto; [|discriminate].
      destruct (Ascii.eqb a newline); [auto|discriminate]. }
    repeat split; auto; contradiction.
Qed.

(** ** Patterns with one way to match *)

Lemma bf_eps {R} (k : list ascii -> caps -> option R) : bindform Eps k.
Proof. intros s cs. reflexivity. Qed.

Lemma bf_cls {R} c (k : list ascii -> caps -> option R) : bindform (Cls c) k.
Proof.
  intros s cs. simpl. destruct s as [|a s]; auto. destruct (in_class c a); auto.
Qed.

Lemma lit_match_bind {R} eqc p : forall s (k : list ascii -> option R),
  lit_match eqc p s k =
  match lit_match eqc p s (fun s' => Some s') with
  | Some s' => k s'
  | None => None
  end.
Proof.
  induction p as [|c p IH]; intros s k; simpl; auto.
  destruct s as [|a s]; auto. destruct (eqc a c); auto.
Qed.

Lemma rep_match_bind {R} c n : forall s (k : list ascii -> option R),
  rep_match n c s k =
  match rep_match n c s (fun s' => Some s') with
  | Some s' => k s'
  | None => None
  end.
Proof.
  induction n as [|n IH]; intros s k; simpl; auto.
  destruct s as [|a s]; auto. destruct (in_class c a); auto.
Qed.

Lemma bf_lit {R} p (k : list ascii -> caps -> option R) : bindform (Lit p) k.
Proof.
  intros s cs. simpl.
  rewrite (lit_match_bind _ _ _ (fun s' => k s' cs)).
  rewrite (lit_match_bind _ _ _ (fun s' => K0 s' cs)).
  destruct (lit_match _ p s _); reflexivity.
Qed.

Lemma bf_rep {R} n c (k : list ascii -> caps -> option R) : bindform (Rep n c) k.
Proof.
  intros s cs. simpl.
  rewrite (rep_match_bind _ _ _ (fun s' => k s' cs)).
  rewrite (rep_match_bind _ _ _ (fun s' => K0 s' cs)).
  destruct (rep_match n c s _); reflexivity.
Qed.

Lemma bf_eol {R} (k : list ascii -> caps -> option R) : bindform Eol k.
Proof.
  intros s cs. simpl. destruct s as [|a [|b s]]; auto.
  destruct (Ascii.eqb a newline); auto.
Qed.

(** A greedy repetition followed by code that rejects the characters of its
    class has one way to match only: the longest. *)
Lemma star_match_blocked {R} c (k : list ascii -> option R) :
  (forall a t, in_class c a = true -> k (a :: t) = None) ->
  forall s, star_match c s k = k (drop_while (in_class c) s).
Proof.
  intros Hk. induction s as [|a s IH]; simpl; auto.
  destruct (in_class c a) eqn:E; auto.
  rewrite IH. destruct (k (drop_while (in_class c) s)) eqn:E1;
    [reflexivity | apply Hk; exact E].
Qed.

Lemma star_match_greedy {R} c (k : list ascii -> option R) :
  (forall s, k s <> None) ->
  forall s, star_match c s k = k (drop_while (in_class c) s).
Proof.
  intros Hk. induction s as [|a s IH]; simpl; auto.
  destruct (in_class c a) eqn:E; auto.
  rewrite IH. destruct (k (drop_while (in_class c) s)) eqn:E1;
    [reflexivity | apply Hk in E1; contradiction].
Qed.

Lemma bf_plus {R} c (k : list ascii -> caps -> option R) :
  blocks c k -> bindform (Plus c) k.
Proof.
  intros Hk s cs. simpl. destruct s as [|a s]; auto.
  destruct (in_class c a); auto.
  rewrite star_match_blocked by (intros; apply Hk; auto).
  rewrite star_match_greedy by (intros; discriminate).
  reflexivity.
Qed.

Lemma bf_star {R} c (k : list ascii -> caps -> option R) :
  blocks c k -> bindform (Star c) k.
Proof.
  intros Hk s cs. simpl.
  rewrite star_match_blocked by (intros; apply Hk; auto).
  rewrite star_match_greedy by (intros; discriminate).
  reflexivity.
Qed.

Lemma bf_seq {R} r1 r2 (k : list ascii -> caps -> option R) :
  bindform r2 k ->
  bindform r1 (fun s' cs' => rmatch r2 s' cs' k) ->
  bindform r1 (fun s' cs' => rmatch r2 s' cs' K0) ->
  bindform (Seq r1 r2) k.
Proof.
  intros H2 H1 H1' s cs. simpl. rewrite H1, H1'.
  destruct (rmatch r1 s cs K0) as [[cs1 s1]|]; auto.
Qed.

Lemma bf_group {R} n r (k : list ascii -> caps -> option R) :
  (forall s, bindform r (fun s' cs' =>
      k s' (set_group n (firstn (length s - length s') s) cs'))) ->
  bindform (Group n r) k.
Proof.
  intros H s cs. simpl. rewrite (H s s cs).
  pose proof (rmatch_map
    (fun p : caps * list ascii =>
       (set_group n (firstn (length s - length (snd p)) s) (fst p), snd p))
    r s cs K0) as E.
  simpl in E. unfold K0 at 2. rewrite E.
  destruct (rmatch r s cs K0) as [[cs1 s1]|]; reflexivity.
Qed.

(** ** First characters a pattern rejects *)

Lemma rejects_seq c r1 r2 : rejects c r1 -> rejects c (Seq r1 r2).
Proof. intros H R k a t cs Ha. simpl. apply H. exact Ha. Qed.

Lemma rejects_group c n r : rejects c r -> rejects c (Group n r).
Proof. intros H R k a t cs Ha. simpl. apply H. exact Ha. Qed.

Lemma rejects_alt c r1 r2 : rejects c r1 -> rejects c r2 -> rejects c (Alt r1 r2).
Proof.
  intros H1 H2 R k a t cs Ha. simpl. rewrite H1 by exact Ha. apply H2. exact Ha.
Qed.

Lemma rejects_plus c c' : disjoint c c' -> rejects c (Plus c').
Proof. intros H R k a t cs Ha. simpl. rewrite (H a Ha). reflexivity. Qed.

Lemma rejects_cls c c' : disjoint c c' -> rejects c (Cls c').
Proof. intros H R k a t cs Ha. simpl. rewrite (H a Ha). reflexivity. Qed.

Lemma rejects_rep c c' n : disjoint c c' -> rejects c (Rep (S n) c').
Proof. intros H R k a t cs Ha. simpl. rewrite (H a Ha). reflexivity. Qed.

Lemma rejects_lit c b p : disjoint c (Chr b) -> rejects c (Lit (String b p)).
Proof.
  intros H R k a t cs Ha. pose proof (H a Ha) as E. simpl in E.
  simpl. rewrite E. reflexivity.
Qed.

Lemma disjoint_nonspace_space : disjoint NonSpace Space.
Proof. intros a. simpl. destruct (is_space a); auto. Qed.

Lemma disjoint_space_nonspace : disjoint Space NonSpace.
Proof. intros a. simpl. destruct (is_space a); auto. Qed.

Lemma space_not_digit a : is_space a = true -> is_digit a = false.
Proof.
  destruct a as [[] [] [] [] [] [] [] []]; vm_compute; intros; congruence.
Qed.

Lemma disjoint_space_digit : disjoint Space Digit.
Proof. intros a. simpl. apply space_not_digit. Qed.

Lemma disjoint_digit_space : disjoint Digit Space.
Proof.
  intros a. simpl. intros H. destruct (is_space a) eqn:E; auto.
  apply space_not_digit in E. congruence.
Qed.

Lemma disjoint_chr c b : in_class c b = false -> disjoint c (Chr b).
Proof.
  intros H a Ha. simpl. destruct (Ascii.eqb_spec a b); auto. subst. congruence.
Qed.

Lemma blocks_rmatch {R} c r (k : list ascii -> caps -> option R) :
  rejects c r -> blocks c (fun s' cs' => rmatch r s' cs' k).
Proof. intros H a t cs Ha. apply H. exact Ha. Qed.

Lemma blocks_group {R} c r (k : list ascii -> caps -> option R)
      (f : list ascii -> caps -> caps) :
  rejects c r -> blocks c (fun s' cs' => rmatch r s' (f s' cs') k).
Proof. intros H a t cs Ha. apply H. exact Ha. Qed.

Ltac rej :=
  lazymatch goal with
  | |- rejects _ (Seq _ _) => apply rejects_seq; rej
  | |- rejects _ (Group _ _) => apply rejects_group; rej
  | |- rejects _ (Alt _ _) => apply rejects_alt; rej
  | |- rejects _ (Plus _) => apply rejects_plus; rej
  | |- rejects _ (Cls _) => apply rejects_cls; rej
  | |- rejects _ (Rep (S _) _) => apply rejects_rep; rej
  | |- rejects _ (Lit (String _ _)) => apply rejects_lit; rej
  | |- disjoint NonSpace Space => exact disjoint_nonspace_space
  | |- disjoint Space NonSpace => exact disjoint_space_nonspace
  | |- disjoint Space Digit => exact disjoint_space_digit
  | |- disjoint Digit Space => exact disjoint_digit_space
  | |- disjoint _ (Chr _) => apply disjoint_chr; reflexivity
  | |- _ => assumption
  end.

Ltac blk :=
  lazymatch goal with
  | |- blocks _ (fun s' cs' => rmatch _ s' cs' _) => apply blocks_rmatch; rej
  | |- blocks _ (fun s' cs' => rmatch _ s' _ _) =>
      apply (blocks_group _ _ _ (fun s' cs' => _)); rej
  end.

Ltac bf :=
  lazymatch goal with
  | |- bindform (Seq _ _) _ => apply bf_seq; bf
  | |- bindform (Group _ _) _ => apply bf_group; intro; bf
  | |- bindform (Plus _) _ => apply bf_plus; blk
  | |- bindform (Star _) _ => apply bf_star; blk
  | |- bindform (Lit _) _ => apply bf_lit
  | |- bindform (Rep _ _) _ => apply bf_rep
  | |- bindform (Cls _) _ => apply bf_cls
  | |- bindform Eol _ => apply bf_eol
  | |- bindform Eps _ => apply bf_eps
  end.

Lemma ts_prefix_bind {R} tail (k : list ascii -> caps -> option R) :
  rejects Space tail ->
  bindform ts_prefix (fun s' cs' => rmatch tail s' cs' k).
Proof.
  intros Ht. unfold ts_prefix. bf.
Qed.

(** ** The prefix the five patterns share *)

Lemma re_match_split tail line :
  rejects Space tail ->
  re_match (ts_prefix ++ tail)%re line =
  match scan_prefix line with
  | Some (cs, l') => rmatch tail l' cs k_match
  | None => None
  end.
Proof.
  intros H. unfold re_match, scan_prefix.
  exact (ts_prefix_bind tail k_match H (list_ascii_of_string line) []).
Qed.

Lemma tails_reject_space tail : In tail tails -> rejects Space tail.
Proof.
  intros H. simpl in H.
  repeat (destruct H as [<-|H]; [
    unfold command_tail, user_tail, sudo_command_tail, sudo_failure_tail,
      hydra_attack_tail, sudo_line; rej | ]).
  contradiction.
Qed.

Lemma tails_groups tail n :
  In tail tails -> In n (groups tail) -> 4 <= n.
Proof.
  intros H. simpl in H.
  repeat (destruct H as [<-|H]; [
    simpl; intros Hn; repeat (destruct Hn as [<-|Hn]; [lia|]); contradiction | ]).
  contradiction.
Qed.

Lemma pattern_tail p :
  In p patterns -> exists tail, In tail tails /\ p = (ts_prefix ++ tail)%re.
Proof.
  intros H. simpl in H.
  destruct H as [<-|[<-|[<-|[<-|[<-|[]]]]]]; eexists; (split; [|reflexivity]);
    simpl; auto 10.
Qed.

(** The groups 1 to 3 of a match of any of the five patterns are the ones the
    shared prefix captures: they depend on the line only. *)
Lemma pattern_prefix_groups p line m :
  In p patterns -> re_match p line = Some m ->
  exists cs l', scan_prefix line = Some (cs, l') /\
    forall n, n < 4 -> get_group n (m_groups m) = get_group n cs.
Proof.
  intros Hp Hm. destruct (pattern_tail p Hp) as (tail & Ht & ->).
  rewrite (re_match_split _ _ (tails_reject_space _ Ht)) in Hm.
  destruct (scan_prefix line) as [[cs l']|]; [|discriminate].
  exists cs, l'. split; [reflexivity|].
  destruct (rmatch_inv _ _ _ _ _ Hm) as (w & s' & cs' & _ & Hk & F & _).
  injection Hk as <-. simpl. intros n Hn. apply F.
  intros Hin. apply (tails_groups _ _ Ht) in Hin. lia.
Qed.

Lemma same_timestamp_str self p q line m m' :
  In p patterns -> In q patterns ->
  re_match p line = Some m -> re_match q line = Some m' ->
  timestamp_str self m = timestamp_str self m'.
Proof.
  intros Hp Hq Hm Hm'.
  destruct (pattern_prefix_groups _ _ _ Hp Hm) as (cs & l' & E & G).
  destruct (pattern_prefix_groups _ _ _ Hq Hm') as (cs' & l'' & E' & G').
  rewrite E in E'. injection E' as <- <-.
  unfold timestamp_str, group.
  rewrite !G, !G' by lia. reflexivity.
Qed.

(** ** The user pattern against the three patterns below it *)

Lemma user_tail_on_sudo {R} rest t cs (k : list ascii -> caps -> option R) :
  rmatch (Group 4 event_names ++ Lit "[" ++ rest)%re
         ("s" :: "u" :: "d" :: "o" :: "[" :: t)%char cs k =
  rmatch rest t (set_group 4 ["s"; "u"; "d"; "o"]%char cs) k.
Proof.
  cbn -[Nat.sub firstn].
  replace (S (S (S (S (S (length t))))) - S (length t)) with 4 by lia.
  reflexivity.
Qed.

Lemma user_tail_on_sshd {R} rest t cs (k : list ascii -> caps -> option R) :
  rmatch (Group 4 event_names ++ Lit "[" ++ rest)%re
         ("s" :: "s" :: "h" :: "d" :: "[" :: t)%char cs k = None.
Proof. reflexivity. Qed.

Lemma Forall2_eqb_eq (w l : list ascii) :
  Forall2 (fun a c => Ascii.eqb a c = true) w l -> w = l.
Proof.
  induction 1 as [|a c w l E _ IH]; [reflexivity|].
  apply Ascii.eqb_eq in E. subst. reflexivity.
Qed.

Lemma lit_match_eqb_inv {R} p s (k : list ascii -> option R) x :
  lit_match Ascii.eqb p s k = Some x ->
  exists s', s = list_ascii_of_string p ++ s' /\ k s' = Some x.
Proof.
  intros H. destruct (lit_match_inv _ _ _ _ _ H) as (w & s' & -> & Hk & Hw).
  exists s'. split; [|exact Hk]. f_equal. apply Forall2_eqb_eq. exact Hw.
Qed.

Lemma lit_head_inv {R} p rest s cs (k : list ascii -> caps -> option R) x :
  rmatch (Lit p ++ rest)%re s cs k = Some x ->
  exists s', s = list_ascii_of_string p ++ s'.
Proof.
  simpl. intros H. apply lit_match_eqb_inv in H.
  destruct H as (s' & -> & _). eauto.
Qed.

Lemma user_tail_shape :
  user_tail = (Group 4 event_names ++ Lit "[" ++ user_details)%re.
Proof. reflexivity. Qed.

(** After the shared prefix, a line whose text goes on with [sudo[] is one
    whose event, if the user pattern matches it, is [sudo]. *)
Lemma user_tail_sudo_event t cs m :
  rmatch user_tail ("s" :: "u" :: "d" :: "o" :: "[" :: t)%char cs k_match = Some m ->
  get_group 4 (m_groups m) = Some ["s"; "u"; "d"; "o"]%char.
Proof.
  rewrite user_tail_shape, user_tail_on_sudo. intros H.
  destruct (rmatch_inv _ _ _ _ _ H) as (w & s' & cs' & _ & Hk & F & _).
  injection Hk as <-. simpl m_groups. rewrite F.
  - apply get_set_group_same.
  - simpl. intuition congruence.
Qed.

Lemma user_block_fallthrough self m self' :
  user_block self m = Ok (Fallthrough self') ->
  exists event, group m 4 = Ok event /\ String.eqb event "sudo" = false /\
                self' = bump user_changes self.
Proof.
  unfold user_block, with_timestamp. intros H.
  destruct (timestamp_str self m) as [ts|]; [|discriminate]. simpl in H.
  destruct (strptime ts) as [t|[]]; try discriminate.
  destruct (group m 4) as [event|]; [|discriminate]. simpl in H.
  destruct (group m 6) as [details|]; [|discriminate]. simpl in H.
  exists event. split; [reflexivity|].
  destruct (String.eqb event "useradd"); [discriminate|].
  destruct (String.eqb event "userdel"); [discriminate|].
  destruct (String.eqb event "passwd"); [discriminate|].
  destruct (String.eqb event "sudo"); [discriminate|].
  injection H as <-. auto.
Qed.

(** A line the user pattern matches with an event the chain does not take
    is matched by none of the three patterns below it. *)
Lemma user_fallthrough_exclusive self line m self' :
  re_match user_regex line = Some m ->
  user_block self m = Ok (Fallthrough self') ->
  re_match sudo_command_regex line = None /\
  re_match sudo_failure_regex line = None /\
  re_match hydra_attack_regex line = None.
Proof.
  intros Hm Hf.
  destruct (user_block_fallthrough _ _ _ Hf) as (event & Hev & Hne & _).
  unfold user_regex, sudo_command_regex, sudo_failure_regex,
    hydra_attack_regex in *.
  rewrite (re_match_split user_tail) in Hm
    by (apply tails_reject_space; simpl; auto 10).
  rewrite (re_match_split sudo_command_tail),
    (re_match_split sudo_failure_tail), (re_match_split hydra_attack_tail)
    by (apply tails_reject_space; simpl; auto 10).
  destruct (scan_prefix line) as [[cs l']|]; [|auto].
  assert (Hsudo : forall t, l' = ("s" :: "u" :: "d" :: "o" :: "[" :: t)%char -> False).
  { intros t ->. apply user_tail_sudo_event in Hm.
    unfold group in Hev. rewrite Hm in Hev. injection Hev as <-.
    discriminate. }
  repeat split.
  - destruct (rmatch sudo_command_tail l' cs k_match) eqn:E; [|reflexivity].
    apply lit_head_inv in E. destruct E as (t & ->). destruct (Hsudo t eq_refl).
  - destruct (rmatch sudo_failure_tail l' cs k_match) eqn:E; [|reflexivity].
    apply lit_head_inv in E. destruct E as (t & ->). destruct (Hsudo t eq_refl).
  - destruct (rmatch hydra_attack_tail l' cs k_match) eqn:E; [|reflexivity].
    apply lit_head_inv in E. destruct E as (t & ->).
    cbn [list_ascii_of_string app] in Hm.
    rewrite user_tail_shape, user_tail_on_sshd in Hm. discriminate.
Qed.

(** ** What the library calls raise *)

Lemma re_match_sure r line m n :
  re_match r line = Some m -> In n (sure_groups r) ->
  exists v, group m n = Ok v.
Proof.
  intros H Hn. destruct (rmatch_inv _ _ _ _ _ H) as (w & s' & cs' & _ & Hk & _ & S & _).
  injection Hk as <-. unfold group. simpl.
  specialize (S n Hn). destruct (get_group n cs'); [eauto|contradiction].
Qed.

Lemma py_int_error s e : py_int s = Raise e -> e = ValueError.
Proof.
  unfold py_int. destruct (strip_chars _); [congruence|].
  destruct (forallb _ _); congruence.
Qed.

Lemma index_of_error x l : forall i e, index_of x l i = Raise e -> e = ValueError.
Proof.
  induction l as [|y l IH]; simpl; intros i e H; [congruence|].
  destruct (String.eqb x y); [discriminate|eauto].
Qed.

Lemma make_datetime_error y mo d h mi s e :
  make_datetime y mo d h mi s = Raise e -> e = ValueError.
Proof. unfold make_datetime. destruct (_ && _); congruence. Qed.

Ltac sure_group H n :=
  let v := fresh "v" in let E := fresh "E" in
  destruct (re_match_sure _ _ _ n H) as (v & E);
  [vm_compute; tauto | rewrite E; cbn [rbind]; clear E].

(** [strptime] raises nothing but [ValueError]. *)
Lemma strptime_error text e : strptime text = Raise e -> e = ValueError.
Proof.
  unfold strptime. destruct (re_match strptime_regex text) as [found|] eqn:H;
    [|congruence].
  destruct (m_rest found); [|congruence].
  sure_group H 1. sure_group H 2. sure_group H 3.
  sure_group H 4. sure_group H 5. sure_group H 6.
  destruct (py_int v) eqn:E1; cbn [rbind]; [|intros [= <-]; eauto using py_int_error].
  destruct (index_of _ _ _) eqn:E2; cbn [rbind];
    [|intros [= <-]; eauto using index_of_error].
  destruct (py_int v1) eqn:E3; cbn [rbind]; [|intros [= <-]; eauto using py_int_error].
  destruct (py_int v2) eqn:E4; cbn [rbind]; [|intros [= <-]; eauto using py_int_error].
  destruct (py_int v3) eqn:E5; cbn [rbind]; [|intros [= <-]; eauto using py_int_error].
  destruct (py_int v4) eqn:E6; cbn [rbind]; [|intros [= <-]; eauto using py_int_error].
  apply make_datetime_error.
Qed.

Lemma split_on_length sep s : 1 <= length (split_on sep s).
Proof.
  induction s as [|a s IH]; simpl; [lia|].
  destruct (Ascii.eqb a sep); simpl; [lia|].
  destruct (split_on sep s); simpl in *; lia.
Qed.

Lemma sanitize_ip_total ip : exists s, sanitize_ip ip = Ok s.
Proof.
  unfold sanitize_ip. destruct (Nat.eqb_spec (length (split "." ip)) 4) as [E|E];
    [|eauto].
  destruct (split "." ip) as [|p0 [|p1 l]]; try discriminate. simpl. eauto.
Qed.

(** With the groups 1 to 3 set, the shared opening of a block either hands a
    timestamp to the body or returns [None] with the analyzer untouched; which
    of the two depends on the year and the match only. *)
Lemma with_timestamp_cases year m :
  (forall n, In n [1; 2; 3] -> exists v, group m n = Ok v) ->
  exists ts,
    (forall self, current_year self = year -> timestamp_str self m = Ok ts) /\
    ((exists t, strptime ts = Ok t /\
        forall self body, current_year self = year ->
                          with_timestamp self m body = body t) \/
     (strptime ts = Raise ValueError /\
        forall self body, current_year self = year ->
                          with_timestamp self m body = Ok (Return None self))).
Proof.
  intros G.
  destruct (G 1) as (g1 & E1); [simpl; auto|].
  destruct (G 2) as (g2 & E2); [simpl; auto|].
  destruct (G 3) as (g3 & E3); [simpl; auto|].
  exists (str_of_Z year ++ " " ++ g1 ++ " " ++ g2 ++ " " ++ g3)%string.
  assert (T : forall self, current_year self = year ->
    timestamp_str self m =
    Ok (str_of_Z year ++ " " ++ g1 ++ " " ++ g2 ++ " " ++ g3)%string).
  { intros self <-. unfold timestamp_str. rewrite E1, E2, E3. reflexivity. }
  split; [exact T|].
  destruct (strptime _) as [t|e] eqn:E.
  - left. exists t. split; [reflexivity|]. intros self body Hy.
    unfold with_timestamp. rewrite (T self Hy). cbn [rbind]. rewrite E.
    reflexivity.
  - right. apply strptime_error in E as E'. subst. split; [reflexivity|].
    intros self body Hy.
    unfold with_timestamp. rewrite (T self Hy). cbn [rbind]. rewrite E.
    reflexivity.
Qed.

(** ** The blocks of parse_line *)

Ltac groups_123 H :=
  let n := fresh "n" in let Hn := fresh "Hn" in
  intros n Hn; apply (re_match_sure _ _ _ n H);
  simpl in Hn; vm_compute; tauto.

Ltac open_block H W :=
  match goal with
  | |- block_does _ ?year ?m _ _ =>
      let ts := fresh "ts" in let t := fresh "t" in
      destruct (with_timestamp_cases year m) as
        (ts & _ & [(t & _ & W) | (_ & W)]);
      [groups_123 H | |
       exists (ShReturn None []); split; [reflexivity|];
       intros self Hy; apply (W self _ Hy)]
  end.

Ltac shape sh W :=
  exists sh; split; [simpl; auto 10 |];
  let self := fresh "self" in let Hy := fresh "Hy" in
  intros self Hy; cbv delta [command_block user_block sudo_command_block
    sudo_failure_block hydra_block] beta; rewrite (W self _ Hy).

Lemma command_block_does year line m :
  re_match command_regex line = Some m ->
  block_does command_block year m [[commands]] None.
Proof.
  intros H. open_block H W.
  destruct (re_match_sure _ _ _ 5 H) as (user & E5); [vm_compute; tauto|].
  destruct (re_match_sure _ _ _ 6 H) as (command & E6); [vm_compute; tauto|].
  shape (ShReturn (Some (t,
     "Command Log - Timestamp: " ++ dt_str t ++ ", User: " ++ user
     ++ ", Command: " ++ command ++ nl)%string) [commands]) W.
  rewrite E5, E6. reflexivity.
Qed.

Lemma user_block_does year line m :
  re_match user_regex line = Some m ->
  block_does user_block year m
             [[user_changes]; [sudo_commands; user_changes]]
             (Some [user_changes]).
Proof.
  intros H. open_block H W.
  destruct (re_match_sure _ _ _ 4 H) as (event & E4); [vm_compute; tauto|].
  destruct (re_match_sure _ _ _ 6 H) as (details & E6); [vm_compute; tauto|].
  destruct (String.eqb event "useradd") eqn:A1;
    [|destruct (String.eqb event "userdel") eqn:A2;
      [|destruct (String.eqb event "passwd") eqn:A3;
        [|destruct (String.eqb event "sudo") eqn:A4]]].
  - shape (ShReturn (Some (t,
       "User Add - Timestamp: " ++ dt_str t ++ ", New user added: "
       ++ details ++ nl)%string) [user_changes]) W.
    rewrite E4, E6. cbn [rbind]. rewrite A1. reflexivity.
  - shape (ShReturn (Some (t,
       "User Delete - Timestamp: " ++ dt_str t ++ ", User removed: "
       ++ details ++ nl)%string) [user_changes]) W.
    rewrite E4, E6. cbn [rbind]. rewrite A1, A2. reflexivity.
  - shape (ShReturn (Some (t,
       "Password Change - Timestamp: " ++ dt_str t ++ ", Password changed: "
       ++ details ++ nl)%string) [user_changes]) W.
    rewrite E4, E6. cbn [rbind]. rewrite A1, A2, A3. reflexivity.
  - shape (ShReturn (Some (t,
       "ALERT!!!! sudo Command - Timestamp: " ++ dt_str t
       ++ ", User used sudo command: " ++ details ++ nl)%string)
       [sudo_commands; user_changes]) W.
    rewrite E4, E6. cbn [rbind]. rewrite A1, A2, A3, A4. reflexivity.
  - shape (ShFall [user_changes]) W.
    rewrite E4, E6. cbn [rbind]. rewrite A1, A2, A3, A4. reflexivity.
Qed.

Lemma sudo_command_block_does year line m :
  re_match sudo_command_regex line = Some m ->
  block_does sudo_command_block year m [[sudo_commands]] None.
Proof.
  intros H. open_block H W.
  destruct (re_match_sure _ _ _ 5 H) as (user & E5); [vm_compute; tauto|].
  destruct (re_match_sure _ _ _ 6 H) as (command & E6); [vm_compute; tauto|].
  shape (ShReturn (Some (t,
     "sudo Command - Timestamp: " ++ dt_str t ++ ", User: " ++ user
     ++ ", Command: " ++ command ++ nl)%string) [sudo_commands]) W.
  rewrite E5, E6. reflexivity.
Qed.

Lemma sudo_failure_block_does year line m :
  re_match sudo_failure_regex line = Some m ->
  block_does sudo_failure_block year m [[potential_attacks; failed_sudo]] None.
Proof.
  intros H. open_block H W.
  destruct (re_match_sure _ _ _ 5 H) as (user & E5); [vm_compute; tauto|].
  shape (ShReturn (Some (t,
     "ALERT! Failed sudo - Timestamp: " ++ dt_str t ++ ", User: " ++ user
     ++ ", Command: sudo command failed" ++ nl)%string)
     [potential_attacks; failed_sudo]) W.
  rewrite E5. reflexivity.
Qed.

Lemma hydra_block_does year line m :
  re_match hydra_attack_regex line = Some m ->
  block_does hydra_block year m
             [[potential_attacks; failed_logins]; [successful_logins]]
             (Some []).
Proof.
  intros H. open_block H W.
  destruct (re_match_sure _ _ _ 5 H) as (status & E5); [vm_compute; tauto|].
  destruct (re_match_sure _ _ _ 6 H) as (target_user & E6); [vm_compute; tauto|].
  destruct (re_match_sure _ _ _ 7 H) as (ip_address & E7); [vm_compute; tauto|].
  destruct (re_match_sure _ _ _ 8 H) as (port & E8); [vm_compute; tauto|].
  destruct (sanitize_ip_total ip_address) as (ip & Eip).
  destruct (String.eqb status "Failed") eqn:A1;
    [|destruct (String.eqb status "Accepted") eqn:A2].
  - shape (ShReturn (Some (t,
       "Hydra Attack - Failed login attempt - Timestamp: " ++ dt_str t
       ++ ", User: " ++ target_user ++ ", IP: " ++ ip ++ ", Port: " ++ port
       ++ nl)%string) [potential_attacks; failed_logins]) W.
    rewrite E5, E6, E7, E8. cbn [rbind]. rewrite A1, Eip. reflexivity.
  - shape (ShReturn (Some (t,
       "Hydra Attack - Successful login - Timestamp: " ++ dt_str t
       ++ ", User: " ++ target_user ++ ", IP: " ++ ip ++ ", Port: " ++ port
       ++ nl)%string) [successful_logins]) W.
    rewrite E5, E6, E7, E8. cbn [rbind]. rewrite A1, A2, Eip. reflexivity.
  - shape (ShFall []) W.
    rewrite E5, E6, E7, E8. cbn [rbind]. rewrite A1, A2. reflexivity.
Qed.

(** [parse_line] agrees with the dispatcher that lets the first pattern
    that matches decide alone. *)
Lemma parse_line_first_match self line :
  parse_line self line = first_match_wins registry self line.
Proof.
  unfold parse_line, try_pattern. cbn [first_match_wins registry].
  destruct (re_match command_regex line) as [m1|] eqn:E1.
  { destruct (command_block_does (current_year self) line m1 E1)
      as (sh & Hsh & Hb).
    rewrite (Hb self eq_refl). cbn [rbind].
    destruct sh as [r keys|keys]; [reflexivity | discriminate Hsh]. }
  destruct (re_match user_regex line) as [m2|] eqn:E2.
  { destruct (user_block_does (current_year self) line m2 E2)
      as (sh & Hsh & Hb).
    pose proof (Hb self eq_refl) as Ef. rewrite Ef. cbn [rbind].
    destruct sh as [r keys|keys]; [reflexivity|]. cbn [apply_shape] in *.
    destruct (user_fallthrough_exclusive _ _ _ _ E2 Ef) as (-> & -> & ->).
    reflexivity. }
  destruct (re_match sudo_command_regex line) as [m3|] eqn:E3.
  { destruct (sudo_command_block_does (current_year self) line m3 E3)
      as (sh & Hsh & Hb).
    rewrite (Hb self eq_refl). cbn [rbind].
    destruct sh as [r keys|keys]; [reflexivity | discriminate Hsh]. }
  destruct (re_match sudo_failure_regex line) as [m4|] eqn:E4.
  { destruct (sudo_failure_block_does (current_year self) line m4 E4)
      as (sh & Hsh & Hb).
    rewrite (Hb self eq_refl). cbn [rbind].
    destruct sh as [r keys|keys]; [reflexivity | discriminate Hsh]. }
  destruct (re_match hydra_attack_regex line) as [m5|] eqn:E5; reflexivity.
Qed.

(** The entry a line gives and the counters it increments depend on the year
    and the line only, and the increments are of one of the listed kinds. *)
Lemma parse_line_does year line :
  exists r keys, outcome_allowed r keys /\
    forall self, current_year self = year ->
                 parse_line self line = Ok (r, bump_all keys self).
Proof.
  assert (X : forall block m allowed through,
    block_does block year m allowed through ->
    incl allowed event_deltas ->
    (forall keys, through = Some keys -> keys = [] \/ keys = [user_changes]) ->
    exists r keys, outcome_allowed r keys /\
      forall self, current_year self = year ->
        (f <- block self m ;;
         match f with
         | Return r0 self' => Ok (r0, self')
         | Fallthrough self' => Ok (None, self')
         end) = Ok (r, bump_all keys self)).
  { intros block m allowed through (sh & Hsh & Hb) Hincl Hthr.
    destruct sh as [[e|] keys|keys]; simpl in Hsh.
    - exists (Some e), keys. split; [apply Hincl, Hsh|].
      intros self Hy. rewrite (Hb self Hy). reflexivity.
    - exists None, keys. split; [left; exact Hsh|].
      intros self Hy. rewrite (Hb self Hy). reflexivity.
    - exists None, keys. split; [apply Hthr, Hsh|].
      intros self Hy. rewrite (Hb self Hy). reflexivity. }
  enough (exists r keys, outcome_allowed r keys /\
    forall self, current_year self = year ->
                 first_match_wins registry self line = Ok (r, bump_all keys self))
    as (r & keys & Ha & Hf).
  { exists r, keys. split; [exact Ha|]. intros self Hy.
    rewrite parse_line_first_match. auto. }
  cbn [first_match_wins registry].
  destruct (re_match command_regex line) as [m1|] eqn:E1.
  { apply (X _ _ _ _ (command_block_does year line m1 E1)).
    - intros k [<-|[]]; simpl; auto 10.
    - discriminate. }
  destruct (re_match user_regex line) as [m2|] eqn:E2.
  { apply (X _ _ _ _ (user_block_does year line m2 E2)).
    - intros k [<-|[<-|[]]]; simpl; auto 10.
    - intros keys [= <-]. auto. }
  destruct (re_match sudo_command_regex line) as [m3|] eqn:E3.
  { apply (X _ _ _ _ (sudo_command_block_does year line m3 E3)).
    - intros k [<-|[]]; simpl; auto 10.
    - discriminate. }
  destruct (re_match sudo_failure_regex line) as [m4|] eqn:E4.
  { apply (X _ _ _ _ (sudo_failure_block_does year line m4 E4)).
    - intros k [<-|[]]; simpl; auto 10.
    - discriminate. }
  destruct (re_match hydra_attack_regex line) as [m5|] eqn:E5.
  { apply (X _ _ _ _ (hydra_block_does year line m5 E5)).
    - intros k [<-|[<-|[]]]; simpl; auto 10.
    - intros keys [= <-]. auto. }
  exists None, []. split; [left; reflexivity|]. reflexivity.
Qed.

(** ** The counters and the reading loop *)

Lemma stat_incr key c st :
  stat (incr key st) c = stat st c + (if counter_eqb key c then 1 else 0).
Proof. destruct st, key, c; simpl; lia. Qed.

Lemma current_year_bump_all keys self :
  current_year (bump_all keys self) = current_year self.
Proof. induction keys; simpl; auto. Qed.

Lemma log_entries_bump_all keys self :
  log_entries (bump_all keys self) = log_entries self.
Proof. induction keys; simpl; auto. Qed.

Lemma stat_bump_all keys self c :
  stat (statistics (bump_all keys self)) c =
  stat (statistics self) c
  + length (filter (fun k => counter_eqb k c) keys).
Proof.
  induction keys as [|k keys IH]; simpl; [lia|].
  rewrite stat_incr, IH. destruct (counter_eqb k c); simpl; lia.
Qed.

Lemma outcome_allowed_total r keys :
  outcome_allowed r keys -> ~ In total_entries keys.
Proof.
  destruct r; simpl; intros H Hin.
  - repeat (destruct H as [<-|H];
            [simpl in Hin; intuition discriminate|]). contradiction.
  - destruct H as [-> | ->]; simpl in Hin; intuition discriminate.
Qed.

(** One turn of the reading loop. *)
Lemma process_line_does self line :
  exists keys, ~ In total_entries keys /\
    process_line self line =
    Ok (match line_event (current_year self) line with
        | Some e => bump total_entries (append_entry e (bump_all keys self))
        | None => bump_all keys self
        end).
Proof.
  destruct (parse_line_does (current_year self) (strip line))
    as (r & keys & Ha & Hp).
  exists keys. split; [eapply outcome_allowed_total; eauto|].
  unfold process_line, line_event.
  rewrite (Hp self eq_refl), (Hp (MkAnalyzer _ [] zero_stats) eq_refl).
  cbn [rbind fst snd]. destruct r; reflexivity.
Qed.

Lemma filter_produces_length year lines :
  length (filter (produces_event year) lines) = length (events_of year lines).
Proof.
  induction lines as [|l lines IH]; simpl; [reflexivity|].
  unfold produces_event. destruct (line_event year l); simpl; auto.
Qed.

(** The reading loop never raises; it collects the entries of the lines in
    the order of the file and counts them in [total_entries]. *)
Lemma read_lines_does lines : forall self,
  exists final,
    read_lines self lines = Ok final /\
    current_year final = current_year self /\
    log_entries final = log_entries self ++ events_of (current_year self) lines /\
    stat (statistics final) total_entries =
    stat (statistics self) total_entries
    + length (events_of (current_year self) lines).
Proof.
  induction lines as [|line lines IH]; intros self; simpl.
  - exists self. rewrite app_nil_r. repeat split; auto.
  - destruct (process_line_does self line) as (keys & Hk & ->). cbn [rbind].
    pose proof (stat_bump_all keys self total_entries) as Hs.
    replace (length (filter (fun k => counter_eqb k total_entries) keys))
      with 0 in Hs.
    2:{ clear - Hk. induction keys as [|k keys IH]; simpl; [reflexivity|].
        destruct k; simpl in *; try (apply IH; tauto). tauto. }
    destruct (line_event (current_year self) line) as [e|].
    + destruct (IH (bump total_entries (append_entry e (bump_all keys self))))
        as (final & -> & Hy & He & Ht).
      exists final.
      cbn [bump append_entry current_year log_entries statistics] in Hy, He, Ht.
      rewrite current_year_bump_all in *. rewrite log_entries_bump_all in He.
      rewrite stat_incr in Ht. cbn [counter_eqb] in Ht.
      repeat split; auto.
      * rewrite He, <- app_assoc. reflexivity.
      * cbn [length stat] in *. lia.
    + destruct (IH (bump_all keys self)) as (final & -> & Hy & He & Ht).
      exists final. rewrite current_year_bump_all in *.
      rewrite log_entries_bump_all in He.
      repeat split; auto. cbn [stat] in *. lia.
Qed.

(** ** The order of datetimes *)

Lemma lex_compare_refl xs : lex_compare xs xs = Eq.
Proof. induction xs; simpl; auto. rewrite Z.compare_refl. auto. Qed.

Lemma lex_compare_eq xs : forall ys, lex_compare xs ys = Eq -> xs = ys.
Proof.
  induction xs as [|x xs IH]; intros [|y ys]; simpl; try discriminate; auto.
  destruct (Z.compare_spec x y) as [Hxy|Hxy|Hxy]; try discriminate.
  intros E. subst. f_equal. auto.
Qed.

Lemma lex_compare_antisym xs : forall ys,
  lex_compare ys xs = CompOpp (lex_compare xs ys).
Proof.
  induction xs as [|x xs IH]; intros [|y ys]; simpl; auto.
  rewrite (Z.compare_antisym x y).
  destruct (x ?= y)%Z; simpl; auto.
Qed.

Lemma lex_compare_trans xs : forall ys zs,
  lex_compare xs ys = Lt -> lex_compare ys zs = Lt -> lex_compare xs zs = Lt.
Proof.
  induction xs as [|x xs IH]; intros [|y ys] [|z zs]; simpl;
    try discriminate; auto.
  destruct (Z.compare_spec x y) as [Hxy|Hxy|Hxy],
           (Z.compare_spec y z) as [Hyz|Hyz|Hyz]; try discriminate;
    intros H1 H2; subst.
  - rewrite Z.compare_refl. eauto.
  - apply Z.compare_lt_iff in Hyz. rewrite Hyz. reflexivity.
  - apply Z.compare_lt_iff in Hxy. rewrite Hxy. reflexivity.
  - assert (Hxz : (x < z)%Z) by lia. apply Z.compare_lt_iff in Hxz.
    rewrite Hxz. reflexivity.
Qed.

Lemma dt_eqb_eq a b : dt_eqb a b = true <-> a = b.
Proof.
  unfold dt_eqb, dt_compare. split.
  - destruct (lex_compare _ _) eqn:E; try discriminate. intros _.
    apply lex_compare_eq in E. destruct a, b. unfold dt_fields in E.
    simpl in E. congruence.
  - intros ->. rewrite lex_compare_refl. reflexivity.
Qed.

Lemma dt_ltb_irrefl a : dt_ltb a a = false.
Proof. unfold dt_ltb, dt_compare. rewrite lex_compare_refl. reflexivity. Qed.

Lemma dt_le_refl a : dt_le a a.
Proof. apply dt_ltb_irrefl. Qed.

Lemma dt_ltb_le a b : dt_ltb a b = true -> dt_le a b.
Proof.
  unfold dt_le, dt_ltb, dt_compare. rewrite (lex_compare_antisym (dt_fields a)).
  destruct (lex_compare _ _); simpl; congruence.
Qed.

Lemma dt_le_trans a b c : dt_le a b -> dt_le b c -> dt_le a c.
Proof.
  unfold dt_le, dt_ltb, dt_compare.
  destruct (lex_compare (dt_fields b) (dt_fields a)) eqn:E1;
    destruct (lex_compare (dt_fields c) (dt_fields b)) eqn:E2;
    try discriminate; intros _ _.
  - apply lex_compare_eq in E1. rewrite <- E1, E2. reflexivity.
  - apply lex_compare_eq in E1. rewrite <- E1, E2. reflexivity.
  - apply lex_compare_eq in E2. rewrite E2, E1. reflexivity.
  - rewrite lex_compare_antisym in E1, E2.
    assert (E1' : lex_compare (dt_fields a) (dt_fields b) = Lt)
      by (destruct (lex_compare (dt_fields a) (dt_fields b)); simpl in E1;
          congruence).
    assert (E2' : lex_compare (dt_fields b) (dt_fields c) = Lt)
      by (destruct (lex_compare (dt_fields b) (dt_fields c)); simpl in E2;
          congruence).
    rewrite lex_compare_antisym, (lex_compare_trans _ _ _ E1' E2').
    reflexivity.
Qed.

(** ** The sort *)

Lemma insert_entry_perm e l : Permutation (e :: l) (insert_entry e l).
Proof.
  induction l as [|x l IH]; simpl; auto.
  destruct (dt_ltb (fst x) (fst e)); auto.
  rewrite perm_swap. auto.
Qed.

Lemma sort_entries_perm l : Permutation l (sort_entries l).
Proof.
  induction l as [|e l IH]; simpl; auto.
  rewrite <- insert_entry_perm. auto.
Qed.

Lemma insert_entry_sorted e l :
  StronglySorted chronological l -> StronglySorted chronological (insert_entry e l).
Proof.
  induction 1 as [|x l Hs IH Hx]; simpl.
  - repeat constructor.
  - destruct (dt_ltb (fst x) (fst e)) eqn:E.
    + constructor; auto.
      apply (Permutation_Forall (insert_entry_perm e l)).
      constructor; auto. apply dt_ltb_le. exact E.
    + constructor; [constructor; auto|].
      constructor; [exact E|].
      eapply Forall_impl; [|exact Hx]. intros y Hy.
      unfold chronological in *. eapply dt_le_trans; [exact E | exact Hy].
Qed.

Lemma sort_entries_sorted l : StronglySorted chronological (sort_entries l).
Proof.
  induction l as [|e l IH]; simpl; [constructor|].
  apply insert_entry_sorted. exact IH.
Qed.

Lemma insert_entry_stable t e l :
  filter (has_timestamp t) (insert_entry e l) = filter (has_timestamp t) (e :: l).
Proof.
  induction l as [|x l IH]; [reflexivity|].
  cbn [insert_entry]. destruct (dt_ltb (fst x) (fst e)) eqn:E; [|reflexivity].
  cbn [filter] in *. rewrite IH.
  unfold has_timestamp.
  destruct (dt_eqb (fst x) t) eqn:Ex, (dt_eqb (fst e) t) eqn:Ee; try reflexivity.
  apply dt_eqb_eq in Ex, Ee. rewrite Ex, Ee, dt_ltb_irrefl in E. discriminate.
Qed.

Lemma sort_entries_stable t l :
  filter (has_timestamp t) (sort_entries l) = filter (has_timestamp t) l.
Proof.
  induction l as [|e l IH]; [reflexivity|].
  cbn [sort_entries fold_right]. fold (sort_entries l).
  rewrite insert_entry_stable. cbn [filter]. rewrite IH. reflexivity.
Qed.

(** ** split and sanitize_ip *)

Lemma list_ascii_of_string_app (a b : string) :
  list_ascii_of_string (a ++ b) = list_ascii_of_string a ++ list_ascii_of_string b.
Proof. induction a as [|c a IH]; simpl; [reflexivity|]. rewrite IH. reflexivity. Qed.

Lemma split_on_nonempty sep s : split_on sep s <> [].
Proof.
  destruct s as [|a s]; simpl; [discriminate|].
  destruct (Ascii.eqb a sep); [discriminate|].
  destruct (split_on sep s); discriminate.
Qed.

Lemma split_on_part sep p rest :
  ~ In sep p -> split_on sep (p ++ sep :: rest) = p :: split_on sep rest.
Proof.
  induction p as [|a p IH]; intros H; simpl.
  - rewrite Ascii.eqb_refl. reflexivity.
  - destruct (Ascii.eqb_spec a sep) as [->|_]; [destruct H; simpl; auto|].
    rewrite IH by (intro; apply H; simpl; auto). reflexivity.
Qed.

Lemma split_on_last sep p : ~ In sep p -> split_on sep p = [p].
Proof.
  induction p as [|a p IH]; intros H; simpl; [reflexivity|].
  destruct (Ascii.eqb_spec a sep) as [->|_]; [destruct H; simpl; auto|].
  rewrite IH by (intro; apply H; simpl; auto). reflexivity.
Qed.

Lemma split_on_free sep s : Forall (fun p => ~ In sep p) (split_on sep s).
Proof.
  induction s as [|a s IH]; simpl; [repeat constructor; auto|].
  destruct (Ascii.eqb_spec a sep) as [->|Hne]; [constructor; auto|].
  destruct (split_on sep s) as [|p ps]; [repeat constructor; simpl; tauto|].
  inversion IH as [|? ? Hp Hps]; subst. constructor; [|exact Hps].
  simpl. intros [E|E]; [congruence|contradiction].
Qed.

Lemma join_split_on sep s : join sep (split_on sep s) = s.
Proof.
  induction s as [|a s IH]; simpl; [reflexivity|].
  destruct (Ascii.eqb_spec a sep) as [->|Hne].
  - pose proof (split_on_nonempty sep s).
    destruct (split_on sep s) as [|p ps] eqn:E; [contradiction|].
    cbn [join]. cbn [join] in IH. rewrite IH. reflexivity.
  - pose proof (split_on_nonempty sep s).
    destruct (split_on sep s) as [|p ps] eqn:E; [contradiction|].
    destruct ps as [|q ps]; cbn [join] in *; rewrite <- IH; reflexivity.
Qed.

Lemma split_four ip p0 p1 p2 p3 :
  four_parts ip p0 p1 p2 p3 -> split "." ip = [p0; p1; p2; p3].
Proof.
  intros (H0 & H1 & H2 & H3 & ->). unfold split.
  rewrite !list_ascii_of_string_app. cbn [list_ascii_of_string app].
  rewrite !split_on_part, split_on_last by assumption.
  cbn [map]. rewrite !string_of_list_ascii_of_string. reflexivity.
Qed.

Lemma four_split ip p0 p1 p2 p3 :
  split "." ip = [p0; p1; p2; p3] -> four_parts ip p0 p1 p2 p3.
Proof.
  unfold split. intros H.
  pose proof (split_on_free "." (list_ascii_of_string ip)) as F.
  pose proof (join_split_on "." (list_ascii_of_string ip)) as J.
  destruct (split_on "." (list_ascii_of_string ip))
    as [|q0 [|q1 [|q2 [|q3 [|q4 l]]]]]; try discriminate.
  cbn [map] in H. injection H as <- <- <- <-.
  inversion F as [|? ? F0 F']; subst. inversion F' as [|? ? F1 F'']; subst.
  inversion F'' as [|? ? F2 F''']; subst. inversion F''' as [|? ? F3 _]; subst.
  unfold four_parts, dot_free.
  rewrite !list_ascii_of_string_of_list_ascii. repeat split; try assumption.
  rewrite <- (string_of_list_ascii_of_string ip), <- J. cbn [join].
  clear. 
  assert (A : forall x y, string_of_list_ascii (x ++ y)
                  = (string_of_list_ascii x ++ string_of_list_ascii y)%string).
  { induction x as [|c x IH]; intros y; simpl; [reflexivity|].
    rewrite IH. reflexivity. }
  rewrite A. cbn [string_of_list_ascii]. rewrite A.
  cbn [string_of_list_ascii]. rewrite A. reflexivity.
Qed.

Lemma sanitize_ip_idem ip : rbind (sanitize_ip ip) sanitize_ip = sanitize_ip ip.
Proof.
  unfold sanitize_ip at 1 3.
  destruct (Nat.eqb_spec (length (split "." ip)) 4) as [E|E]; [|reflexivity].
  destruct (split "." ip) as [|p0 [|p1 [|p2 [|p3 [|p4 l]]]]] eqn:S;
    try discriminate.
  cbn [item nth_error rbind].
  apply four_split in S. destruct S as (H0 & H1 & _).
  assert (F : four_parts (p0 ++ "." ++ p1 ++ ".XXX.XXX")%string p0 p1 "XXX" "XXX").
  { repeat split; try assumption; unfold dot_free; simpl; intuition discriminate. }
  apply split_four in F. unfold sanitize_ip. rewrite F. reflexivity.
Qed.

(** ** The matcher against matching as a relation *)

Lemma rmatch_sound {R} r : forall s cs (k : list ascii -> caps -> option R) x,
  rmatch r s cs k = Some x ->
  exists w s' cs', s = w ++ s' /\ Matches r w s' /\ k s' cs' = Some x.
Proof.
  induction r as [ |c|p|p|r1 IHr1 r2 IHr2|r1 IHr1 r2 IHr2|c|c|n c|n r IHr| ];
    intros l cs k x H; simpl in H.
  - exists [], l, cs. repeat split; auto. constructor.
  - destruct l as [|a l]; [discriminate|].
    destruct (in_class c a) eqn:E; [|discriminate].
    exists [a], l, cs. repeat split; auto. constructor; auto.
  - destruct (lit_match_eqb_inv _ _ _ _ H) as (s' & -> & Hk).
    exists (list_ascii_of_string p), s', cs. repeat split; auto. constructor.
  - destruct (lit_match_inv _ _ _ _ _ H) as (w & s' & -> & Hk & Hw).
    exists w, s', cs. repeat split; auto. constructor; auto.
  - destruct (IHr1 _ _ _ _ H) as (w1 & s1 & cs1 & -> & M1 & H1).
    destruct (IHr2 _ _ _ _ H1) as (w2 & s2 & cs2 & -> & M2 & H2).
    exists (w1 ++ w2), s2, cs2. rewrite app_assoc.
    repeat split; auto. constructor; auto.
  - destruct (rmatch r1 l cs k) eqn:E.
    + injection H as ->.
      destruct (IHr1 _ _ _ _ E) as (w1 & s1 & cs1 & -> & M1 & H1).
      exists w1, s1, cs1. repeat split; auto. apply M_alt_l; auto.
    + destruct (IHr2 _ _ _ _ H) as (w1 & s1 & cs1 & -> & M1 & H1).
      exists w1, s1, cs1. repeat split; auto. apply M_alt_r; auto.
  - destruct (star_match_inv _ _ _ _ H) as (w & s' & -> & Hk & Hw).
    exists w, s', cs. repeat split; auto. constructor; auto.
  - destruct l as [|a l]; [discriminate|].
    destruct (in_class c a) eqn:E; [|discriminate].
    destruct (star_match_inv _ _ _ _ H) as (w & s' & -> & Hk & Hw).
    exists (a :: w), s', cs. repeat split; auto. constructor; auto.
  - destruct (rep_match_inv _ _ _ _ _ H) as (w & s' & -> & Hk & Hw & Hl).
    exists w, s', cs. repeat split; auto. constructor; auto.
  - destruct (IHr _ _ _ _ H) as (w1 & s1 & cs1 & -> & M1 & H1).
    eexists w1, s1, _. repeat split; [|exact H1]. constructor; auto.
  - exists [], l, cs.
    destruct l as [|a [|b l]]; try discriminate.
    + repeat split; auto. constructor; auto.
    + destruct (Ascii.eqb_spec a newline) as [->|]; [|discriminate].
      repeat split; auto. constructor; auto.
Qed.

Lemma lit_match_complete {R} eqc p : forall w s (k : list ascii -> option R),
  Forall2 (fun a c => eqc a c = true) w (list_ascii_of_string p) ->
  lit_match eqc p (w ++ s) k = k s.
Proof.
  induction p as [|c p IH]; intros w s k H; simpl in *.
  - inversion H. reflexivity.
  - inversion H as [|a c' w' l' E Hw]; subst. simpl. rewrite E. apply IH, Hw.
Qed.

Lemma star_match_fallback {R} c s (k : list ascii -> option R) :
  k s <> None -> star_match c s k <> None.
Proof.
  intros H. destruct s as [|a s]; simpl; auto.
  destruct (in_class c a); auto. destruct (star_match c s k); [discriminate|auto].
Qed.

Lemma star_match_complete {R} c w : forall s (k : list ascii -> option R),
  Forall (fun a => in_class c a = true) w -> k s <> None ->
  star_match c (w ++ s) k <> None.
Proof.
  induction w as [|a w IH]; intros s k Hw Hk; simpl.
  - apply star_match_fallback, Hk.
  - inversion Hw as [|? ? Ea Hw']; subst. rewrite Ea.
    specialize (IH s k Hw' Hk).
    destruct (star_match c (w ++ s) k); [discriminate|contradiction].
Qed.

Lemma rep_match_complete {R} c w : forall s (k : list ascii -> option R),
  Forall (fun a => in_class c a = true) w ->
  rep_match (length w) c (w ++ s) k = k s.
Proof.
  induction w as [|a w IH]; intros s k Hw; simpl; [reflexivity|].
  inversion Hw as [|? ? Ea Hw']; subst. rewrite Ea. apply IH, Hw'.
Qed.

(** A backtracking match finds a way whenever there is one. *)
Lemma rmatch_complete {R} r w s :
  Matches r w s ->
  forall cs (k : list ascii -> caps -> option R),
    (forall cs', k s cs' <> None) -> rmatch r (w ++ s) cs k <> None.
Proof.
  induction 1 as [s|c a s Ha|p s|p w s Hw|r1 r2 w1 w2 s M1 IH1 M2 IH2
                 |r1 r2 w s M IH|r1 r2 w s M IH|c w s Hw|c a w s Ha Hw
                 |n c w s Hl Hw|n r w s M IH|s Hs];
    intros cs k Hk; simpl.
  - apply Hk.
  - rewrite Ha. apply Hk.
  - rewrite lit_match_complete; [apply Hk|].
    clear. induction (list_ascii_of_string p); constructor; auto.
    apply Ascii.eqb_refl.
  - rewrite lit_match_complete; [apply Hk | exact Hw].
  - rewrite <- app_assoc. apply IH1. intros cs'. apply IH2, Hk.
  - specialize (IH cs k Hk).
    destruct (rmatch r1 (w ++ s) cs k); [discriminate|contradiction].
  - destruct (rmatch r1 (w ++ s) cs k); [discriminate|]. apply IH, Hk.
  - apply star_match_complete; [exact Hw | apply Hk].
  - rewrite Ha. apply star_match_complete; [exact Hw | apply Hk].
  - subst n. rewrite rep_match_complete; [apply Hk | exact Hw].
  - apply IH. intros cs'. apply Hk.
  - destruct Hs as [-> | ->]; simpl; apply Hk.
Qed.

Lemma Matches_seq_inv r1 r2 w s :
  Matches (Seq r1 r2) w s ->
  exists w1 w2, w = w1 ++ w2 /\ Matches r1 w1 (w2 ++ s) /\ Matches r2 w2 s.
Proof. inversion 1; subst; eauto. Qed.

Lemma Matches_seq_mono_r r r1 r2 :
  (forall w s, Matches r1 w s -> Matches r2 w s) ->
  forall w s, Matches (Seq r r1) w s -> Matches (Seq r r2) w s.
Proof.
  intros H w s M. destruct (Matches_seq_inv _ _ _ _ M) as (w1 & w2 & -> & M1 & M2).
  constructor; auto.
Qed.

Lemma Matches_seq_mono_l r r1 r2 :
  (forall w s, Matches r1 w s -> Matches r2 w s) ->
  forall w s, Matches (Seq r1 r) w s -> Matches (Seq r2 r) w s.
Proof.
  intros H w s M. destruct (Matches_seq_inv _ _ _ _ M) as (w1 & w2 & -> & M1 & M2).
  constructor; auto.
Qed.

Lemma Matches_root_nonspace w s :
  Matches (Lit "root") w s -> Matches (Plus NonSpace) w s.
Proof.
  inversion 1; subst. simpl. constructor; [reflexivity|].
  repeat constructor.
Qed.

Lemma sudo_command_tail_included w s :
  Matches sudo_command_tail w s -> Matches command_tail w s.
Proof.
  revert w s. unfold sudo_command_tail, command_tail, sudo_line.
  do 19 apply Matches_seq_mono_r.
  apply Matches_seq_mono_l. exact Matches_root_nonspace.
Qed.

(** Every line the pattern for sudo to root matches is matched by the
    command pattern, which is tried first. *)
Lemma sudo_command_shadowed line m :
  re_match sudo_command_regex line = Some m ->
  exists m1, re_match command_regex line = Some m1.
Proof.
  unfold sudo_command_regex, command_regex.
  rewrite !re_match_split by (apply tails_reject_space; simpl; auto 10).
  destruct (scan_prefix line) as [[cs l']|]; [|discriminate].
  intros H. destruct (rmatch_sound _ _ _ _ _ H) as (w & s' & cs' & -> & M & _).
  apply sudo_command_tail_included in M.
  pose proof (rmatch_complete _ _ _ M cs k_match) as C.
  destruct (rmatch command_tail (w ++ s') cs k_match); [eauto|].
  destruct C; [discriminate|reflexivity].
Qed.

(** ** The two patterns an earlier pattern shadows *)

Lemma Matches_seq_end (P : list ascii -> Prop) r1 r2 :
  (forall w s, Matches r2 w s -> P s) ->
  forall w s, Matches (Seq r1 r2) w s -> P s.
Proof.
  intros H w s M. destruct (Matches_seq_inv _ _ _ _ M) as (w1 & w2 & _ & _ & M2).
  eauto.
Qed.

Lemma failure_details_end w s :
  Matches failure_details w s -> s = [] \/ s = [newline].
Proof.
  revert w s. unfold failure_details.
  repeat apply Matches_seq_end.
  intros w s M. inversion M; subst. assumption.
Qed.

(** After the shared prefix, what the failed-sudo pattern matches is matched
    by the user pattern too when the text holds no newline. *)
Lemma sudo_failure_tail_included w s :
  ~ In newline w ->
  Matches sudo_failure_tail w s -> Matches user_tail w s.
Proof.
  intros Hnl M.
  change sudo_failure_tail with
    (Lit "sudo[" ++ Group 4 (Plus Digit) ++ Lit "]:" ++ Plus Space ++
     failure_details)%re in M.
  destruct (Matches_seq_inv _ _ _ _ M) as (w1 & x1 & -> & M1 & Ma).
  destruct (Matches_seq_inv _ _ _ _ Ma) as (w2 & x2 & -> & M2 & Mb).
  destruct (Matches_seq_inv _ _ _ _ Mb) as (w3 & x3 & -> & M3 & Mc).
  destruct (Matches_seq_inv _ _ _ _ Mc) as (w4 & w5 & -> & M4 & M5).
  inversion M1; subst. inversion M3; subst.
  inversion M2 as [| | | | | | | | | |n r w0 s0 M2' |]; subst.
  pose proof (failure_details_end _ _ M5) as Hend.
  assert (Hdot : Forall (fun a => in_class Dot a = true) w5).
  { apply Forall_forall. intros a Ha. simpl.
    destruct (Ascii.eqb_spec a newline) as [->|]; [|reflexivity].
    destruct Hnl. repeat (apply in_or_app; right). exact Ha. }
  rewrite user_tail_shape. unfold user_details.
  change (list_ascii_of_string "sudo[")
    with (list_ascii_of_string "sudo" ++ list_ascii_of_string "[").
  rewrite <- app_assoc.
  constructor.
  { constructor. unfold event_names.
    apply M_alt_r. constructor. }
  constructor; [constructor|].
  constructor.
  { constructor. inversion M2'; subst. constructor; auto. }
  constructor; [constructor|].
  constructor.
  { inversion M4; subst. constructor; auto. }
  rewrite <- (app_nil_r w5).
  constructor; [constructor; constructor; exact Hdot|].
  constructor. exact Hend.
Qed.

Lemma scan_prefix_suffix line cs l' :
  scan_prefix line = Some (cs, l') ->
  exists w, list_ascii_of_string line = w ++ l'.
Proof.
  unfold scan_prefix. intros H.
  destruct (rmatch_inv _ _ _ _ _ H) as (w & s' & cs' & E & Hk & _).
  injection Hk as <- <-. eauto.
Qed.

(** A line without a newline that the failed-sudo pattern matches is matched
    by the user pattern, which is tried before it, with the event [sudo]. *)
Lemma sudo_failure_shadowed line m :
  ~ In newline (list_ascii_of_string line) ->
  re_match sudo_failure_regex line = Some m ->
  exists m2, re_match user_regex line = Some m2 /\ group m2 4 = Ok "sudo"%string.
Proof.
  intros Hnl. unfold sudo_failure_regex, user_regex.
  rewrite !re_match_split by (apply tails_reject_space; simpl; auto 10).
  destruct (scan_prefix line) as [[cs l']|] eqn:Es; [|discriminate].
  destruct (scan_prefix_suffix _ _ _ Es) as (w0 & E0).
  intros H. destruct (rmatch_sound _ _ _ _ _ H) as (w & s' & cs' & -> & M & _).
  pose proof (lit_head_inv _ _ _ _ _ _ H) as (t & Et).
  apply sudo_failure_tail_included in M.
  2:{ intros Hin. apply Hnl. rewrite E0. apply in_or_app. right.
      apply in_or_app. left. exact Hin. }
  pose proof (rmatch_complete _ _ _ M cs k_match) as C.
  destruct (rmatch user_tail (w ++ s') cs k_match) as [m2|] eqn:E2.
  2:{ destruct C; [discriminate|reflexivity]. }
  exists m2. split; [reflexivity|].
  rewrite Et in E2. cbn [list_ascii_of_string app] in E2.
  apply user_tail_sudo_event in E2. unfold group. rewrite E2. reflexivity.
Qed.

(** The block for sudo to root is never reached: on every line its pattern
    matches, the command block has decided before, and [sudo_commands]
    stays as it is. *)
Lemma sudo_command_block_unreachable self line m out :
  re_match sudo_command_regex line = Some m ->
  parse_line self line = Ok out ->
  stat (statistics (snd out)) sudo_commands
  = stat (statistics self) sudo_commands.
Proof.
  intros Hm. destruct (sudo_command_shadowed line m Hm) as (m1 & H1).
  rewrite parse_line_first_match. cbn [first_match_wins registry]. rewrite H1.
  destruct (command_block_does (current_year self) line m1 H1)
    as (sh & Hsh & Hb).
  rewrite (Hb self eq_refl). cbn [rbind].
  destruct sh as [[e|] keys|keys]; simpl in Hsh; try discriminate.
  - destruct Hsh as [<-|[]]. intros [= <-]. cbn [snd bump statistics].
    rewrite stat_incr. simpl. lia.
  - subst keys. intros [= <-]. reflexivity.
Qed.

(** The block for failed sudo attempts is never reached on a line without a
    newline, and [analyze] passes no other: [failed_sudo] stays as it is,
    and so does [potential_attacks]. *)
Lemma sudo_failure_block_unreachable self line m out :
  ~ In newline (list_ascii_of_string line) ->
  re_match sudo_failure_regex line = Some m ->
  parse_line self line = Ok out ->
  stat (statistics (snd out)) failed_sudo = stat (statistics self) failed_sudo /\
  stat (statistics (snd out)) potential_attacks
  = stat (statistics self) potential_attacks.
Proof.
  intros Hnl Hm.
  destruct (sudo_failure_shadowed line m Hnl Hm) as (m2 & H2 & _).
  rewrite parse_line_first_match. cbn [first_match_wins registry].
  destruct (re_match command_regex line) as [m1|] eqn:H1.
  - destruct (command_block_does (current_year self) line m1 H1)
      as (sh & Hsh & Hb).
    rewrite (Hb self eq_refl). cbn [rbind].
    destruct sh as [[e|] keys|keys]; simpl in Hsh; try discriminate.
    + destruct Hsh as [<-|[]]. intros [= <-]. cbn [snd bump statistics].
      rewrite !stat_incr. simpl. lia.
    + subst keys. intros [= <-]. auto.
  - rewrite H2.
    destruct (user_block_does (current_year self) line m2 H2)
      as (sh & Hsh & Hb).
    rewrite (Hb self eq_refl). cbn [rbind].
    destruct sh as [[e|] keys|keys]; simpl in Hsh.
    + destruct Hsh as [<-|[<-|[]]]; intros [= <-];
        cbn [snd apply_shape bump_all fold_right bump statistics];
        rewrite !stat_incr; simpl; lia.
    + subst keys. intros [= <-]. auto.
    + injection Hsh as <-. intros [= <-].
      cbn [snd apply_shape bump_all fold_right bump statistics].
      rewrite !stat_incr. simpl. lia.
Qed.

Lemma drop_while_incl f s a : In a (drop_while f s) -> In a s.
Proof.
  induction s as [|b s IH]; simpl; [auto|].
  destruct (f b); simpl; auto.
Qed.

Lemma strip_chars_incl s a : In a (strip_chars s) -> In a s.
Proof.
  unfold strip_chars. intros H. apply in_rev in H.
  apply drop_while_incl in H. apply in_rev in H.
  apply drop_while_incl in H. exact H.
Qed.

Lemma drop_while_app_last f b x :
  f x = true ->
  drop_while f (b ++ [x]) =
  match drop_while f b with
  | [] => []
  | d => d ++ [x]
  end.
Proof.
  intros Hx. induction b as [|a b IH]; simpl.
  - rewrite Hx. reflexivity.
  - destruct (f a); [exact IH | reflexivity].
Qed.

Lemma strip_chars_newline body :
  strip_chars (body ++ [newline]) = strip_chars body.
Proof.
  unfold strip_chars. rewrite drop_while_app_last by reflexivity.
  destruct (drop_while is_space body) as [|a d]; [reflexivity|].
  rewrite rev_app_distr. reflexivity.
Qed.

(** [strip] hands [parse_line] a text without a newline. *)
Lemma strip_file_line raw :
  file_line raw -> ~ In newline (list_ascii_of_string (strip raw)).
Proof.
  intros (body & Hb & [-> | ->]); unfold strip;
    rewrite list_ascii_of_string_of_list_ascii.
  - intros H. apply strip_chars_incl in H. contradiction.
  - rewrite list_ascii_of_string_app. cbn [nl list_ascii_of_string].
    rewrite strip_chars_newline.
    intros H. apply strip_chars_incl in H. contradiction.
Qed.

(** In a run of [analyze], a line of the failed-sudo shape leaves
    [failed_sudo] and [potential_attacks] as they are. *)
Lemma failed_sudo_never_counted self raw m final :
  file_line raw ->
  re_match sudo_failure_regex (strip raw) = Some m ->
  process_line self raw = Ok final ->
  stat (statistics final) failed_sudo = stat (statistics self) failed_sudo /\
  stat (statistics final) potential_attacks
  = stat (statistics self) potential_attacks.
Proof.
  intros Hf Hm. apply strip_file_line in Hf. unfold process_line.
  destruct (parse_line self (strip raw)) as [out|] eqn:P; [|discriminate].
  destruct (sudo_failure_block_unreachable _ _ _ _ Hf Hm P) as (A & B).
  cbn [rbind]. destruct (fst out); intros [= <-]; [|auto].
  cbn [bump append_entry statistics]. rewrite !stat_incr.
  cbn [counter_eqb]. split; lia.
Qed.

(** ** The counters of a line with an entry *)

Lemma with_timestamp_returns_entry self m body e self' :
  with_timestamp self m body = Ok (Return (Some e) self') ->
  exists t, body t = Ok (Return (Some e) self').
Proof.
  unfold with_timestamp.
  destruct (timestamp_str self m) as [ts|]; [|discriminate]. cbn [rbind].
  destruct (strptime ts) as [t|[]]; try discriminate. eauto.
Qed.

Ltac block_entry H :=
  apply with_timestamp_returns_entry in H;
  let t := fresh "t" in
  destruct H as (t & H);
  repeat match type of H with
         | rbind (group ?m ?n) _ = _ =>
             let E := fresh "G" in
             destruct (group m n) eqn:E; cbn [rbind] in H; [|discriminate H]
         end.

Ltac by_text H lit :=
  match type of H with
  | context [String.eqb ?s lit] =>
      destruct (String.eqb_spec s lit) as [->|_]
  end.

Ltac masked H :=
  cbv zeta in H;
  match type of H with
  | rbind (sanitize_ip ?x) _ = _ =>
      destruct (sanitize_ip x); cbn [rbind] in H; [|discriminate H]
  end.

(** A line with an entry made the increments [counted_as] names, and no
    other. *)
Lemma parse_line_counted self line e self' :
  parse_line self line = Ok (Some e, self') ->
  exists keys, self' = bump_all keys self /\ counted_as line keys.
Proof.
  rewrite parse_line_first_match. cbn [first_match_wins registry].
  unfold counted_as.
  assert (X : forall (block : LogAnalyzer -> re_match_obj -> result flow) m
                     (P : Prop),
    (block self m = Ok (Return (Some e) self') -> P) ->
    (f <- block self m ;;
     match f with
     | Return r s => Ok (r, s)
     | Fallthrough s => Ok (None, s)
     end) = Ok (Some e, self') -> P).
  { intros block m P Hb H. destruct (block self m) as [[r s|s]|]; try discriminate.
    cbn [rbind] in H. injection H as -> ->. apply Hb. reflexivity. }
  destruct (re_match command_regex line) as [m1|].
  { apply X. intros H. unfold command_block in H. block_entry H.
    injection H as _ <-. exists [commands]. split; reflexivity. }
  destruct (re_match user_regex line) as [m2|].
  { apply X. intros H. unfold user_block in H. block_entry H.
    by_text H "useradd"%string.
    { injection H as _ <-. exists [user_changes]. split; [reflexivity|].
      eexists. split; [reflexivity|]. right. simpl. auto. }
    by_text H "userdel"%string.
    { injection H as _ <-. exists [user_changes]. split; [reflexivity|].
      eexists. split; [reflexivity|]. right. simpl. auto. }
    by_text H "passwd"%string.
    { injection H as _ <-. exists [user_changes]. split; [reflexivity|].
      eexists. split; [reflexivity|]. right. simpl. auto. }
    by_text H "sudo"%string; [|discriminate H].
    injection H as _ <-. exists [sudo_commands; user_changes].
    split; [reflexivity|]. eexists. split; [reflexivity|]. left. auto. }
  destruct (re_match sudo_command_regex line) as [m3|].
  { apply X. intros H. unfold sudo_command_block in H. block_entry H.
    injection H as _ <-. exists [sudo_commands]. split; reflexivity. }
  destruct (re_match sudo_failure_regex line) as [m4|].
  { apply X. intros H. unfold sudo_failure_block in H. block_entry H.
    injection H as _ <-. exists [potential_attacks; failed_sudo].
    split; reflexivity. }
  destruct (re_match hydra_attack_regex line) as [m5|]; [|discriminate].
  apply X. intros H. unfold hydra_block in H. block_entry H.
  by_text H "Failed"%string.
  { masked H.
    injection H as _ <-. exists [potential_attacks; failed_logins].
    split; [reflexivity|]. eexists. split; [reflexivity|]. left. auto. }
  by_text H "Accepted"%string; [|discriminate H].
  masked H.
  injection H as _ <-. exists [successful_logins].
  split; [reflexivity|]. eexists. split; [reflexivity|]. right. auto.
Qed.

Lemma counted_as_allowed line keys :
  counted_as line keys -> In keys event_deltas.
Proof.
  unfold counted_as, event_deltas.
  destruct (re_match command_regex line); [intros ->; simpl; auto|].
  destruct (re_match user_regex line).
  { intros (event & _ & [[_ ->]|[_ ->]]); simpl; auto. }
  destruct (re_match sudo_command_regex line); [intros ->; simpl; auto|].
  destruct (re_match sudo_failure_regex line); [intros ->; simpl; auto 10|].
  destruct (re_match hydra_attack_regex line); [|intros []].
  intros (status & _ & [[_ ->]|[_ ->]]); simpl; auto 10.
Qed.

(** Two counters that moved are the two of the list of increments. *)
Lemma two_moved_are_the_keys self keys c1 c2 :
  In keys ([] :: event_deltas) ->
  c1 <> c2 ->
  stat (statistics (bump_all keys self)) c1 <> stat (statistics self) c1 ->
  stat (statistics (bump_all keys self)) c2 <> stat (statistics self) c2 ->
  keys = [c1; c2] \/ keys = [c2; c1].
Proof.
  destruct self as [y es []]. unfold event_deltas.
  intros Hk Hne H1 H2. simpl in Hk.
  repeat (destruct Hk as [<-|Hk]; [
    destruct c1, c2; cbn in H1, H2; try congruence; auto |]).
  destruct Hk.
Qed.

Open Scope string_scope.

(** ** The claims *)

(** C1, evaluated at a line of the failed-sudo shape: the failed-sudo pattern
    matches it, yet [parse_line] returns the alert of the user block and
    increments [user_changes] and [sudo_commands]; [failed_sudo] and
    [potential_attacks] stay 0. *)
Theorem failed_sudo_line_taken_by_user_pattern :
  (exists m, re_match sudo_failure_regex failed_sudo_line = Some m) /\
  parse_line (fresh 2024) failed_sudo_line =
  Ok (Some (MkDatetime 2024 1 5 10 0 0,
            "ALERT!!!! sudo Command - Timestamp: 2024-01-05 10:00:00, User used sudo command: pam_unix(sudo:auth): authentication failure; logname=bob uid=1000 euid=0 tty=/dev/pts/0 ruser=bob rhost=localhost user=bob" ++ nl),
      MkAnalyzer 2024 [] (MkStats 0 0 1 1 0 0 0 0)).
Proof. split; [eexists|]; vm_compute; reflexivity. Qed.

(** C2, evaluated at a sudo line with [USER=root]: the pattern for sudo to
    root matches it, yet [parse_line] returns the entry of the command block
    and increments [commands]; [sudo_commands] stays 0. *)
Theorem sudo_root_line_taken_by_command_pattern :
  (exists m, re_match sudo_command_regex sudo_root_line = Some m) /\
  parse_line (fresh 2024) sudo_root_line =
  Ok (Some (MkDatetime 2024 1 5 10 0 0,
            "Command Log - Timestamp: 2024-01-05 10:00:00, User: alice, Command: /bin/ls" ++ nl),
      MkAnalyzer 2024 [] (MkStats 0 1 0 0 0 0 0 0)).
Proof. split; [eexists|]; vm_compute; reflexivity. Qed.

(** C3 as stated fails: the failed login of Scenario A increments the two
    category counters [failed_logins] and [potential_attacks], and the user
    pattern does not match that line. *)
Lemma failed_login_moves_two_counters : ~ two_counters_for_user_sudo_only.
Proof.
  intros H.
  destruct (H (fresh 2024) scenario_A
              (Some (MkDatetime 2024 1 5 10 0 0,
                     "Hydra Attack - Failed login attempt - Timestamp: 2024-01-05 10:00:00, User: admin, IP: 203.0.XXX.XXX, Port: 22000" ++ nl))
              (MkAnalyzer 2024 [] (MkStats 0 0 0 0 0 1 0 1))
              failed_logins potential_attacks) as (m & Hm & _);
    try (vm_compute; reflexivity); try (simpl; tauto); try discriminate.
Qed.

(** C3, amended. After a run of [analyze] from a fresh analyzer,
    [total_entries] and the number of entries collected both equal the number
    of lines that produced an entry. A line that produces an entry increments
    the counters of its kind by one each and no other: the kind is set by the
    first pattern that matches the line and, for the user and the login
    pattern, by the event and the status, and it has one category counter, or
    two in three cases: the event [sudo] of the user pattern ([user_changes],
    [sudo_commands]), a failed sudo ([failed_sudo], [potential_attacks]) and
    a failed login ([failed_logins], [potential_attacks]). A line that
    produces no entry changes no counter other than [user_changes]. So two
    category counters that move for one line are the pair of one of the three
    cases, and the line is of that case. *)
Theorem counter_conservation :
  (forall year lines,
     exists final body,
       analyze (fresh year) (Some lines) = Some (final, body) /\
       stat (statistics final) total_entries
       = length (filter (produces_event year) lines) /\
       length (log_entries final) = length (filter (produces_event year) lines)) /\
  (forall self line,
     exists r keys,
       parse_line self line = Ok (r, bump_all keys self) /\
       match r with
       | Some _ => counted_as line keys
       | None => keys = [] \/ keys = [user_changes]
       end) /\
  (forall self line r self' c1 c2,
     parse_line self line = Ok (r, self') ->
     In c1 categories -> In c2 categories -> c1 <> c2 ->
     stat (statistics self') c1 <> stat (statistics self) c1 ->
     stat (statistics self') c2 <> stat (statistics self) c2 ->
     (counted_as line [c1; c2] \/ counted_as line [c2; c1]) /\
     In (c1, c2) [(user_changes, sudo_commands); (sudo_commands, user_changes);
                  (failed_sudo, potential_attacks);
                  (potential_attacks, failed_sudo);
                  (failed_logins, potential_attacks);
                  (potential_attacks, failed_logins)]).
Proof.
  assert (P : forall self line,
     exists r keys,
       parse_line self line = Ok (r, bump_all keys self) /\
       match r with
       | Some _ => counted_as line keys
       | None => keys = [] \/ keys = [user_changes]
       end).
  { intros self line.
    destruct (parse_line_does (current_year self) line) as (r & keys & Ha & Hp).
    specialize (Hp self eq_refl). destruct r as [e|].
    - destruct (parse_line_counted _ _ _ _ Hp) as (keys' & Hk & Hc).
      exists (Some e), keys'. rewrite Hp, Hk. split; [reflexivity|exact Hc].
    - exists None, keys. split; [exact Hp|exact Ha]. }
  split; [|split; [exact P|]].
  - intros year lines. unfold analyze.
    destruct (read_lines_does lines (fresh year)) as (final & -> & Hy & He & Ht).
    do 2 eexists. split; [reflexivity|]. cbn [statistics log_entries].
    rewrite filter_produces_length. split.
    + rewrite Ht. reflexivity.
    + rewrite <- (Permutation_length (sort_entries_perm _)), He. reflexivity.
  - intros self line r self' c1 c2 Hp _ _ Hne H1 H2.
    destruct (P self line) as (r' & keys & Hp' & Hk).
    rewrite Hp in Hp'. injection Hp' as -> ->.
    assert (A : In keys ([] :: event_deltas)).
    { destruct r' as [e|].
      - right. apply (counted_as_allowed line). exact Hk.
      - destruct Hk as [-> | ->]; simpl; auto. }
    assert (K : keys = [c1; c2] \/ keys = [c2; c1])
      by (apply (two_moved_are_the_keys self); assumption).
    assert (C : counted_as line keys).
    { destruct r' as [e|]; [exact Hk|].
      destruct Hk as [-> | ->]; destruct K as [K|K]; discriminate K. }
    split; [destruct K as [<-|<-]; auto|].
    apply counted_as_allowed in C. unfold event_deltas in C. simpl in C.
    destruct K as [K|K]; subst keys; simpl;
      repeat (destruct C as [C|C]; [try discriminate C; injection C as <- <-; auto 10|]);
      destruct C.
Qed.

Lemma counter_conservation_witness :
  counted_as scenario_A [failed_logins; potential_attacks] \/
  counted_as scenario_A [potential_attacks; failed_logins].
Proof.
  apply (proj2 (proj2 counter_conservation) (fresh 2024) scenario_A
           (Some (MkDatetime 2024 1 5 10 0 0,
                  "Hydra Attack - Failed login attempt - Timestamp: 2024-01-05 10:00:00, User: admin, IP: 203.0.XXX.XXX, Port: 22000" ++ nl))
           (MkAnalyzer 2024 [] (MkStats 0 0 0 0 0 1 0 1))
           failed_logins potential_attacks);
    try (vm_compute; reflexivity); try (simpl; tauto); try discriminate.
Defined.

(** C4 as stated fails: a [su] line dated Feb 30 matches the user pattern
    and not the command pattern, and [user_changes] is not incremented. *)
Lemma su_line_bad_date_not_counted : ~ su_always_counted.
Proof.
  intros H.
  destruct (re_match user_regex su_line_bad_date) as [m|] eqn:E;
    [|vm_compute in E; discriminate].
  destruct (H (fresh 2024) su_line_bad_date m E) as (self' & Hp & Hs).
  - vm_compute in E. injection E as <-. reflexivity.
  - vm_compute. reflexivity.
  - vm_compute in Hp. injection Hp as <-. vm_compute in Hs. discriminate.
Qed.

(** C4, amended. For a line the user pattern matches with the process name
    [su], that the command pattern does not match and whose timestamp parses
    in the analyzer's year, [parse_line] increments [user_changes] and
    returns no entry: in [analyze] nothing is appended to [log_entries] and
    [total_entries] is not incremented. *)
Theorem su_line_counted_without_event :
  forall self line m t,
    re_match user_regex line = Some m -> group m 4 = Ok "su" ->
    re_match command_regex line = None ->
    match_timestamp self m = Ok t ->
    parse_line self line = Ok (None, bump user_changes self) /\
    forall raw, strip raw = line ->
      process_line self raw = Ok (bump user_changes self) /\
      log_entries (bump user_changes self) = log_entries self /\
      stat (statistics (bump user_changes self)) total_entries
      = stat (statistics self) total_entries /\
      stat (statistics (bump user_changes self)) user_changes
      = stat (statistics self) user_changes + 1.
Proof.
  intros self line m t Hm Hsu Hc Ht.
  assert (P : parse_line self line = Ok (None, bump user_changes self)).
  { rewrite parse_line_first_match. cbn [first_match_wins registry].
    rewrite Hc, Hm. unfold user_block, with_timestamp.
    unfold match_timestamp in Ht.
    destruct (timestamp_str self m) as [ts|]; [|discriminate].
    cbn [rbind] in *. rewrite Ht, Hsu.
    destruct (re_match_sure _ _ _ 6 Hm) as (details & ->); [vm_compute; tauto|].
    reflexivity. }
  split; [exact P|]. intros raw <-. repeat split.
  - unfold process_line. rewrite P. reflexivity.
  - cbn [bump statistics]. rewrite stat_incr. simpl. lia.
  - cbn [bump statistics]. rewrite stat_incr. simpl. lia.
Qed.

Lemma su_line_counted_without_event_witness :
  parse_line (fresh 2024) su_line = Ok (None, bump user_changes (fresh 2024)).
Proof.
  destruct (re_match user_regex su_line) as [m|] eqn:E;
    [|vm_compute in E; discriminate].
  apply (su_line_counted_without_event (fresh 2024) su_line m
           (MkDatetime 2024 1 5 10 0 0) E).
  - vm_compute in E. injection E as <-. reflexivity.
  - vm_compute. reflexivity.
  - vm_compute in E. injection E as <-. vm_compute. reflexivity.
Defined.

(** C5. For every line, [parse_line] is the dispatcher that tries the five
    patterns in their fixed order and lets the first that matches decide
    alone ([first_match_wins]); a line adds at most one entry; and a line both
    the command pattern and the user pattern match is handled by the command
    block, with [user_changes] left as it is. *)
Theorem first_matching_grammar_decides :
  forall self line,
    parse_line self line = first_match_wins registry self line /\
    (forall final, process_line self line = Ok final ->
       length (log_entries final) <= S (length (log_entries self))) /\
    (forall m1 m2,
       re_match command_regex line = Some m1 ->
       re_match user_regex line = Some m2 ->
       parse_line self line =
       (f <- command_block self m1 ;;
        match f with
        | Return r self' => Ok (r, self')
        | Fallthrough self' => Ok (None, self')
        end) /\
       forall out, parse_line self line = Ok out ->
         stat (statistics (snd out)) user_changes
         = stat (statistics self) user_changes).
Proof.
  intros self line. split; [apply parse_line_first_match|]. split.
  - intros final. destruct (process_line_does self line) as (keys & _ & ->).
    intros [= <-]. destruct (line_event _ _); cbn [bump append_entry log_entries];
      rewrite log_entries_bump_all; [rewrite length_app; simpl|]; lia.
  - intros m1 m2 H1 H2.
    assert (P : parse_line self line =
       (f <- command_block self m1 ;;
        match f with
        | Return r self' => Ok (r, self')
        | Fallthrough self' => Ok (None, self')
        end)).
    { rewrite parse_line_first_match. cbn [first_match_wins registry].
      rewrite H1. reflexivity. }
    split; [exact P|]. intros out. rewrite P.
    destruct (command_block_does (current_year self) line m1 H1)
      as (sh & Hsh & Hb).
    rewrite (Hb self eq_refl). cbn [rbind].
    destruct sh as [[e|] keys|keys]; simpl in Hsh; try discriminate.
    + destruct Hsh as [<-|[]]. intros [= <-]. cbn [snd bump statistics].
      rewrite stat_incr. simpl. lia.
    + subst keys. intros [= <-]. reflexivity.
Qed.

Lemma first_matching_grammar_decides_witness :
  exists m1 m2,
    re_match command_regex sudo_root_line = Some m1 /\
    re_match user_regex sudo_root_line = Some m2 /\
    forall out, parse_line (fresh 2024) sudo_root_line = Ok out ->
      stat (statistics (snd out)) user_changes = 0.
Proof.
  destruct (re_match command_regex sudo_root_line) as [m1|] eqn:E1;
    [|vm_compute in E1; discriminate].
  destruct (re_match user_regex sudo_root_line) as [m2|] eqn:E2;
    [|vm_compute in E2; discriminate].
  exists m1, m2. split; [reflexivity|]. split; [reflexivity|].
  exact (proj2 (proj2 (proj2 (first_matching_grammar_decides
                                (fresh 2024) sudo_root_line)) m1 m2 E1 E2)).
Defined.

(** C6. The entries of the report are in ascending order of timestamp; they
    are the entries of the input lines rearranged; and for every timestamp
    the entries that carry it come in the order of their lines in the input.
    For the two lines of Scenario D, both dated Feb 1 00:00:00, the command
    log is written before the failed login. *)
Theorem report_is_stably_sorted :
  (forall year lines,
     exists final body,
       analyze (fresh year) (Some lines) = Some (final, body) /\
       body = write_entries (log_entries final) /\
       StronglySorted chronological (log_entries final) /\
       Permutation (events_of year lines) (log_entries final) /\
       forall t, filter (has_timestamp t) (log_entries final)
                 = filter (has_timestamp t) (events_of year lines)) /\
  (forall t e, has_timestamp t e = true <-> fst e = t) /\
  exists final,
    analyze (fresh 2024) (Some scenario_D) =
    Some (final,
          "=== Parsed Log Entries ===" ++ nl ++ nl ++
          "Command Log - Timestamp: 2024-02-01 00:00:00, User: alice, Command: /bin/ls" ++ nl ++
          "Hydra Attack - Failed login attempt - Timestamp: 2024-02-01 00:00:00, User: admin, IP: 203.0.XXX.XXX, Port: 22000" ++ nl).
Proof.
  split; [|split].
  - intros year lines. unfold analyze.
    destruct (read_lines_does lines (fresh year)) as (final & -> & Hy & He & Ht).
    do 2 eexists. split; [reflexivity|]. cbn [log_entries].
    cbn [fresh log_entries current_year app] in He. rewrite He.
    split; [reflexivity|]. split; [apply sort_entries_sorted|].
    split; [apply sort_entries_perm|]. intros t. apply sort_entries_stable.
  - intros t e. apply dt_eqb_eq.
  - eexists. vm_compute. reflexivity.
Qed.

Lemma timestamp_failure_drops self line p m body :
  In p patterns -> re_match p line = Some m ->
  (forall t, match_timestamp self m <> Ok t) ->
  with_timestamp self m body = Ok (Return None self).
Proof.
  intros Hp Hm Hbad.
  destruct (with_timestamp_cases (current_year self) m)
    as (ts & Hts & [(t & Et & _) | (_ & W)]).
  - intros n Hn. destruct (pattern_tail p Hp) as (tail & Ht & ->).
    apply (re_match_sure _ _ _ n Hm). simpl in Hn. cbn [sure_groups].
    apply in_or_app. left. vm_compute. tauto.
  - destruct (Hbad t). unfold match_timestamp.
    rewrite (Hts self eq_refl). exact Et.
  - apply W. reflexivity.
Qed.

(** C7. When one of the five patterns matches a line and the timestamp of
    that match does not parse in the analyzer's year, [parse_line] returns no
    entry, leaves the analyzer and all its counters as they are, and raises
    nothing. *)
Theorem malformed_timestamp_is_dropped :
  forall self line p m,
    In p patterns -> re_match p line = Some m ->
    (forall t, match_timestamp self m <> Ok t) ->
    parse_line self line = Ok (None, self).
Proof.
  intros self line p m Hp Hm Hbad.
  assert (D : forall q m' body, In q patterns -> re_match q line = Some m' ->
              with_timestamp self m' body = Ok (Return None self)).
  { intros q m' body Hq Hm'. apply (timestamp_failure_drops self line q); auto.
    intros t. unfold match_timestamp.
    rewrite (same_timestamp_str self q p line m' m Hq Hp Hm' Hm). apply Hbad. }
  rewrite parse_line_first_match. cbn [first_match_wins registry].
  destruct (re_match command_regex line) as [m1|] eqn:E1.
  { unfold command_block. rewrite (D command_regex); [reflexivity| |exact E1].
    simpl; auto. }
  destruct (re_match user_regex line) as [m2|] eqn:E2.
  { unfold user_block. rewrite (D user_regex); [reflexivity| |exact E2].
    simpl; auto. }
  destruct (re_match sudo_command_regex line) as [m3|] eqn:E3.
  { unfold sudo_command_block.
    rewrite (D sudo_command_regex); [reflexivity| |exact E3]. simpl; auto. }
  destruct (re_match sudo_failure_regex line) as [m4|] eqn:E4.
  { unfold sudo_failure_block.
    rewrite (D sudo_failure_regex); [reflexivity| |exact E4]. simpl; auto 10. }
  destruct (re_match hydra_attack_regex line) as [m5|] eqn:E5; [|reflexivity].
  unfold hydra_block.
  rewrite (D hydra_attack_regex); [reflexivity| |exact E5]. simpl; auto 10.
Qed.

Lemma malformed_timestamp_is_dropped_witness :
  parse_line (fresh 2024) su_line_bad_date = Ok (None, fresh 2024).
Proof.
  destruct (re_match user_regex su_line_bad_date) as [m|] eqn:E;
    [|vm_compute in E; discriminate].
  apply (malformed_timestamp_is_dropped (fresh 2024) su_line_bad_date
           user_regex m).
  - simpl. auto.
  - exact E.
  - vm_compute in E. injection E as <-. intros t. vm_compute. discriminate.
Defined.

(** C8. [sanitize_ip] is idempotent: applied to its own result it returns
    that result. *)
Theorem sanitize_ip_idempotent :
  forall ip, rbind (sanitize_ip ip) sanitize_ip = sanitize_ip ip.
Proof. exact sanitize_ip_idem. Qed.

(** C9. For an address of four parts without a dot, joined by dots,
    [sanitize_ip] keeps the first two parts and puts XXX for the last two;
    for every other string it returns the full mask; it raises on no
    string. *)
Theorem sanitize_ip_masks :
  forall ip,
    (forall p0 p1 p2 p3, four_parts ip p0 p1 p2 p3 ->
       sanitize_ip ip = Ok (p0 ++ "." ++ p1 ++ ".XXX.XXX")) /\
    ((forall p0 p1 p2 p3, ~ four_parts ip p0 p1 p2 p3) ->
       sanitize_ip ip = Ok "XXX.XXX.XXX.XXX") /\
    (exists s, sanitize_ip ip = Ok s).
Proof.
  intros ip. split; [|split].
  - intros p0 p1 p2 p3 H. apply split_four in H.
    unfold sanitize_ip. rewrite H. reflexivity.
  - intros H. unfold sanitize_ip.
    destruct (Nat.eqb_spec (length (split "." ip)) 4) as [E|E]; [|reflexivity].
    destruct (split "." ip) as [|p0 [|p1 [|p2 [|p3 [|p4 l]]]]] eqn:S;
      try discriminate.
    destruct (H p0 p1 p2 p3). apply four_split. exact S.
  - apply sanitize_ip_total.
Qed.

Lemma sanitize_ip_masks_witness :
  sanitize_ip "203.0.113.50" = Ok "203.0.XXX.XXX" /\
  sanitize_ip "203.0.113" = Ok "XXX.XXX.XXX.XXX".
Proof.
  split.
  - apply (proj1 (sanitize_ip_masks "203.0.113.50") "203" "0" "113" "50").
    unfold four_parts, dot_free. simpl. intuition discriminate.
  - apply (proj1 (proj2 (sanitize_ip_masks "203.0.113"))).
    intros p0 p1 p2 p3 H. apply split_four in H. vm_compute in H. discriminate.
Defined.

(** C10. Scenario A with the year 2024: one entry, dated 2024-01-05
    10:00:00; [total_entries], [failed_logins] and [potential_attacks] are 1
    and the other counters 0; the message holds the address 203.0.XXX.XXX. *)
Theorem scenario_A_failed_login :
  forall now_year,
    analyze (LogAnalyzer_init (Some 2024%Z) now_year) (Some [scenario_A]) =
    Some (MkAnalyzer 2024
            [(MkDatetime 2024 1 5 10 0 0,
              "Hydra Attack - Failed login attempt - Timestamp: 2024-01-05 10:00:00, User: admin, IP: 203.0.XXX.XXX, Port: 22000" ++ nl)]
            (MkStats 1 0 0 0 0 1 0 1),
          "=== Parsed Log Entries ===" ++ nl ++ nl ++
          "Hydra Attack - Failed login attempt - Timestamp: 2024-01-05 10:00:00, User: admin, IP: 203.0.XXX.XXX, Port: 22000" ++ nl) /\
    contains "203.0.XXX.XXX"
      ("Hydra Attack - Failed login attempt - Timestamp: 2024-01-05 10:00:00, User: admin, IP: 203.0.XXX.XXX, Port: 22000" ++ nl) = true.
Proof. intros now_year. split; vm_compute; reflexivity. Qed.

Open Scope list_scope.

(** ** Which pattern decides, and the counters of a whole run *)

Lemma block_keys block year m allowed through :
  block_does block year m allowed through ->
  exists r keys,
    match r with
    | Some _ => In keys allowed
    | None => keys = [] \/ through = Some keys
    end /\
    forall self, current_year self = year ->
      (f <- block self m ;;
       match f with
       | Return r0 self' => Ok (r0, self')
       | Fallthrough self' => Ok (None, self')
       end) = Ok (r, bump_all keys self).
Proof.
  intros (sh & Hsh & Hb). destruct sh as [[e|] keys|keys]; simpl in Hsh.
  - exists (Some e), keys. split; [exact Hsh|].
    intros self Hy. rewrite (Hb self Hy). reflexivity.
  - exists None, keys. split; [left; exact Hsh|].
    intros self Hy. rewrite (Hb self Hy). reflexivity.
  - exists None, keys. split; [right; exact Hsh|].
    intros self Hy. rewrite (Hb self Hy). reflexivity.
Qed.

(** The entry of a line and its increments are the ones of the block of the
    first pattern that matches. *)
Lemma parse_line_by_pattern year line :
  exists r keys, keys_for (first_pattern line) r keys /\
    forall self, current_year self = year ->
                 parse_line self line = Ok (r, bump_all keys self).
Proof.
  enough (exists r keys, keys_for (first_pattern line) r keys /\
    forall self, current_year self = year ->
      first_match_wins registry self line = Ok (r, bump_all keys self))
    as (r & keys & Ha & Hf).
  { exists r, keys. split; [exact Ha|]. intros self Hy.
    rewrite parse_line_first_match. auto. }
  unfold first_pattern. cbn [first_match_wins registry].
  destruct (re_match command_regex line) as [m1|] eqn:E1.
  { destruct (block_keys _ _ _ _ _ (command_block_does year line m1 E1))
      as (r & keys & Hk & Hf).
    exists r, keys. split; [|exact Hf]. destruct r; simpl in *.
    - destruct Hk as [<-|[]]. reflexivity.
    - destruct Hk as [->|[=]]. reflexivity. }
  destruct (re_match user_regex line) as [m2|] eqn:E2.
  { destruct (block_keys _ _ _ _ _ (user_block_does year line m2 E2))
      as (r & keys & Hk & Hf).
    exists r, keys. split; [|exact Hf]. destruct r; simpl in *.
    - destruct Hk as [<-|[<-|[]]]; auto.
    - destruct Hk as [->|[= <-]]; auto. }
  destruct (re_match sudo_command_regex line) as [m3|] eqn:E3.
  { destruct (block_keys _ _ _ _ _ (sudo_command_block_does year line m3 E3))
      as (r & keys & Hk & Hf).
    exists r, keys. split; [|exact Hf]. destruct r; simpl in *.
    - destruct Hk as [<-|[]]. reflexivity.
    - destruct Hk as [->|[=]]. reflexivity. }
  destruct (re_match sudo_failure_regex line) as [m4|] eqn:E4.
  { destruct (block_keys _ _ _ _ _ (sudo_failure_block_does year line m4 E4))
      as (r & keys & Hk & Hf).
    exists r, keys. split; [|exact Hf]. destruct r; simpl in *.
    - destruct Hk as [<-|[]]. reflexivity.
    - destruct Hk as [->|[=]]. reflexivity. }
  destruct (re_match hydra_attack_regex line) as [m5|] eqn:E5.
  { destruct (block_keys _ _ _ _ _ (hydra_block_does year line m5 E5))
      as (r & keys & Hk & Hf).
    exists r, keys. split; [|exact Hf]. destruct r; simpl in *.
    - destruct Hk as [<-|[<-|[]]]; auto.
    - destruct Hk as [->|[= <-]]; auto. }
  exists None, []. split; reflexivity.
Qed.

Lemma first_pattern_not_3 line : first_pattern line <> Some 3.
Proof.
  unfold first_pattern.
  destruct (re_match command_regex line) eqn:E1; [discriminate|].
  destruct (re_match user_regex line); [discriminate|].
  destruct (re_match sudo_command_regex line) as [m|] eqn:E3.
  - destruct (sudo_command_shadowed line m E3) as (m1 & H1). congruence.
  - destruct (re_match sudo_failure_regex line); [discriminate|].
    destruct (re_match hydra_attack_regex line); discriminate.
Qed.

Lemma first_pattern_not_4 line :
  ~ In newline (list_ascii_of_string line) -> first_pattern line <> Some 4.
Proof.
  intros Hnl. unfold first_pattern.
  destruct (re_match command_regex line) eqn:E1; [discriminate|].
  destruct (re_match user_regex line) eqn:E2; [discriminate|].
  destruct (re_match sudo_command_regex line); [discriminate|].
  destruct (re_match sudo_failure_regex line) as [m|] eqn:E4.
  - destruct (sudo_failure_shadowed line m Hnl E4) as (m2 & H2 & _). congruence.
  - destruct (re_match hydra_attack_regex line); discriminate.
Qed.

(** One turn of the reading loop, by the pattern that decides. *)
Lemma process_line_by_pattern self raw :
  exists r keys,
    keys_for (first_pattern (strip raw)) r keys /\
    process_line self raw = Ok (after_line r keys self).
Proof.
  destruct (parse_line_by_pattern (current_year self) (strip raw))
    as (r & keys & Hk & Hp).
  exists r, keys. split; [exact Hk|].
  unfold process_line. rewrite (Hp self eq_refl). cbn [rbind fst snd].
  destruct r; reflexivity.
Qed.

Lemma stat_after_line r keys self c :
  stat (statistics (after_line r keys self)) c =
  stat (statistics self) c + occurrences c keys
  + match r with
    | Some _ => if counter_eqb total_entries c then 1 else 0
    | None => 0
    end.
Proof.
  unfold after_line, occurrences. destruct r as [e|].
  - cbn [bump append_entry statistics]. rewrite stat_incr, stat_bump_all. lia.
  - rewrite stat_bump_all. lia.
Qed.

Lemma keys_for_cases g r keys :
  keys_for g r keys ->
  keys = [] \/ keys = [commands] \/ keys = [user_changes] \/
  keys = [sudo_commands; user_changes] \/ keys = [sudo_commands] \/
  keys = [potential_attacks; failed_sudo] \/
  keys = [potential_attacks; failed_logins] \/ keys = [successful_logins].
Proof.
  destruct g as [[|[|[|[|[|[|n]]]]]]|], r; simpl; intuition.
Qed.

(** A property of the analyzers before and after [n] lines that holds of no
    line at all, of each line, and of lines in a row, holds of a whole run. *)
Lemma read_lines_by_steps (Q : string -> Prop)
      (S : nat -> LogAnalyzer -> LogAnalyzer -> Prop) :
  (forall a, S 0 a a) ->
  (forall n a b c, S 1 a b -> S n b c -> S (1 + n) a c) ->
  (forall self raw r keys,
     Q raw -> keys_for (first_pattern (strip raw)) r keys ->
     S 1 self (after_line r keys self)) ->
  forall lines self, Forall Q lines ->
    exists final, read_lines self lines = Ok final /\ S (length lines) self final.
Proof.
  intros H0 Hc Hs. induction lines as [|raw lines IH]; intros self HQ.
  - exists self. split; [reflexivity | apply H0].
  - inversion HQ as [|? ? Hraw Hrest]; subst.
    destruct (process_line_by_pattern self raw) as (r & keys & Hk & Hp).
    destruct (IH (after_line r keys self) Hrest) as (final & Hf & HS).
    exists final. split.
    + cbn [read_lines]. rewrite Hp. exact Hf.
    + cbn [length]. apply (Hc _ _ (after_line r keys self)); eauto.
Qed.

Lemma Forall_any {A} (l : list A) : Forall (fun _ => True) l.
Proof. induction l; constructor; auto. Qed.

Ltac by_keys Hk :=
  apply keys_for_cases in Hk;
  repeat (destruct Hk as [-> | Hk]); try subst;
  unfold occurrences; simpl; lia.

(** X1. Over any lines and from any analyzer, the reading loop ends without
    an exception; no counter goes down, and none goes up by more than one a
    line read. *)
Theorem counters_grow_by_at_most_one_a_line :
  forall self lines,
    exists final,
      read_lines self lines = Ok final /\
      forall c, stat (statistics self) c <= stat (statistics final) c
                <= stat (statistics self) c + length lines.
Proof.
  intros self lines.
  apply (read_lines_by_steps (fun _ => True)
           (fun n a b => forall c, stat (statistics a) c <= stat (statistics b) c
                                   <= stat (statistics a) c + n)).
  - intros a c. lia.
  - intros n a b c H1 H2 k. specialize (H1 k). specialize (H2 k). lia.
  - intros a raw r keys _ Hk c. rewrite stat_after_line.
    destruct r, c; by_keys Hk.
  - apply Forall_any.
Qed.

(** What the reading loop adds to [potential_attacks] is what it adds to
    [failed_sudo] and [failed_logins] together. *)
Lemma potential_attacks_run :
  forall self lines,
    exists final,
      read_lines self lines = Ok final /\
      stat (statistics final) potential_attacks
      + stat (statistics self) failed_sudo + stat (statistics self) failed_logins
      = stat (statistics self) potential_attacks
        + stat (statistics final) failed_sudo
        + stat (statistics final) failed_logins.
Proof.
  intros self lines.
  apply (read_lines_by_steps (fun _ => True)
           (fun _ a b =>
              stat (statistics b) potential_attacks
              + stat (statistics a) failed_sudo + stat (statistics a) failed_logins
              = stat (statistics a) potential_attacks
                + stat (statistics b) failed_sudo
                + stat (statistics b) failed_logins)).
  - intros a. lia.
  - intros n a b c H1 H2. lia.
  - intros a raw r keys _ Hk. rewrite !stat_after_line.
    destruct r; by_keys Hk.
  - apply Forall_any.
Qed.

Lemma keys_for_sudo_commands g r :
  keys_for g r [sudo_commands] -> g = Some 3.
Proof.
  destruct g as [[|[|[|[|[|[|n]]]]]]|], r; simpl; intuition discriminate.
Qed.

Lemma keys_for_failed_sudo g r :
  keys_for g r [potential_attacks; failed_sudo] -> g = Some 4.
Proof.
  destruct g as [[|[|[|[|[|[|n]]]]]]|], r; simpl; intuition discriminate.
Qed.

Ltac by_live_keys Hk :=
  match type of Hk with
  | keys_for ?g _ _ =>
      let E := fresh "E" in
      destruct g as [[|[|[|[|[|[|?]]]]]]|] eqn:E; cbn [keys_for] in Hk;
      try contradiction;
      try (exfalso; eapply first_pattern_not_3; exact E);
      try (exfalso; eapply first_pattern_not_4; [|exact E]; assumption);
      repeat (destruct Hk as [Hk | Hk]); try contradiction; subst;
      unfold occurrences; simpl; lia
  end.

(** [sudo_commands] never grows by more than [user_changes] does: it moves
    with the sudo case of the user block only. *)
Lemma sudo_commands_run :
  forall self lines,
    exists final,
      read_lines self lines = Ok final /\
      stat (statistics final) sudo_commands + stat (statistics self) user_changes
      <= stat (statistics self) sudo_commands
         + stat (statistics final) user_changes.
Proof.
  intros self lines.
  apply (read_lines_by_steps (fun _ => True)
           (fun _ a b =>
              stat (statistics b) sudo_commands + stat (statistics a) user_changes
              <= stat (statistics a) sudo_commands
                 + stat (statistics b) user_changes)).
  - intros a. lia.
  - intros n a b c H1 H2. lia.
  - intros a raw r keys _ Hk. rewrite !stat_after_line.
    destruct r; by_live_keys Hk.
  - apply Forall_any.
Qed.

(** Over the lines of a file, [failed_sudo] stays as it is, and the entries
    are the commands, the logins and part of the user changes. *)
Lemma file_lines_run :
  forall self lines,
    Forall file_line lines ->
    exists final,
      read_lines self lines = Ok final /\
      stat (statistics final) failed_sudo = stat (statistics self) failed_sudo /\
      (stat (statistics final) commands - stat (statistics self) commands)
      + (stat (statistics final) failed_logins
         - stat (statistics self) failed_logins)
      + (stat (statistics final) successful_logins
         - stat (statistics self) successful_logins)
      <= stat (statistics final) total_entries
         - stat (statistics self) total_entries
      <= (stat (statistics final) commands - stat (statistics self) commands)
         + (stat (statistics final) user_changes
            - stat (statistics self) user_changes)
         + (stat (statistics final) failed_logins
            - stat (statistics self) failed_logins)
         + (stat (statistics final) successful_logins
            - stat (statistics self) successful_logins).
Proof.
  intros self lines Hl.
  destruct (read_lines_by_steps file_line
    (fun _ a b =>
       (forall c, stat (statistics a) c <= stat (statistics b) c) /\
       stat (statistics b) failed_sudo = stat (statistics a) failed_sudo /\
       stat (statistics b) commands + stat (statistics b) failed_logins
       + stat (statistics b) successful_logins + stat (statistics a) total_entries
       <= stat (statistics a) commands + stat (statistics a) failed_logins
          + stat (statistics a) successful_logins
          + stat (statistics b) total_entries /\
       stat (statistics b) total_entries + stat (statistics a) commands
       + stat (statistics a) user_changes + stat (statistics a) failed_logins
       + stat (statistics a) successful_logins
       <= stat (statistics a) total_entries + stat (statistics b) commands
          + stat (statistics b) user_changes + stat (statistics b) failed_logins
          + stat (statistics b) successful_logins)) with (lines := lines)
    (self := self) as (final & Hf & Hm & H0 & H1 & H2).
  - intros a. repeat split; intros; lia.
  - intros n a b c (M1 & A1 & B1 & C1) (M2 & A2 & B2 & C2).
    repeat split; try lia. intros k. specialize (M1 k). specialize (M2 k). lia.
  - intros a raw r keys Hraw Hk. apply strip_file_line in Hraw.
    repeat split; [intros c|..]; rewrite ?stat_after_line.
    + destruct r, c; by_keys Hk.
    + destruct r; by_live_keys Hk.
    + destruct r; by_live_keys Hk.
    + destruct r; by_live_keys Hk.
  - exact Hl.
  - exists final. split; [exact Hf|]. split; [exact H0|].
    pose proof (Hm commands). pose proof (Hm failed_logins).
    pose proof (Hm successful_logins). pose proof (Hm total_entries).
    pose proof (Hm user_changes). lia.
Qed.

Lemma analyze_of_read_lines self lines final :
  read_lines self lines = Ok final ->
  analyze self (Some lines) =
  Some (MkAnalyzer (current_year final) (sort_entries (log_entries final))
                   (statistics final),
        write_entries (sort_entries (log_entries final))).
Proof. intros H. unfold analyze. rewrite H. reflexivity. Qed.

(** X2. After a run of [analyze], [potential_attacks] is the sum of
    [failed_sudo] and [failed_logins]. *)
Theorem potential_attacks_is_the_sum_of_failures :
  forall year lines,
    exists final body,
      analyze (fresh year) (Some lines) = Some (final, body) /\
      stat (statistics final) potential_attacks
      = stat (statistics final) failed_sudo
        + stat (statistics final) failed_logins.
Proof.
  intros year lines.
  destruct (potential_attacks_run (fresh year) lines) as (final & Hf & H).
  rewrite (analyze_of_read_lines _ _ _ Hf). do 2 eexists.
  split; [reflexivity|]. unfold fresh in *. simpl in *. lia.
Qed.

(** X3. After a run of [analyze], [sudo_commands] is at most [user_changes]:
    no line counts as a sudo command without counting as a user change. *)
Theorem sudo_commands_at_most_user_changes :
  forall year lines,
    exists final body,
      analyze (fresh year) (Some lines) = Some (final, body) /\
      stat (statistics final) sudo_commands
      <= stat (statistics final) user_changes.
Proof.
  intros year lines.
  destruct (sudo_commands_run (fresh year) lines) as (final & Hf & H).
  rewrite (analyze_of_read_lines _ _ _ Hf). do 2 eexists.
  split; [reflexivity|]. unfold fresh in *. simpl in *. lia.
Qed.

(** X4. After a run of [analyze] over the lines of a file, [failed_sudo] is
    0, and [total_entries] lies between the sum of [commands],
    [failed_logins] and [successful_logins] and that sum with [user_changes]
    added. *)
Theorem file_run_accounting :
  forall year lines,
    Forall file_line lines ->
    exists final body,
      analyze (fresh year) (Some lines) = Some (final, body) /\
      stat (statistics final) failed_sudo = 0 /\
      stat (statistics final) commands + stat (statistics final) failed_logins
      + stat (statistics final) successful_logins
      <= stat (statistics final) total_entries
      <= stat (statistics final) commands + stat (statistics final) user_changes
         + stat (statistics final) failed_logins
         + stat (statistics final) successful_logins.
Proof.
  intros year lines Hl.
  destruct (file_lines_run (fresh year) lines Hl) as (final & Hf & H0 & H).
  rewrite (analyze_of_read_lines _ _ _ Hf). do 2 eexists.
  split; [reflexivity|]. unfold fresh in *. simpl in *. lia.
Qed.

Lemma file_run_accounting_witness :
  exists final body,
    analyze (fresh 2024) (Some scenario_D) = Some (final, body) /\
    stat (statistics final) failed_sudo = 0.
Proof.
  destruct (file_run_accounting 2024 scenario_D) as (final & body & H & H0 & _).
  - unfold scenario_D. repeat constructor.
    + eexists. split; [|right; reflexivity]. simpl. intuition discriminate.
    + eexists. split; [|right; reflexivity]. simpl. intuition discriminate.
  - exists final, body. split; assumption.
Defined.

(** ** parse_line on any text, the sort on any entries *)

(** X5. [parse_line] raises on no text: no group is missing, [strptime]
    raises nothing the [except] lets through, [sanitize_ip] finds its parts.
    It leaves the year and the collected entries as they are. *)
Theorem parse_line_never_raises :
  forall self line,
    exists r self',
      parse_line self line = Ok (r, self') /\
      current_year self' = current_year self /\
      log_entries self' = log_entries self.
Proof.
  intros self line.
  destruct (parse_line_does (current_year self) line) as (r & keys & _ & Hp).
  exists r, (bump_all keys self). split; [apply Hp; reflexivity|].
  split; [apply current_year_bump_all | apply log_entries_bump_all].
Qed.

Lemma drop_while_all f s : forallb f s = true -> drop_while f s = [].
Proof.
  induction s as [|a s IH]; simpl; [reflexivity|].
  destruct (f a); simpl; [exact IH | discriminate].
Qed.

(** X6. A line of whitespace only, the empty line among them, is dropped:
    the reading loop leaves the analyzer as it is. *)
Theorem blank_line_is_dropped :
  forall self raw,
    forallb is_space (list_ascii_of_string raw) = true ->
    process_line self raw = Ok self.
Proof.
  intros self raw H. unfold process_line, strip, strip_chars.
  rewrite (drop_while_all _ _ H). reflexivity.
Qed.

Lemma blank_line_is_dropped_witness :
  process_line (fresh 2024) ("   " ++ nl)%string = Ok (fresh 2024).
Proof. apply blank_line_is_dropped. reflexivity. Defined.

Lemma insert_entry_first e l :
  Forall (chronological e) l -> insert_entry e l = e :: l.
Proof.
  intros H. destruct l as [|x l]; [reflexivity|].
  inversion H as [|? ? Hx _]; subst. simpl.
  unfold chronological, dt_le in Hx. rewrite Hx. reflexivity.
Qed.

(** X7. Entries that are in ascending order of timestamp already are left
    as they are by the sort; sorting twice is sorting once. *)
Theorem sort_keeps_a_sorted_list :
  (forall l, StronglySorted chronological l -> sort_entries l = l) /\
  (forall l, sort_entries (sort_entries l) = sort_entries l).
Proof.
  assert (A : forall l, StronglySorted chronological l -> sort_entries l = l).
  { induction 1 as [|e l Hs IH He]; [reflexivity|].
    cbn [sort_entries fold_right]. fold (sort_entries l). rewrite IH.
    apply insert_entry_first. exact He. }
  split; [exact A|]. intros l. apply A. apply sort_entries_sorted.
Qed.

Lemma sort_keeps_a_sorted_list_witness :
  sort_entries
    [(MkDatetime 2024 1 5 10 0 0, "a"%string);
     (MkDatetime 2024 1 5 10 0 0, "b"%string);
     (MkDatetime 2024 2 1 0 0 0, "c"%string)]
  = [(MkDatetime 2024 1 5 10 0 0, "a"%string);
     (MkDatetime 2024 1 5 10 0 0, "b"%string);
     (MkDatetime 2024 2 1 0 0 0, "c"%string)].
Proof.
  apply (proj1 sort_keeps_a_sorted_list).
  repeat constructor.
Defined.

Lemma dt_le_antisym a b : dt_le a b -> dt_le b a -> a = b.
Proof.
  unfold dt_le, dt_ltb, dt_compare. intros H1 H2.
  apply dt_eqb_eq. unfold dt_eqb, dt_compare.
  rewrite (lex_compare_antisym (dt_fields a) (dt_fields b)) in H1.
  destruct (lex_compare (dt_fields a) (dt_fields b)); simpl in *;
    congruence.
Qed.

Lemma has_timestamp_self e : has_timestamp (fst e) e = true.
Proof. apply dt_eqb_eq. reflexivity. Qed.

Lemma in_filter_eq t (l1 l2 : list entry) x :
  filter (has_timestamp t) l1 = filter (has_timestamp t) l2 ->
  has_timestamp t x = true -> In x l1 -> In x l2.
Proof.
  intros E Hx Hin.
  assert (In x (filter (has_timestamp t) l1)) as H
      by (apply filter_In; auto).
  rewrite E in H. apply filter_In in H. tauto.
Qed.

(** Two lists in ascending order that hold, for every timestamp, the same
    entries in the same order are one list. *)
Lemma sorted_by_filters l1 : forall l2,
  StronglySorted chronological l1 -> StronglySorted chronological l2 ->
  (forall t, filter (has_timestamp t) l1 = filter (has_timestamp t) l2) ->
  l1 = l2.
Proof.
  induction l1 as [|x l1 IH]; intros l2 S1 S2 F.
  - destruct l2 as [|y l2]; [reflexivity|].
    specialize (F (fst y)). cbn [filter] in F.
    rewrite has_timestamp_self in F. discriminate.
  - destruct l2 as [|y l2].
    { specialize (F (fst x)). cbn [filter] in F.
      rewrite has_timestamp_self in F. discriminate. }
    inversion S1 as [|? ? S1' Hx]; subst. inversion S2 as [|? ? S2' Hy]; subst.
    assert (Exy : fst x = fst y).
    { apply dt_le_antisym.
      - assert (In y (x :: l1)) as [->|Hin]
            by (apply (in_filter_eq (fst y) (y :: l2));
                [symmetry; apply F | apply has_timestamp_self | left; auto]).
        + apply dt_le_refl.
        + rewrite Forall_forall in Hx. apply Hx. exact Hin.
      - assert (In x (y :: l2)) as [->|Hin]
            by (apply (in_filter_eq (fst x) (x :: l1));
                [apply F | apply has_timestamp_self | left; auto]).
        + apply dt_le_refl.
        + rewrite Forall_forall in Hy. apply Hy. exact Hin. }
    assert (x = y).
    { pose proof (F (fst x)) as Fx. cbn [filter] in Fx.
      assert (Hy' : has_timestamp (fst x) y = true)
        by (rewrite Exy; apply has_timestamp_self).
      rewrite has_timestamp_self, Hy' in Fx. congruence. }
    subst y. f_equal. apply IH; auto.
    intros t. specialize (F t). cbn [filter] in F.
    destruct (has_timestamp t x); congruence.
Qed.

(** X8. The order of the report is the only one there is: a list in
    ascending order of timestamp that keeps, for every timestamp, the entries
    of the input in their order is the list the sort gives. *)
Theorem stable_sort_is_unique :
  forall l l',
    StronglySorted chronological l' ->
    (forall t, filter (has_timestamp t) l' = filter (has_timestamp t) l) ->
    l' = sort_entries l.
Proof.
  intros l l' S F. apply sorted_by_filters; auto.
  - apply sort_entries_sorted.
  - intros t. rewrite F, sort_entries_stable. reflexivity.
Qed.

Lemma stable_sort_is_unique_witness :
  [(MkDatetime 2024 1 5 10 0 0, "a"%string);
   (MkDatetime 2024 2 1 0 0 0, "c"%string)]
  = sort_entries [(MkDatetime 2024 2 1 0 0 0, "c"%string);
                  (MkDatetime 2024 1 5 10 0 0, "a"%string)].
Proof.
  apply stable_sort_is_unique.
  - repeat constructor.
  - intros t. cbn [filter].
    destruct (has_timestamp t (MkDatetime 2024 1 5 10 0 0, "a"%string)) eqn:A,
             (has_timestamp t (MkDatetime 2024 2 1 0 0 0, "c"%string)) eqn:C;
      try reflexivity.
    apply dt_eqb_eq in A, C. simpl in A, C. congruence.
Defined.

(** X9. Whatever the text, the result of [sanitize_ip] is of four parts with
    XXX as the last two; and two addresses of four parts that agree on the
    first two have one result: the last two parts leave no trace. *)
Theorem sanitize_ip_hides_the_last_two_parts :
  (forall ip, exists s p0 p1,
      sanitize_ip ip = Ok s /\ four_parts s p0 p1 "XXX" "XXX") /\
  (forall ip ip' p0 p1 p2 p3 q2 q3,
      four_parts ip p0 p1 p2 p3 -> four_parts ip' p0 p1 q2 q3 ->
      sanitize_ip ip = sanitize_ip ip').
Proof.
  split.
  - intros ip. unfold sanitize_ip.
    destruct (Nat.eqb_spec (length (split "." ip)) 4) as [E|E].
    + destruct (split "." ip) as [|p0 [|p1 [|p2 [|p3 [|p4 l]]]]] eqn:S;
        try discriminate.
      apply four_split in S. destruct S as (H0 & H1 & _).
      cbn [item nth_error rbind]. do 3 eexists. split; [reflexivity|].
      repeat split; try assumption; unfold dot_free; simpl;
        intuition discriminate.
    + exists "XXX.XXX.XXX.XXX"%string, "XXX"%string, "XXX"%string.
      split; [reflexivity|].
      repeat split; unfold dot_free; simpl; intuition discriminate.
  - intros ip ip' p0 p1 p2 p3 q2 q3 H H'.
    apply split_four in H, H'. unfold sanitize_ip. rewrite H, H'. reflexivity.
Qed.

Lemma sanitize_ip_hides_the_last_two_parts_witness :
  sanitize_ip "203.0.113.50" = sanitize_ip "203.0.7.9".
Proof.
  apply (proj2 sanitize_ip_hides_the_last_two_parts
           "203.0.113.50" "203.0.7.9" "203" "0" "113" "50" "7" "9")%string;
    unfold four_parts, dot_free; simpl; intuition discriminate.
Defined.

(** ** The year of the analyzer in the timestamps *)

Lemma digits_value_uint d : forall acc,
  digits_value acc (list_ascii_of_string (NilEmpty.string_of_uint d))
  = uint_value acc d.
Proof.
  induction d; intros acc; simpl; try reflexivity; rewrite <- IHd; f_equal.
Qed.

Lemma of_uint_acc_value d : forall acc,
  Z.pos (Pos.of_uint_acc d acc) = uint_value (Z.pos acc) d.
Proof.
  induction d; intros acc; cbn [Pos.of_uint_acc uint_value];
    try reflexivity; rewrite IHd; f_equal; lia.
Qed.

Lemma of_uint_value d : Z.of_N (Pos.of_uint d) = uint_value 0 d.
Proof.
  induction d; simpl; try reflexivity; try exact IHd;
    rewrite of_uint_acc_value; reflexivity.
Qed.

Lemma uint_digits d :
  Forall (fun a => is_digit a = true)
         (list_ascii_of_string (NilEmpty.string_of_uint d)).
Proof. induction d; simpl; constructor; auto. Qed.

Lemma str_of_Z_pos p :
  str_of_Z (Z.pos p) = NilEmpty.string_of_uint (Pos.to_uint p).
Proof.
  unfold str_of_Z. simpl. unfold NilZero.string_of_uint.
  pose proof (DecimalPos.Unsigned.to_uint_nonnil p).
  destruct (Pos.to_uint p); try reflexivity. contradiction.
Qed.

(** [int(str(y))] is [y]. *)
Lemma str_of_Z_value y :
  (0 <= y)%Z -> digits_value 0 (list_ascii_of_string (str_of_Z y)) = y.
Proof.
  destruct y as [|p|p]; intros H; [reflexivity| |lia].
  rewrite str_of_Z_pos, digits_value_uint, <- of_uint_value, DecimalPos.Unsigned.of_to.
  reflexivity.
Qed.

Lemma str_of_Z_digits y :
  (0 <= y)%Z ->
  Forall (fun a => is_digit a = true) (list_ascii_of_string (str_of_Z y)).
Proof.
  destruct y as [|p|p]; intros H; [repeat constructor| |lia].
  rewrite str_of_Z_pos. apply uint_digits.
Qed.

Lemma str_of_Z_neg p :
  exists s, list_ascii_of_string (str_of_Z (Z.neg p)) = "-"%char :: s /\
            Forall (fun a => is_digit a = true) s.
Proof.
  unfold str_of_Z. simpl. eexists. split; [reflexivity|].
  unfold NilZero.string_of_uint.
  destruct (Pos.to_uint p) eqn:E; try (rewrite <- E; apply uint_digits).
  repeat constructor.
Qed.

Lemma digit_not_space a : is_digit a = true -> is_space a = false.
Proof.
  intros H. destruct (is_space a) eqn:E; [|reflexivity].
  apply space_not_digit in E. congruence.
Qed.

Lemma str_of_Z_no_space y :
  Forall (fun a => is_space a = false) (list_ascii_of_string (str_of_Z y)).
Proof.
  destruct y as [|p|p].
  - repeat constructor.
  - eapply Forall_impl; [|apply (str_of_Z_digits (Z.pos p)); lia].
    intros a. apply digit_not_space.
  - destruct (str_of_Z_neg p) as (s & -> & Hs). constructor; [reflexivity|].
    eapply Forall_impl; [|exact Hs]. intros a. apply digit_not_space.
Qed.

Lemma strptime_regex_shape :
  strptime_regex =
  (Group 1 (Cls Digit ++ Cls Digit ++ Cls Digit ++ Cls Digit)
   ++ strptime_after_year)%re.
Proof. reflexivity. Qed.

Lemma firstn_four (a b c d : ascii) l :
  firstn (length (a :: b :: c :: d :: l) - length l) (a :: b :: c :: d :: l)
  = [a; b; c; d].
Proof.
  cbn [length].
  replace (S (S (S (S (length l)))) - length l) with 4 by lia.
  reflexivity.
Qed.

(** What [strptime] takes for the year: the first four characters, digits
    all, with a blank after them. *)
Lemma strptime_regex_year l found :
  rmatch strptime_regex l [] k_match = Some found ->
  exists d1 d2 d3 d4 sp rest,
    l = d1 :: d2 :: d3 :: d4 :: sp :: rest /\
    is_digit d1 = true /\ is_digit d2 = true /\ is_digit d3 = true /\
    is_digit d4 = true /\ is_space sp = true /\
    get_group 1 (m_groups found) = Some [d1; d2; d3; d4].
Proof.
  rewrite strptime_regex_shape. intros H.
  destruct l as [|d1 [|d2 [|d3 [|d4 l]]]];
    cbn -[strptime_after_year Nat.sub firstn length] in H;
    try discriminate;
    try (destruct (is_digit d1); discriminate);
    try (destruct (is_digit d1); [destruct (is_digit d2)|]; discriminate);
    try (destruct (is_digit d1);
         [destruct (is_digit d2); [destruct (is_digit d3)|]|]; discriminate).
  destruct (is_digit d1) eqn:E1; [|discriminate].
  destruct (is_digit d2) eqn:E2; [|discriminate].
  destruct (is_digit d3) eqn:E3; [|discriminate].
  destruct (is_digit d4) eqn:E4; [|discriminate].
  rewrite firstn_four in H.
  destruct (rmatch_inv _ _ _ _ _ H) as (w & s' & cs' & _ & Hk & F & _).
  injection Hk as <-. cbn [m_groups].
  destruct l as [|sp rest]; [discriminate H|].
  assert (Hsp : is_space sp = true).
  { unfold strptime_after_year in H. cbn [rmatch] in H.
    destruct (in_class Space sp) eqn:E; [exact E | discriminate H]. }
  exists d1, d2, d3, d4, sp, rest. repeat split; auto.
  rewrite F by (vm_compute; intuition discriminate).
  apply get_set_group_same.
Qed.

Lemma make_datetime_ok y mo d h mi s t :
  make_datetime y mo d h mi s = Ok t ->
  t = MkDatetime y mo d h mi s /\ valid_datetime t.
Proof.
  unfold make_datetime, between.
  destruct (_ && _) eqn:E; [|discriminate]. intros [= <-].
  split; [reflexivity|]. unfold valid_datetime. cbn.
  repeat (apply andb_prop in E; destruct E as [E ?]).
  repeat match goal with
         | H : (_ <=? _)%Z = true |- _ => apply Z.leb_le in H
         end.
  lia.
Qed.

Lemma drop_while_none f l :
  Forall (fun a => f a = false) l -> drop_while f l = l.
Proof.
  destruct 1 as [|a l Ha _]; [reflexivity|]. simpl. rewrite Ha. reflexivity.
Qed.

Lemma strip_chars_no_space l :
  Forall (fun a => is_space a = false) l -> strip_chars l = l.
Proof.
  intros H. unfold strip_chars. rewrite (drop_while_none _ _ H).
  rewrite drop_while_none; [apply rev_involutive|].
  apply Forall_rev. exact H.
Qed.

(** [int] of a text of digits is its decimal value. *)
Lemma py_int_digits l :
  l <> [] -> Forall (fun a => is_digit a = true) l ->
  py_int (string_of_list_ascii l) = Ok (digits_value 0 l).
Proof.
  intros Hne Hd. unfold py_int. rewrite list_ascii_of_string_of_list_ascii.
  rewrite strip_chars_no_space
    by (eapply Forall_impl; [|exact Hd]; intros a; apply digit_not_space).
  destruct l as [|a l]; [contradiction|].
  replace (forallb is_digit (a :: l)) with true; [reflexivity|].
  symmetry. apply forallb_forall. apply Forall_forall. exact Hd.
Qed.

(** What a success of [strptime] tells about the year. *)
Lemma strptime_ok text t :
  strptime text = Ok t ->
  valid_datetime t /\
  exists d1 d2 d3 d4 sp rest,
    list_ascii_of_string text = d1 :: d2 :: d3 :: d4 :: sp :: rest /\
    is_digit d1 = true /\ is_digit d2 = true /\ is_digit d3 = true /\
    is_digit d4 = true /\ is_space sp = true /\
    dt_year t = digits_value 0 [d1; d2; d3; d4].
Proof.
  unfold strptime.
  destruct (re_match strptime_regex text) as [found|] eqn:Hm; [|discriminate].
  destruct (m_rest found); [|discriminate].
  destruct (strptime_regex_year _ _ Hm)
    as (d1 & d2 & d3 & d4 & sp & rest & El & E1 & E2 & E3 & E4 & Esp & G).
  unfold group at 1. rewrite G. cbn [rbind].
  destruct (group found 2) as [b|]; [|discriminate]. cbn [rbind].
  destruct (group found 3) as [d|]; [|discriminate]. cbn [rbind].
  destruct (group found 4) as [H|]; [|discriminate]. cbn [rbind].
  destruct (group found 5) as [M|]; [|discriminate]. cbn [rbind].
  destruct (group found 6) as [S|]; [|discriminate]. cbn [rbind].
  assert (Y : py_int (string_of_list_ascii [d1; d2; d3; d4])
              = Ok (digits_value 0 [d1; d2; d3; d4])).
  { apply py_int_digits; [discriminate|]. repeat constructor; assumption. }
  rewrite Y. cbn [rbind].
  destruct (index_of _ _ _) as [mo|]; [|discriminate]. cbn [rbind].
  destruct (py_int d) as [day|]; [|discriminate]. cbn [rbind].
  destruct (py_int H) as [hour|]; [|discriminate]. cbn [rbind].
  destruct (py_int M) as [minute|]; [|discriminate]. cbn [rbind].
  destruct (py_int S) as [second|]; [|discriminate]. cbn [rbind].
  intros Hd. apply make_datetime_ok in Hd. destruct Hd as (-> & V).
  split; [exact V|].
  exists d1, d2, d3, d4, sp, rest. repeat split; auto.
Qed.

Lemma short_years :
  forallb (fun n => Nat.ltb (length (list_ascii_of_string (str_of_Z (Z.of_nat n)))) 4)
          (seq 0 1000) = true.
Proof. vm_compute. reflexivity. Qed.

Lemma str_of_Z_short y :
  (0 <= y < 1000)%Z -> length (list_ascii_of_string (str_of_Z y)) < 4.
Proof.
  intros H. pose proof short_years as S. rewrite forallb_forall in S.
  specialize (S (Z.to_nat y)). rewrite Z2Nat.id in S by lia.
  apply Nat.ltb_lt, S, in_seq. lia.
Qed.

(** Text without a blank, then a blank: where the blank is tells the text. *)
Lemma four_before_blank (a : list ascii) x r d1 d2 d3 d4 sp r' :
  Forall (fun c => is_space c = false) a -> is_space x = true ->
  is_space d1 = false -> is_space d2 = false -> is_space d3 = false ->
  is_space d4 = false -> is_space sp = true ->
  a ++ x :: r = d1 :: d2 :: d3 :: d4 :: sp :: r' ->
  a = [d1; d2; d3; d4].
Proof.
  intros Ha Hx H1 H2 H3 H4 Hsp E.
  destruct a as [|a1 [|a2 [|a3 [|a4 [|a5 a]]]]]; simpl in E;
    injection E; intros; subst; try congruence.
  repeat match goal with
         | H : Forall _ (_ :: _) |- _ => inversion H; clear H; subst
         end.
  congruence.
Qed.

(** The timestamp [strptime] makes of the text built for it carries the year
    the text starts with, and that year has four digits. *)
Lemma timestamp_text_year y rest t :
  strptime (str_of_Z y ++ " " ++ rest)%string = Ok t ->
  dt_year t = y /\ (1000 <= y <= 9999)%Z /\ valid_datetime t.
Proof.
  intros H. apply strptime_ok in H.
  destruct H as (V & d1 & d2 & d3 & d4 & sp & r' & El & E1 & E2 & E3 & E4
                 & Esp & Ey).
  rewrite list_ascii_of_string_app in El. cbn [append list_ascii_of_string] in El.
  apply four_before_blank in El;
    auto using digit_not_space, str_of_Z_no_space.
  assert (Hy : (0 <= y)%Z).
  { destruct y as [|p|p]; try lia.
    destruct (str_of_Z_neg p) as (s & Es & _). rewrite Es in El.
    injection El as <- _. discriminate E1. }
  pose proof (str_of_Z_value y Hy) as Hv. rewrite El in Hv.
  rewrite Hv in Ey. split; [exact Ey|]. split; [|exact V].
  destruct V as (Vy & _). rewrite Ey in Vy. split; [|lia].
  destruct (Z_lt_le_dec y 1000) as [Hlt|]; [|assumption].
  pose proof (str_of_Z_short y (conj Hy Hlt)) as Hs. rewrite El in Hs.
  simpl in Hs. lia.
Qed.

Lemma timestamp_str_form self m ts :
  timestamp_str self m = Ok ts ->
  exists rest, ts = (str_of_Z (current_year self) ++ " " ++ rest)%string.
Proof.
  unfold timestamp_str.
  destruct (group m 1) as [g1|]; [|discriminate].
  destruct (group m 2) as [g2|]; [|discriminate].
  destruct (group m 3) as [g3|]; [|discriminate].
  cbn [rbind]. intros [= <-]. eexists. reflexivity.
Qed.

Lemma match_timestamp_year self m t :
  match_timestamp self m = Ok t ->
  dt_year t = current_year self /\ (1000 <= current_year self <= 9999)%Z /\
  valid_datetime t.
Proof.
  unfold match_timestamp.
  destruct (timestamp_str self m) as [ts|] eqn:E; [|discriminate].
  cbn [rbind]. destruct (timestamp_str_form _ _ _ E) as (rest & ->).
  apply timestamp_text_year.
Qed.

Lemma with_timestamp_entry self m body e self' :
  with_timestamp self m body = Ok (Return (Some e) self') ->
  exists t, match_timestamp self m = Ok t /\
            body t = Ok (Return (Some e) self').
Proof.
  unfold with_timestamp, match_timestamp.
  destruct (timestamp_str self m) as [ts|]; [|discriminate]. cbn [rbind].
  destruct (strptime ts) as [t|[]]; try discriminate. eauto.
Qed.

Ltac entry_time H :=
  apply with_timestamp_entry in H;
  let t := fresh "t" in let Ht := fresh "Ht" in
  destruct H as (t & Ht & H); exists t; split; [exact Ht|];
  repeat match type of H with
         | rbind ?x _ = _ => destruct x; cbn [rbind] in H; [|discriminate H]
         | (if ?b then _ else _) = _ => destruct b
         end;
  try discriminate H; injection H as <- _; reflexivity.

(** The timestamp of an entry is the one [strptime] made for the match. *)
Lemma block_entry_time self line e self' :
  first_match_wins registry self line = Ok (Some e, self') ->
  exists m t, match_timestamp self m = Ok t /\ fst e = t.
Proof.
  cbn [first_match_wins registry].
  assert (X : forall block m,
    (forall e0 s0, block self m = Ok (Return (Some e0) s0) ->
       exists t, match_timestamp self m = Ok t /\ fst e0 = t) ->
    (f <- block self m ;;
     match f with
     | Return r s => Ok (r, s)
     | Fallthrough s => Ok (None, s)
     end) = Ok (Some e, self') ->
    exists m t, match_timestamp self m = Ok t /\ fst e = t).
  { intros block m Hb H. destruct (block self m) as [[r s|s]|]; try discriminate.
    cbn [rbind] in H. injection H as -> ->. exists m. eapply Hb. reflexivity. }
  destruct (re_match command_regex line) as [m1|].
  { apply X. intros e0 s0 H. unfold command_block in H. entry_time H. }
  destruct (re_match user_regex line) as [m2|].
  { apply X. intros e0 s0 H. unfold user_block in H. entry_time H. }
  destruct (re_match sudo_command_regex line) as [m3|].
  { apply X. intros e0 s0 H. unfold sudo_command_block in H. entry_time H. }
  destruct (re_match sudo_failure_regex line) as [m4|].
  { apply X. intros e0 s0 H. unfold sudo_failure_block in H. entry_time H. }
  destruct (re_match hydra_attack_regex line) as [m5|]; [|discriminate].
  apply X. intros e0 s0 H. unfold hydra_block in H. entry_time H.
Qed.

(** X10. Every entry [parse_line] returns is dated in the year of the
    analyzer, on a day and at a time that exist; and it returns one only when
    that year has four digits. *)
Theorem entries_are_dated_in_the_year :
  forall self line e self',
    parse_line self line = Ok (Some e, self') ->
    dt_year (fst e) = current_year self /\
    valid_datetime (fst e) /\
    (1000 <= current_year self <= 9999)%Z.
Proof.
  intros self line e self' H. rewrite parse_line_first_match in H.
  destruct (block_entry_time _ _ _ _ H) as (m & t & Ht & ->).
  apply match_timestamp_year in Ht. tauto.
Qed.

Lemma entries_are_dated_in_the_year_witness :
  dt_year (MkDatetime 2024 1 5 10 0 0) = 2024%Z.
Proof.
  apply (entries_are_dated_in_the_year (fresh 2024) scenario_A
           (MkDatetime 2024 1 5 10 0 0,
            "Hydra Attack - Failed login attempt - Timestamp: 2024-01-05 10:00:00, User: admin, IP: 203.0.XXX.XXX, Port: 22000" ++ nl)%string
           (MkAnalyzer 2024 [] (MkStats 0 0 0 0 0 1 0 1))).
  vm_compute. reflexivity.
Defined.

Lemma no_timestamp_in_a_bad_year self m :
  ~ (1000 <= current_year self <= 9999)%Z ->
  forall t, match_timestamp self m <> Ok t.
Proof.
  intros Hy t Ht. apply match_timestamp_year in Ht. tauto.
Qed.

Lemma parse_line_in_a_bad_year self line :
  ~ (1000 <= current_year self <= 9999)%Z ->
  parse_line self line = Ok (None, self).
Proof.
  intros Hy.
  assert (D : forall q m' body, In q patterns -> re_match q line = Some m' ->
              with_timestamp self m' body = Ok (Return None self)).
  { intros q m' body Hq Hm'. apply (timestamp_failure_drops self line q); auto.
    apply no_timestamp_in_a_bad_year. exact Hy. }
  rewrite parse_line_first_match. cbn [first_match_wins registry].
  destruct (re_match command_regex line) as [m1|] eqn:E1.
  { unfold command_block. rewrite (D command_regex); [reflexivity| |exact E1].
    simpl; auto. }
  destruct (re_match user_regex line) as [m2|] eqn:E2.
  { unfold user_block. rewrite (D user_regex); [reflexivity| |exact E2].
    simpl; auto. }
  destruct (re_match sudo_command_regex line) as [m3|] eqn:E3.
  { unfold sudo_command_block.
    rewrite (D sudo_command_regex); [reflexivity| |exact E3]. simpl; auto. }
  destruct (re_match sudo_failure_regex line) as [m4|] eqn:E4.
  { unfold sudo_failure_block.
    rewrite (D sudo_failure_regex); [reflexivity| |exact E4]. simpl; auto 10. }
  destruct (re_match hydra_attack_regex line) as [m5|] eqn:E5; [|reflexivity].
  unfold hydra_block.
  rewrite (D hydra_attack_regex); [reflexivity| |exact E5]. simpl; auto 10.
Qed.

Lemma read_lines_in_a_bad_year lines : forall self,
  ~ (1000 <= current_year self <= 9999)%Z ->
  read_lines self lines = Ok self.
Proof.
  induction lines as [|raw lines IH]; intros self Hy; [reflexivity|].
  cbn [read_lines]. unfold process_line.
  rewrite (parse_line_in_a_bad_year self (strip raw) Hy). cbn [rbind fst snd].
  apply IH. exact Hy.
Qed.

(** X11. With a year given to [LogAnalyzer] that is not 0 and not of four
    digits, below 1000 or above 9999, the analyzer drops every line:
    [parse_line] returns no entry and changes nothing, and a run of [analyze]
    ends with every counter at 0 and a report without entries. The year 0
    stands for no year, and the same holds then, and with no year, when the
    current year is not of four digits. *)
Theorem bad_year_drops_every_line :
  forall year now_year,
    match year with
    | Some y => if (y =? 0)%Z then ~ (1000 <= now_year <= 9999)%Z
                else ~ (1000 <= y <= 9999)%Z
    | None => ~ (1000 <= now_year <= 9999)%Z
    end ->
    (forall line,
       parse_line (LogAnalyzer_init year now_year) line
       = Ok (None, LogAnalyzer_init year now_year)) /\
    (forall lines,
       analyze (LogAnalyzer_init year now_year) (Some lines)
       = Some (LogAnalyzer_init year now_year, write_entries [])).
Proof.
  intros year now_year Hy.
  assert (B : ~ (1000 <= current_year (LogAnalyzer_init year now_year) <= 9999)%Z).
  { unfold LogAnalyzer_init. cbn [current_year].
    destruct year as [y|]; [destruct (y =? 0)%Z|]; exact Hy. }
  split.
  - intros line. apply parse_line_in_a_bad_year. exact B.
  - intros lines. unfold analyze.
    rewrite (read_lines_in_a_bad_year lines _ B). reflexivity.
Qed.

Lemma bad_year_drops_every_line_witness :
  analyze (LogAnalyzer_init (Some 24%Z) 2026) (Some [scenario_A])
  = Some (LogAnalyzer_init (Some 24%Z) 2026, write_entries []).
Proof.
  apply (proj2 (bad_year_drops_every_line (Some 24%Z) 2026%Z ltac:(simpl; lia))).
Defined.

(** ** One line of the report for an entry *)

Lemma firstn_matched (w s' : list ascii) :
  firstn (length (w ++ s') - length s') (w ++ s') = w.
Proof.
  rewrite length_app. replace (length w + length s' - length s') with (length w)
    by lia.
  rewrite firstn_app, Nat.sub_diag, firstn_all. simpl. apply app_nil_r.
Qed.

(** The text of a group is made of characters of the input. *)
Lemma rmatch_groups_incl {R} r : forall s cs (k : list ascii -> caps -> option R) x,
  rmatch r s cs k = Some x ->
  exists w s' cs',
    s = w ++ s' /\ k s' cs' = Some x /\
    forall n v, get_group n cs' = Some v ->
                get_group n cs = Some v \/ incl v w.
Proof.
  induction r as [ |c|p|p|r1 IHr1 r2 IHr2|r1 IHr1 r2 IHr2|c|c|n c|n r IHr| ];
    intros l cs k x H;
    try (destruct (rmatch_inv _ _ _ _ _ H) as (w & s' & cs' & E & Hk & F & _);
         exists w, s', cs'; split; [exact E|]; split; [exact Hk|];
         intros m v Hv; left; rewrite <- F; [exact Hv | simpl; tauto]).
  - simpl in H.
    destruct (IHr1 _ _ _ _ H) as (w1 & s1 & cs1 & -> & H1 & G1).
    destruct (IHr2 _ _ _ _ H1) as (w2 & s2 & cs2 & -> & H2 & G2).
    exists (w1 ++ w2), s2, cs2. rewrite app_assoc.
    split; [reflexivity|]. split; [exact H2|].
    intros m v Hv. destruct (G2 m v Hv) as [Hv1|Hi].
    + destruct (G1 m v Hv1) as [Hv0|Hi]; [left; exact Hv0|].
      right. apply incl_appl. exact Hi.
    + right. apply incl_appr. exact Hi.
  - simpl in H. destruct (rmatch r1 l cs k) eqn:E.
    + injection H as ->. apply (IHr1 _ _ _ _ E).
    + apply (IHr2 _ _ _ _ H).
  - simpl in H.
    destruct (IHr _ _ _ _ H) as (w1 & s1 & cs1 & -> & H1 & G1).
    rewrite firstn_matched in H1.
    exists w1, s1, (set_group n w1 cs1).
    split; [reflexivity|]. split; [exact H1|].
    intros m v Hv. simpl in Hv. destruct (Nat.eqb n m).
    + injection Hv as <-. right. apply incl_refl.
    + apply G1. exact Hv.
Qed.

Lemma clean_app a b : clean a -> clean b -> clean (a ++ b).
Proof.
  unfold clean. rewrite list_ascii_of_string_app. intros Ha Hb H.
  apply in_app_or in H. tauto.
Qed.

Lemma clean_app_inv a b : clean (a ++ b) -> clean a /\ clean b.
Proof.
  unfold clean. rewrite list_ascii_of_string_app. intros H.
  split; intro; apply H; apply in_or_app; auto.
Qed.

Lemma clean_literal s :
  forallb (fun a => negb (Ascii.eqb a newline)) (list_ascii_of_string s) = true ->
  clean s.
Proof.
  intros H Hin. rewrite forallb_forall in H. specialize (H _ Hin).
  rewrite Ascii.eqb_refl in H. discriminate.
Qed.

Lemma clean_group line p m n v :
  clean line -> re_match p line = Some m -> group m n = Ok v -> clean v.
Proof.
  intros Hl Hm Hg. unfold re_match in Hm.
  destruct (rmatch_groups_incl _ _ _ _ _ Hm) as (w & s' & cs' & E & Hk & G).
  injection Hk as <-. unfold group in Hg. cbn [m_groups] in Hg.
  destruct (get_group n cs') as [l|] eqn:El; [|discriminate].
  injection Hg as <-. destruct (G n l El) as [Habs|Hi]; [discriminate|].
  unfold clean. rewrite list_ascii_of_string_of_list_ascii. intros Hin.
  apply Hl. rewrite E. apply in_or_app. left. apply Hi. exact Hin.
Qed.

Lemma clean_no_space s :
  Forall (fun a => is_space a = false) (list_ascii_of_string s) -> clean s.
Proof.
  intros H Hin. rewrite Forall_forall in H. specialize (H _ Hin).
  discriminate.
Qed.

Lemma clean_zeros n : clean (zeros n).
Proof.
  induction n as [|n IH]; unfold clean in *; simpl; [tauto|].
  intros [H|H]; [discriminate | tauto].
Qed.

Lemma clean_pad w z : clean (pad w z).
Proof.
  unfold pad. apply clean_app; [apply clean_zeros|].
  apply clean_no_space, str_of_Z_no_space.
Qed.

Lemma clean_dt_str t : clean (dt_str t).
Proof.
  unfold dt_str.
  repeat (apply clean_app;
          [first [apply clean_pad | apply clean_literal; reflexivity]|]).
  apply clean_pad.
Qed.

Lemma clean_sanitize_ip ip s :
  clean ip -> sanitize_ip ip = Ok s -> clean s.
Proof.
  intros Hc. unfold sanitize_ip.
  destruct (Nat.eqb_spec (length (split "." ip)) 4) as [E|E].
  - destruct (split "." ip) as [|p0 [|p1 [|p2 [|p3 [|p4 l]]]]] eqn:S;
      try discriminate.
    apply four_split in S. destruct S as (_ & _ & _ & _ & ->).
    cbn [item nth_error rbind]. intros [= <-].
    apply clean_app_inv in Hc. destruct Hc as (H0 & Hc).
    apply clean_app_inv in Hc. destruct Hc as (_ & Hc).
    apply clean_app_inv in Hc. destruct Hc as (H1 & _).
    apply clean_app; [exact H0|].
    apply (clean_app "." (p1 ++ ".XXX.XXX")); [apply clean_literal; reflexivity|].
    apply clean_app; [exact H1 | apply clean_literal; reflexivity].
  - intros [= <-]. apply clean_literal. reflexivity.
Qed.

Lemma one_line_nl : one_line nl.
Proof. exists ""%string. split; [reflexivity | unfold clean; simpl; tauto]. Qed.

Lemma append_assoc (a b c : string) :
  ((a ++ b) ++ c = a ++ (b ++ c))%string.
Proof. induction a as [|x a IH]; simpl; [reflexivity|]. rewrite IH. reflexivity. Qed.

Lemma one_line_app a b : clean a -> one_line b -> one_line (a ++ b).
Proof.
  intros Ha (body & -> & Hb). exists (a ++ body)%string.
  split; [symmetry; apply append_assoc | apply clean_app; assumption].
Qed.

Lemma one_line_cons c msg :
  c <> newline -> one_line msg -> one_line (String c msg).
Proof.
  intros Hc (body & -> & Hb). exists (String c body). split; [reflexivity|].
  intros [H|H]; [exact (Hc H)|exact (Hb H)].
Qed.

Ltac msg_line :=
  repeat first
    [ apply one_line_cons; [discriminate|]
    | apply one_line_app;
      [first [apply clean_dt_str
             | apply clean_literal; reflexivity
             | eassumption
             | eapply clean_sanitize_ip; [|eassumption]; eassumption] |] ];
  apply one_line_nl.

Ltac entry_line Hl Hm H :=
  apply with_timestamp_entry in H;
  let t := fresh "t" in
  destruct H as (t & _ & H);
  repeat match type of H with
         | rbind (group ?m ?n) _ = _ =>
             let E := fresh "E" in
             destruct (group m n) eqn:E; cbn [rbind] in H; [|discriminate H];
             apply (clean_group _ _ _ _ _ Hl Hm) in E
         | rbind (sanitize_ip ?x) _ = _ =>
             let E := fresh "E" in
             destruct (sanitize_ip x) eqn:E; cbn [rbind] in H; [|discriminate H]
         | (if ?b then _ else _) = _ => destruct b
         end;
  try discriminate H; injection H as <- _; cbn [snd]; msg_line.

(** The message of an entry made from a text without a newline is one
    line. *)
Lemma entry_message_one_line self line e self' :
  clean line ->
  parse_line self line = Ok (Some e, self') ->
  one_line (snd e).
Proof.
  intros Hl. rewrite parse_line_first_match. cbn [first_match_wins registry].
  assert (X : forall (block : LogAnalyzer -> re_match_obj -> result flow) m,
    (forall e0 s0, block self m = Ok (Return (Some e0) s0) ->
       one_line (snd e0)) ->
    (f <- block self m ;;
     match f with
     | Return r s => Ok (r, s)
     | Fallthrough s => Ok (None, s)
     end) = Ok (Some e, self') ->
    one_line (snd e)).
  { intros block m Hb H. destruct (block self m) as [[r s|s]|]; try discriminate.
    cbn [rbind] in H. injection H as -> ->. eapply Hb. reflexivity. }
  destruct (re_match command_regex line) as [m1|] eqn:E1.
  { apply X. intros e0 s0 H. unfold command_block in H. entry_line Hl E1 H. }
  destruct (re_match user_regex line) as [m2|] eqn:E2.
  { apply X. intros e0 s0 H. unfold user_block in H. entry_line Hl E2 H. }
  destruct (re_match sudo_command_regex line) as [m3|] eqn:E3.
  { apply X. intros e0 s0 H. unfold sudo_command_block in H.
    entry_line Hl E3 H. }
  destruct (re_match sudo_failure_regex line) as [m4|] eqn:E4.
  { apply X. intros e0 s0 H. unfold sudo_failure_block in H.
    entry_line Hl E4 H. }
  destruct (re_match hydra_attack_regex line) as [m5|] eqn:E5; [|discriminate].
  apply X. intros e0 s0 H. unfold hydra_block in H. entry_line Hl E5 H.
Qed.

Lemma count_newlines_app a b :
  count_newlines (a ++ b) = count_newlines a + count_newlines b.
Proof.
  unfold count_newlines.
  rewrite list_ascii_of_string_app, filter_app, length_app. reflexivity.
Qed.

Lemma count_newlines_clean s : clean s -> count_newlines s = 0.
Proof.
  unfold clean, count_newlines. induction (list_ascii_of_string s) as [|a l IH];
    intros H; simpl; [reflexivity|].
  destruct (Ascii.eqb_spec a newline) as [->|_]; [destruct H; left; reflexivity|].
  apply IH. intro. apply H. right. assumption.
Qed.

Lemma count_newlines_one_line msg : one_line msg -> count_newlines msg = 1.
Proof.
  intros (body & -> & Hb). rewrite count_newlines_app, count_newlines_clean by exact Hb.
  reflexivity.
Qed.

Lemma concat_cons (x : string) l :
  String.concat "" (x :: l) = (x ++ String.concat "" l)%string.
Proof.
  destruct l as [|y l]; simpl.
  - induction x as [|c x IH]; simpl; [reflexivity|]. rewrite <- IH. reflexivity.
  - reflexivity.
Qed.

Lemma count_newlines_entries (entries : list entry) :
  Forall (fun e => one_line (snd e)) entries ->
  count_newlines (String.concat "" (map snd entries)) = length entries.
Proof.
  induction 1 as [|e l He _ IH]; [reflexivity|].
  cbn [map]. rewrite concat_cons, count_newlines_app, IH,
    (count_newlines_one_line _ He). reflexivity.
Qed.

Lemma events_of_one_line year lines :
  Forall file_line lines ->
  Forall (fun e => one_line (snd e)) (events_of year lines).
Proof.
  induction 1 as [|raw lines Hraw _ IH]; [constructor|].
  cbn [events_of]. destruct (line_event year raw) as [e|] eqn:E; [|exact IH].
  constructor; [|exact IH]. unfold line_event in E.
  destruct (parse_line _ (strip raw)) as [[r s]|] eqn:P; [|discriminate].
  subst r. eapply entry_message_one_line; [|exact P].
  apply strip_file_line. exact Hraw.
Qed.

(** X12. Over the lines of a file, every entry of the report is one line of
    text, ended by its newline and with none inside; the entry section of the
    report has its heading, an empty line and one line for each entry counted
    in [total_entries]. *)
Theorem one_report_line_for_each_entry :
  forall year lines,
    Forall file_line lines ->
    exists final body,
      analyze (fresh year) (Some lines) = Some (final, body) /\
      Forall (fun e => one_line (snd e)) (log_entries final) /\
      count_newlines body = 2 + stat (statistics final) total_entries.
Proof.
  intros year lines Hl. unfold analyze.
  destruct (read_lines_does lines (fresh year)) as (final & -> & Hy & He & Ht).
  do 2 eexists. split; [reflexivity|]. cbn [log_entries statistics].
  cbn [fresh log_entries current_year app] in He.
  assert (F : Forall (fun e => one_line (snd e)) (sort_entries (log_entries final))).
  { eapply Permutation_Forall; [apply sort_entries_perm|].
    rewrite He. apply events_of_one_line. exact Hl. }
  split; [exact F|].
  unfold write_entries. rewrite !count_newlines_app, count_newlines_entries by exact F.
  rewrite <- (Permutation_length (sort_entries_perm _)), He, Ht.
  cbn [fresh statistics current_year]. reflexivity.
Qed.

Lemma one_report_line_for_each_entry_witness :
  exists final body,
    analyze (fresh 2024) (Some scenario_D) = Some (final, body) /\
    count_newlines body = 2 + stat (statistics final) total_entries.
Proof.
  destruct (one_report_line_for_each_entry 2024 scenario_D)
    as (final & body & H & _ & Hc).
  - unfold scenario_D. repeat constructor.
    + eexists. split; [|right; reflexivity]. simpl. intuition discriminate.
    + eexists. split; [|right; reflexivity]. simpl. intuition discriminate.
  - exists final, body. split; assumption.
Defined.

(** ** White space around a line *)

Lemma drop_while_blank_front pre l :
  forallb is_space pre = true ->
  drop_while is_space (pre ++ l) = drop_while is_space l.
Proof.
  induction pre as [|a pre IH]; simpl; [reflexivity|].
  destruct (is_space a); simpl; [exact IH | discriminate].
Qed.

Lemma drop_while_app_keep f l post :
  drop_while f l <> [] -> drop_while f (l ++ post) = drop_while f l ++ post.
Proof.
  induction l as [|a l IH]; simpl; [congruence|].
  destruct (f a); [exact IH | reflexivity].
Qed.

Lemma drop_while_empty f l : drop_while f l = [] -> forallb f l = true.
Proof.
  induction l as [|a l IH]; simpl; [reflexivity|].
  destruct (f a); simpl; [exact IH | discriminate].
Qed.

Lemma strip_chars_blank_back l post :
  forallb is_space post = true -> strip_chars (l ++ post) = strip_chars l.
Proof.
  intros Hp. unfold strip_chars.
  destruct (drop_while is_space l) as [|a d] eqn:E.
  - rewrite (drop_while_all is_space (l ++ post)); [reflexivity|].
    rewrite forallb_app, Hp, (drop_while_empty _ _ E). reflexivity.
  - rewrite drop_while_app_keep by congruence. rewrite E, rev_app_distr.
    rewrite drop_while_blank_front; [reflexivity|].
    rewrite forallb_forall in *. intros x Hx. apply Hp, in_rev, Hx.
Qed.

Lemma strip_blank_around pre line post :
  blank pre -> blank post -> strip (pre ++ line ++ post)%string = strip line.
Proof.
  unfold blank, strip. intros Hpre Hpost. f_equal.
  rewrite !list_ascii_of_string_app. unfold strip_chars at 1.
  rewrite drop_while_blank_front by exact Hpre.
  apply (strip_chars_blank_back _ _ Hpost).
Qed.

(** X13. White space before and after a line of the file plays no part: the
    loop of [analyze] does with the line what it does with the text between,
    be it indented, ended by a newline or by a carriage return and a
    newline. *)
Theorem white_space_around_a_line_is_ignored :
  forall self pre line post,
    blank pre -> blank post ->
    process_line self (pre ++ line ++ post)%string = process_line self line.
Proof.
  intros self pre line post Hpre Hpost. unfold process_line.
  rewrite (strip_blank_around _ _ _ Hpre Hpost). reflexivity.
Qed.

Lemma white_space_around_a_line_is_ignored_witness :
  process_line (fresh 2024)
    ("  " ++ scenario_A ++ String (ascii_of_nat 13) nl)%string
  = process_line (fresh 2024) scenario_A.
Proof.
  apply (white_space_around_a_line_is_ignored (fresh 2024) "  " scenario_A
           (String (ascii_of_nat 13) nl)); reflexivity.
Defined.
